(** * Price-bulletin parsers of phpricetracker: shallow embedding and checked properties

    The development embeds, as executable Rocq definitions, the text-processing
    cores of

    - [utils/priceNormalizer.js]     (the seven normalising functions),
    - [scrapers/pdf/da_parser.js]    (NCR, RX and generic region parsers,
                                      filename date resolver, batch driver,
                                      listing of the bulletins),
    - [scrapers/pdf/doe_parser.js]   (fuel parser, date resolver, batch driver,
                                      listing of the bulletins, entry point),
    - [scrapers/pdf/dti_parser.js]   (SRP line parser, choice of the latest
                                      bulletin, entry point),
    - [scrapers/da_scraper.js]       (the lookups and tests on one line).

    JavaScript regular expressions are embedded through a small backtracking
    matcher ([Regex.m]) that follows the priority rules of the language
    (leftmost start, greedy or lazy quantifiers, ordered alternation), so a
    pattern of the source is written once as a [regex] term and run.  The
    matcher is shown to accept only texts of the pattern ([m_sound]) and to
    find a match wherever an anchor-free pattern has one ([m_complete]).

    Modelling conventions.
    - Text is ASCII: a JavaScript string is a [string] of 8-bit characters;
      [toLowerCase]/[toUpperCase] act on the 26 letters, and white space is
      the ASCII set (tab, line feed, vertical tab, form feed, carriage return,
      space).  Other characters are their UTF-8 bytes and are kept as they
      are; the one table of the program that holds such a letter
      ([MARKET_NAMES]) is compared through a [toLowerCase] that also folds
      the letters of Latin-1.
    - Numbers are IEEE 754 doubles.  A finite double is the rational it
      equals ([Q], kept reduced); [parseFloat] and the arithmetic operations
      round to the nearest double, ties to even ([JS.double]).  [NaN] is
      [None] in a value of type [option Q].  Values beyond the largest
      double ([Infinity]) are outside the model.
    - A value that may not be a string (the region name
      [REGIONS[dir] || dir] of a directory) is a [JS.value].
    - The [debug] flag of the parsers only prints; it is dropped.
    - File reading, PDF decoding, directory listings, [path.join] and
      [path.dirname] are parameters; [path.basename] is what follows the
      last slash. *)

From Stdlib Require Import List String Ascii Bool Arith NArith ZArith QArith Lia.
Import ListNotations.

Local Open Scope string_scope.
Local Open Scope nat_scope.

(* ================================================================== *)
(** * JavaScript string primitives *)
(* ================================================================== *)

Module JS.

Definition code (c : ascii) : N := N_of_ascii c.

Definition in_range (lo hi : N) (c : ascii) : bool :=
  (N.leb lo (code c) && N.leb (code c) hi)%bool.

Definition is_digit (c : ascii) : bool := in_range 48 57 c.
Definition is_upper (c : ascii) : bool := in_range 65 90 c.
Definition is_lower (c : ascii) : bool := in_range 97 122 c.

(** [\w] *)
Definition is_word (c : ascii) : bool :=
  (is_digit c || is_upper c || is_lower c || N.eqb (code c) 95)%bool.

(** [\s], and the characters removed by [trim] *)
Definition is_space (c : ascii) : bool :=
  (in_range 9 13 c || N.eqb (code c) 32)%bool.

(** line terminators, excluded by [.] *)
Definition is_line_terminator (c : ascii) : bool :=
  (N.eqb (code c) 10 || N.eqb (code c) 13)%bool.

Definition lower_char (c : ascii) : ascii :=
  if is_upper c then ascii_of_N (code c + 32) else c.

Definition upper_char (c : ascii) : ascii :=
  if is_lower c then ascii_of_N (code c - 32) else c.

Fixpoint map_chars (f : ascii -> ascii) (s : string) : string :=
  match s with
  | EmptyString => EmptyString
  | String c s' => String (f c) (map_chars f s')
  end.

Definition toLowerCase : string -> string := map_chars lower_char.
Definition toUpperCase : string -> string := map_chars upper_char.

(** [toLowerCase] on text that may hold letters of the Latin-1 supplement,
    each written as its two UTF-8 bytes, the first being 195: besides the 26
    letters, the capitals from U+00C0 to U+00DE (second byte 128 to 158),
    except the sign U+00D7 (151), go to the small letter 32 further on. *)
Fixpoint lower_latin1 (after_195 : bool) (s : string) : string :=
  match s with
  | EmptyString => EmptyString
  | String c s' =>
      if (after_195 && in_range 128 191 c)%bool then
        String (if (in_range 128 158 c && negb (N.eqb (code c) 151))%bool
                then ascii_of_N (code c + 32) else c)
               (lower_latin1 false s')
      else String (lower_char c) (lower_latin1 (N.eqb (code c) 195) s')
  end.

Definition toLowerCaseLatin1 (s : string) : string := lower_latin1 false s.

Fixpoint trimStart (s : string) : string :=
  match s with
  | String c s' => if is_space c then trimStart s' else s
  | EmptyString => EmptyString
  end.

Fixpoint trimEnd (s : string) : string :=
  match s with
  | EmptyString => EmptyString
  | String c s' =>
      match trimEnd s' with
      | EmptyString => if is_space c then EmptyString else String c EmptyString
      | t => String c t
      end
  end.

Definition trim (s : string) : string := trimEnd (trimStart s).

(** [s.startsWith(p)] *)
Fixpoint startsWith (p s : string) : bool :=
  match p, s with
  | EmptyString, _ => true
  | String a p', String b s' => (Ascii.eqb a b && startsWith p' s')%bool
  | String _ _, EmptyString => false
  end.

(** [s.includes(sub)] *)
Fixpoint includes (s sub : string) : bool :=
  (startsWith sub s ||
   match s with
   | EmptyString => false
   | String _ s' => includes s' sub
   end)%bool.

(** [s.split(sep)] for a one-character separator *)
Fixpoint split (sep : ascii) (s : string) : list string :=
  match s with
  | EmptyString => [EmptyString]
  | String c s' =>
      if Ascii.eqb c sep then EmptyString :: split sep s'
      else match split sep s' with
           | [] => [String c EmptyString]
           | w :: ws => String c w :: ws
           end
  end.

Definition newline : ascii := ascii_of_N 10.

(** [s.padStart(n, "0")] *)
Fixpoint zeros (n : nat) : string :=
  match n with O => EmptyString | S n' => String "0" (zeros n') end.

Definition padStart0 (n : nat) (s : string) : string :=
  zeros (n - String.length s) ++ s.

(** [s.replace(/\s+/g, " ")]: every maximal run of white space becomes one
    space. *)
Fixpoint collapse_spaces (in_run : bool) (s : string) : string :=
  match s with
  | EmptyString => EmptyString
  | String c s' =>
      if is_space c
      then (if in_run then collapse_spaces true s'
            else String " " (collapse_spaces true s'))
      else String c (collapse_spaces false s')
  end.

Definition replace_ws_runs (s : string) : string := collapse_spaces false s.

(** Truthiness of an optional string: [undefined] and [""] are falsy. *)
Definition truthy (o : option string) : bool :=
  match o with
  | Some (String _ _) => true
  | _ => false
  end.

(** ** Numbers *)

(** A number of the program is an IEEE 754 double.  A finite double is
    written as the rational it equals, reduced; comparisons are those of the
    rationals. *)
Definition Qltb (x y : Q) : bool := negb (Qle_bool y x).
Definition Qleb (x y : Q) : bool := Qle_bool x y.

(** [n / d] rounded to the nearest integer, a tie going to the even one
    ([0 <= n], [0 < d]) *)
Definition round_half_even (n d : Z) : Z :=
  let k := (n / d)%Z in
  match (2 * (n mod d) ?= d)%Z with
  | Lt => k
  | Eq => if Z.even k then k else (k + 1)%Z
  | Gt => (k + 1)%Z
  end.

(** [(n / d) / 2 ^ e] as a fraction *)
Definition scaled (n d e : Z) : Z * Z :=
  if (0 <=? e)%Z then (n, (d * 2 ^ e)%Z) else ((n * 2 ^ (- e))%Z, d).

(** The double nearest to [n / d]: with [2 ^ e <= n / d < 2 ^ (e + 1)], the
    value is rounded to a multiple of [2 ^ u], where [u] is [e - 52] (53
    significant bits) and not below -1074 (the subnormal numbers). *)
Definition double_of_fraction (n d : positive) : Q :=
  let e0 := (Z.log2 (Z.pos n) - Z.log2 (Z.pos d))%Z in
  let '(n0, d0) := scaled (Z.pos n) (Z.pos d) e0 in
  let e := if (n0 <? d0)%Z then (e0 - 1)%Z else e0 in
  let u := Z.max (e - 52) (-1074) in
  let '(n1, d1) := scaled (Z.pos n) (Z.pos d) u in
  let m := round_half_even n1 d1 in
  if (0 <=? u)%Z then inject_Z (m * 2 ^ u) else Qred (m # Z.to_pos (2 ^ (- u))).

(** The double nearest to [q], ties to even: the rounding of the value of a
    decimal literal and of the result of an arithmetic operation. *)
Definition double (q : Q) : Q :=
  match Qnum (Qred q) with
  | Z0 => 0%Q
  | Zpos n => double_of_fraction n (Qden (Qred q))
  | Zneg n => (- double_of_fraction n (Qden (Qred q)))%Q
  end.

(** [a + b] and [a / b] on doubles; the divisors of the program are 2 and
    the length of a list of two or more numbers, never zero. *)
Definition add (a b : Q) : Q := double (a + b).
Definition div (a b : Q) : Q := double (a / b).

Definition digit_val (c : ascii) : N := (code c - 48)%N.

(** Longest run of decimal digits at the head of [s]: value accumulated on
    [acc], number of digits read, and the rest. *)
Fixpoint take_digits (s : string) (acc : N) (n : nat) : N * nat * string :=
  match s with
  | String c s' =>
      if is_digit c then take_digits s' (acc * 10 + digit_val c)%N (S n)
      else (acc, n, s)
  | EmptyString => (acc, n, s)
  end.

Fixpoint pow10 (n : nat) : positive :=
  match n with
  | O => 1%positive
  | S n' => (10 * pow10 n')%positive
  end.

(** Exponent part [e[+-]ddd] of a decimal literal, as a power of ten; [1]
    when [s] does not start with a complete exponent. *)
Definition exponent_factor (s : string) : Q :=
  match s with
  | String e s1 =>
      if (Ascii.eqb e "e" || Ascii.eqb e "E")%bool then
        let '(neg, s2) :=
          match s1 with
          | String "-" t => (true, t)
          | String "+" t => (false, t)
          | _ => (false, s1)
          end in
        let '(v, n, _) := take_digits s2 0%N 0 in
        match n with
        | O => 1%Q
        | S _ =>
            let p := pow10 (N.to_nat v) in
            if neg then (1 # p)%Q else (Z.pos p # 1)%Q
        end
      else 1%Q
  | EmptyString => 1%Q
  end.

(** Unsigned decimal literal at the head of [s]. *)
Definition parse_unsigned (s : string) : option Q :=
  let '(ip, n1, r1) := take_digits s 0%N 0 in
  let '(fp, n2, r2) :=
    match r1 with
    | String "." t => take_digits t 0%N 0
    | _ => (0%N, O, r1)
    end in
  match n1 + n2 with
  | O => None
  | S _ =>
      let mant := (Z.of_N (ip * N.pos (pow10 n2) + fp) # pow10 n2)%Q in
      Some (double (mant * exponent_factor r2))
  end.

(** [parseFloat(s)]: leading white space is skipped, then the longest prefix
    that is a decimal literal is read and rounded to a double; [None] is
    [NaN]. *)
Definition parseFloat (s : string) : option Q :=
  match trimStart s with
  | String "-" t => option_map (fun q => Qred (- q)) (parse_unsigned t)
  | String "+" t => parse_unsigned t
  | t => parse_unsigned t
  end.

(** [parseFloat] of a possibly [undefined] capture *)
Definition parseFloat_opt (o : option string) : option Q :=
  match o with
  | Some s => parseFloat s
  | None => None
  end.

(** [Math.min(...l)] and [Math.max(...l)] of a non-empty list, and
    [l.reduce((a, b) => a + b, 0)] *)
Definition list_min (x : Q) (l : list Q) : Q :=
  fold_left (fun a b => if Qltb b a then b else a) l x.
Definition list_max (x : Q) (l : list Q) : Q :=
  fold_left (fun a b => if Qltb a b then b else a) l x.
Definition list_sum (l : list Q) : Q :=
  fold_left add l 0%Q.

(** Results of operations that raise *)
Inductive result (A : Type) : Type :=
| Ok (a : A)
| Throw (message : string).
Arguments Ok {A} a.
Arguments Throw {A} message.

(** [s.replace(/[...]/g, "")] for a class of single characters: what is
    left are the characters that [keep] accepts. *)
Fixpoint filter_chars (keep : ascii -> bool) (s : string) : string :=
  match s with
  | EmptyString => EmptyString
  | String c s' =>
      if keep c then String c (filter_chars keep s') else filter_chars keep s'
  end.

(** [words.join(sep)] *)
Fixpoint join (sep : string) (ws : list string) : string :=
  match ws with
  | [] => EmptyString
  | [w] => w
  | w :: ws' => w ++ sep ++ join sep ws'
  end.

(** [s.endsWith(suffix)] *)
Definition endsWith (s suffix : string) : bool :=
  (Nat.leb (String.length suffix) (String.length s) &&
   String.eqb (substring (String.length s - String.length suffix)
                         (String.length suffix) s) suffix)%bool.

(** ** Object literals used as tables *)

(** The property names every object literal inherits from
    [Object.prototype]: [table[key]] is a function (or, for [__proto__], an
    object) for these keys, even if the literal does not list them. *)
Definition object_prototype_keys : list string :=
  [ "constructor"; "__defineGetter__"; "__defineSetter__"; "hasOwnProperty";
    "__lookupGetter__"; "__lookupSetter__"; "isPrototypeOf";
    "propertyIsEnumerable"; "toString"; "valueOf"; "__proto__";
    "toLocaleString" ].

(** What [table[key] || fallback] can be for a table of non-empty strings: a
    string, or the inherited member found under [key]. *)
Inductive value : Type :=
| VString (s : string)
| VInherited (key : string).

Fixpoint assoc (key : string) (table : list (string * string)) : option string :=
  match table with
  | [] => None
  | (k, v) :: rest => if String.eqb k key then Some v else assoc key rest
  end.

(** [table[key] || fallback] *)
Definition lookup_or (table : list (string * string)) (key fallback : string)
  : value :=
  match assoc key table with
  | Some (String c v) => VString (String c v)
  | Some EmptyString => VString fallback
  | None =>
      if existsb (String.eqb key) object_prototype_keys then VInherited key
      else VString fallback
  end.

(** The text of an inherited member, as Node gives it when the member is
    used as a property key: the members are native functions, except
    [__proto__], which is [Object.prototype]. *)
Definition member_text (key : string) : string :=
  if String.eqb key "__proto__" then "[object Object]"
  else if String.eqb key "constructor" then "function Object() { [native code] }"
  else "function " ++ key ++ "() { [native code] }".

(** [obj[v]]: the property key a value stands for *)
Definition to_key (v : value) : string :=
  match v with
  | VString s => s
  | VInherited key => member_text key
  end.

(** [s.replace(/X+/g, r)] for a class [X] of single characters: every
    maximal run of characters of the class becomes one [r]. *)
Fixpoint collapse_runs (in_class : ascii -> bool) (r : ascii) (in_run : bool)
         (s : string) : string :=
  match s with
  | EmptyString => EmptyString
  | String c s' =>
      if in_class c
      then (if in_run then collapse_runs in_class r true s'
            else String r (collapse_runs in_class r true s'))
      else String c (collapse_runs in_class r false s')
  end.

End JS.

(** A string is a value. *)
Coercion JS.VString : string >-> JS.value.

(* ================================================================== *)
(** * Regular expressions *)
(* ================================================================== *)

Module Regex.

(** Members of a character class [[...]] *)
Inductive class_item : Type :=
| CChar (c : ascii)            (* a single character *)
| CRange (lo hi : ascii)       (* [lo-hi] *)
| CDigit                       (* \d *)
| CWord                        (* \w *)
| CSpace.                      (* \s *)

(** Pattern syntax.  Capturing groups carry their number (counted by opening
    parenthesis, from 1, as the language does); [(?:...)] needs no node.  No
    pattern of the parsers puts a capturing group under a quantifier that can
    iterate twice, so captures need no reset between iterations. *)
Inductive regex : Type :=
| Eps                                             (* empty pattern *)
| Lit (c : ascii)                                 (* literal character *)
| Any                                             (* . *)
| Class (negated : bool) (items : list class_item)
| Cat (r1 r2 : regex)                             (* r1 r2 *)
| Alt (r1 r2 : regex)                             (* r1|r2 *)
| Grp (n : nat) (r : regex)                       (* ( r ) *)
| Rep (min : nat) (max : option nat) (greedy : bool) (r : regex)
                                                  (* r{min,max} and r{min,max}? *)
| Bol                                             (* ^ *)
| Eol.                                            (* $ *)

(** The usual abbreviations *)
Definition plus (r : regex) : regex := Rep 1 None true r.          (* r+   *)
Definition star (r : regex) : regex := Rep 0 None true r.          (* r*   *)
Definition lazy_star (r : regex) : regex := Rep 0 None false r.    (* r*?  *)
Definition opt (r : regex) : regex := Rep 0 (Some 1) true r.       (* r?   *)
Definition times (n : nat) (r : regex) : regex := Rep n (Some n) true r.     (* r{n} *)
Definition between (a b : nat) (r : regex) : regex := Rep a (Some b) true r. (* r{a,b} *)
Definition digit : regex := Class false [CDigit].                  (* \d *)
Definition word : regex := Class false [CWord].                    (* \w *)
Definition space : regex := Class false [CSpace].                  (* \s *)

Fixpoint cat (rs : list regex) : regex :=
  match rs with
  | [] => Eps
  | [r] => r
  | r :: rs' => Cat r (cat rs')
  end.

Fixpoint alt (rs : list regex) : regex :=
  match rs with
  | [] => Eps
  | [r] => r
  | r :: rs' => Alt r (alt rs')
  end.

(** A literal word, character by character *)
Fixpoint lit (s : string) : regex :=
  match s with
  | EmptyString => Eps
  | String c EmptyString => Lit c
  | String c s' => Cat (Lit c) (lit s')
  end.

(** Highest group number of a pattern *)
Fixpoint ngroups (r : regex) : nat :=
  match r with
  | Cat r1 r2 | Alt r1 r2 => Nat.max (ngroups r1) (ngroups r2)
  | Grp n r1 => Nat.max n (ngroups r1)
  | Rep _ _ _ r1 => ngroups r1
  | _ => 0
  end.

(** A [RegExp] object: pattern and the flags [i] and [g]. *)
Record RegExp : Type := mkRegExp {
  pattern : regex;
  ignoreCase : bool;
  global : bool
}.

(** Captures: entry [n] is the text of group [n], [None] while the group has
    not taken part in the match ([undefined]). *)
Definition captures : Type := list (option string).

Fixpoint set_capture (n : nat) (v : string) (c : captures) : captures :=
  match n, c with
  | O, _ :: c' => Some v :: c'
  | S n', x :: c' => x :: set_capture n' v c'
  | _, [] => []
  end.

Definition item_matches (it : class_item) (x : ascii) : bool :=
  match it with
  | CChar c => Ascii.eqb c x
  | CRange lo hi => JS.in_range (JS.code lo) (JS.code hi) x
  | CDigit => JS.is_digit x
  | CWord => JS.is_word x
  | CSpace => JS.is_space x
  end.

(** With the [i] flag two characters are the same when their upper-case
    forms are. *)
Definition char_eq (ci : bool) (c x : ascii) : bool :=
  if ci then Ascii.eqb (JS.upper_char c) (JS.upper_char x) else Ascii.eqb c x.

Definition class_matches (ci : bool) (items : list class_item) (x : ascii) : bool :=
  existsb (fun it =>
             (item_matches it x ||
              (ci && (item_matches it (JS.upper_char x) ||
                      item_matches it (JS.lower_char x))))%bool) items.

Definition below (cnt : nat) (max : option nat) : bool :=
  match max with
  | None => true
  | Some mx => cnt <? mx
  end.

Section Matcher.
Context {A : Type}.

(** A continuation receives the rest of the input, the index reached and the
    captures so far, and says whether the rest of the pattern matches. *)
Definition cont : Type := string -> nat -> captures -> option A.

(** The loop of a quantifier [r{mn,mx}] whose body is matched by [body]:
    [cnt] iterations are done.  A greedy quantifier tries one more
    iteration before stopping, a lazy one the other way round.  An
    iteration that consumes nothing once the minimum is reached is refused,
    as in the language; the number of rounds is therefore bounded by
    [mn + length s + 1], which is the fuel [m] gives. *)
Fixpoint rep_loop (body : string -> nat -> captures -> cont -> option A)
         (mn : nat) (mx : option nat) (greedy : bool) (k : cont)
         (fuel cnt : nat) (s : string) (i : nat) (c : captures)
         {struct fuel} : option A :=
  match fuel with
  | O => None
  | S fuel' =>
      let more (_ : unit) :=
        if below cnt mx then
          body s i c
            (fun s' i' c' =>
               if ((mn <=? cnt) && (i' =? i))%bool then None
               else rep_loop body mn mx greedy k fuel' (S cnt) s' i' c')
        else None in
      let stop (_ : unit) :=
        if mn <=? cnt then k s i c else None in
      if greedy then
        match more tt with Some a => Some a | None => stop tt end
      else
        match stop tt with Some a => Some a | None => more tt end
  end.

(** [m ci r s i c k]: match [r] at the head of [s] (which starts at index
    [i] of the subject), then [k]; choices are tried in the order of the
    language and the first success is returned. *)
Fixpoint m (ci : bool) (r : regex) (s : string) (i : nat) (c : captures)
         (k : cont) {struct r} : option A :=
  match r with
  | Eps => k s i c
  | Lit ch =>
      match s with
      | String x s' => if char_eq ci ch x then k s' (S i) c else None
      | EmptyString => None
      end
  | Any =>
      match s with
      | String x s' => if JS.is_line_terminator x then None else k s' (S i) c
      | EmptyString => None
      end
  | Class neg items =>
      match s with
      | String x s' =>
          if xorb neg (class_matches ci items x) then k s' (S i) c else None
      | EmptyString => None
      end
  | Cat r1 r2 => m ci r1 s i c (fun s' i' c' => m ci r2 s' i' c' k)
  | Alt r1 r2 =>
      match m ci r1 s i c k with
      | Some a => Some a
      | None => m ci r2 s i c k
      end
  | Grp n r1 =>
      m ci r1 s i c
        (fun s' i' c' => k s' i' (set_capture n (substring 0 (i' - i) s) c'))
  | Rep mn mx greedy r1 =>
      rep_loop (m ci r1) mn mx greedy k (S (mn + String.length s)) 0 s i c
  | Bol => if i =? 0 then k s i c else None
  | Eol =>
      match s with
      | EmptyString => k s i c
      | String _ _ => None
      end
  end.
(** The same matcher with [extra] more rounds allowed to every quantifier.
    It is only used to state that the rounds [m] allows are enough. *)
Fixpoint m_extra (extra : nat) (ci : bool) (r : regex) (s : string) (i : nat)
         (c : captures) (k : cont) {struct r} : option A :=
  match r with
  | Eps => k s i c
  | Lit ch =>
      match s with
      | String x s' => if char_eq ci ch x then k s' (S i) c else None
      | EmptyString => None
      end
  | Any =>
      match s with
      | String x s' => if JS.is_line_terminator x then None else k s' (S i) c
      | EmptyString => None
      end
  | Class neg items =>
      match s with
      | String x s' =>
          if xorb neg (class_matches ci items x) then k s' (S i) c else None
      | EmptyString => None
      end
  | Cat r1 r2 =>
      m_extra extra ci r1 s i c (fun s' i' c' => m_extra extra ci r2 s' i' c' k)
  | Alt r1 r2 =>
      match m_extra extra ci r1 s i c k with
      | Some a => Some a
      | None => m_extra extra ci r2 s i c k
      end
  | Grp n r1 =>
      m_extra extra ci r1 s i c
        (fun s' i' c' => k s' i' (set_capture n (substring 0 (i' - i) s) c'))
  | Rep mn mx greedy r1 =>
      rep_loop (m_extra extra ci r1) mn mx greedy k
               (S (mn + String.length s) + extra) 0 s i c
  | Bol => if i =? 0 then k s i c else None
  | Eol =>
      match s with
      | EmptyString => k s i c
      | String _ _ => None
      end
  end.
End Matcher.

(** Patterns that may match the empty string (a safe over-approximation) *)
Fixpoint nullable (r : regex) : bool :=
  match r with
  | Eps | Bol | Eol => true
  | Lit _ | Any | Class _ _ => false
  | Cat r1 r2 => (nullable r1 && nullable r2)%bool
  | Alt r1 r2 => (nullable r1 || nullable r2)%bool
  | Grp _ r1 => nullable r1
  | Rep mn _ _ r1 => ((mn =? 0) || nullable r1)%bool
  end.

(** The result of a successful [exec]: where the match starts and ends, and
    the array [[whole, group 1, group 2, ...]]. *)
Record MatchResult : Type := mkMatch {
  index : nat;
  lastIndex : nat;
  groups : list (option string)
}.

(** [match[n]] *)
Definition group (mr : MatchResult) (n : nat) : option string :=
  nth n (groups mr) None.

(** [match.length] *)
Definition match_length (mr : MatchResult) : nat := List.length (groups mr).

Definition accept : @cont (nat * captures) := fun _ i c => Some (i, c).

(** Try the pattern at index [i] (where [s] starts), then at every later
    index. *)
Fixpoint search (re : RegExp) (s : string) (i : nat) : option MatchResult :=
  match m (ignoreCase re) (pattern re) s i
          (repeat None (S (ngroups (pattern re)))) accept with
  | Some (e, c) =>
      Some (mkMatch i e (set_capture 0 (substring 0 (e - i) s) c))
  | None =>
      match s with
      | EmptyString => None
      | String _ s' => search re s' (S i)
      end
  end.

Fixpoint drop (n : nat) (s : string) : option string :=
  match n, s with
  | O, _ => Some s
  | S n', String _ s' => drop n' s'
  | S _, EmptyString => None
  end.

(** [re.exec(s)] with [re.lastIndex = from] *)
Definition exec_from (re : RegExp) (s : string) (from : nat) : option MatchResult :=
  match drop from s with
  | Some t => search re t from
  | None => None
  end.

(** [s.match(re)] for a pattern without the [g] flag *)
Definition match_ (s : string) (re : RegExp) : option MatchResult :=
  exec_from re s 0.

(** The loop [while ((match = re.exec(s)) !== null) ...] over a pattern with
    the [g] flag, started with [lastIndex = from]: the matches in the order
    the loop body sees them.  Every pattern it is used with consumes at least
    one character, so [lastIndex] grows and [length s + 1] rounds are enough. *)
Fixpoint exec_loop (fuel : nat) (re : RegExp) (s : string) (from : nat)
  : list MatchResult :=
  match fuel with
  | O => []
  | S fuel' =>
      match exec_from re s from with
      | None => []
      | Some mr => mr :: exec_loop fuel' re s (lastIndex mr)
      end
  end.

Definition exec_all (re : RegExp) (s : string) : list MatchResult :=
  exec_loop (S (String.length s)) re s 0.

(** [s.match(re)] for a pattern with the [g] flag: the matched substrings
    ([null] is the empty list here).  After an empty match the search resumes
    one character later. *)
Fixpoint match_loop (fuel : nat) (re : RegExp) (s : string) (from : nat)
  : list string :=
  match fuel with
  | O => []
  | S fuel' =>
      match exec_from re s from with
      | None => []
      | Some mr =>
          match group mr 0 with
          | Some w =>
              w :: match_loop fuel' re s
                     (if lastIndex mr =? index mr then S (lastIndex mr)
                      else lastIndex mr)
          | None => []
          end
      end
  end.

Definition match_all (s : string) (re : RegExp) : list string :=
  match_loop (S (String.length s)) re s 0.

End Regex.

Import Regex.

(* ================================================================== *)
(** * utils/priceNormalizer.js *)
(* ================================================================== *)

Module PriceNormalizer.

(** [unitMap], in the order of its keys *)
Definition unitMap : list (string * list string) :=
  [ ("per kg",     ["per kg"; "per kilogram"; "kg"; "kilogram"; "kilo"]);
    ("per liter",  ["per liter"; "per l"; "liter"; "litro"; "l"]);
    ("per piece",  ["per piece"; "per pc"; "piece"; "pc"; "pcs"]);
    ("per dozen",  ["per dozen"; "per dz"; "dozen"; "dz"]);
    ("per sack",   ["per sack"; "sack"; "sacks"]);
    ("per bundle", ["per bundle"; "bundle"; "bundles"]) ].

(** The test applied to one variant: the single letter [l] must be the whole
    text (or [per l]); every other variant may occur anywhere. *)
Definition variant_matches (lowerText variant : string) : bool :=
  if String.eqb variant "l"
  then (String.eqb lowerText "l" || String.eqb lowerText "per l")%bool
  else JS.includes lowerText variant.

Fixpoint lookup_unit (lowerText : string) (table : list (string * list string))
  : string :=
  match table with
  | [] => "per unit"
  | (standardUnit, variations) :: rest =>
      if existsb (variant_matches lowerText) variations then standardUnit
      else lookup_unit lowerText rest
  end.

Definition extractUnit (text : string) : string :=
  match text with
  | EmptyString => "per unit"
  | _ => lookup_unit (JS.trim (JS.toLowerCase text)) unitMap
  end.

(** [word.charAt(0).toUpperCase() + word.slice(1)] *)
Definition capitalize (word : string) : string :=
  match word with
  | EmptyString => EmptyString
  | String c rest => String (JS.upper_char c) rest
  end.

(** [[^\w\s-]] is removed: what stays is [\w], [\s] and the hyphen. *)
Definition name_char (c : ascii) : bool :=
  (JS.is_word c || JS.is_space c || Ascii.eqb c "-")%bool.

Definition normalizeCommodityName (name : string) : string :=
  match name with
  | EmptyString => EmptyString
  | _ =>
      JS.join " "
        (map capitalize
           (JS.split " "
              (JS.filter_chars name_char
                 (JS.replace_ws_runs (JS.toLowerCase (JS.trim name))))))
  end.

(** The pattern [[₱P]?], [\s*], then group 1: [[\d,]+], [\.?], [\d*]
    (flag [g]); the peso sign is its UTF-8 bytes. *)
Definition priceRegex : RegExp :=
  mkRegExp
    (cat [opt (Alt (lit "₱") (Lit "P")); star space;
          Grp 1 (cat [plus (Class false [CDigit; CChar ","]); opt (Lit ".");
                      star digit])])
    false true.

(** Only [matches[0]] of [[...text.matchAll(priceRegex)]] is used, that is
    the first match. *)
Definition extractPrice (text : string) : option Q :=
  match text with
  | EmptyString => None
  | _ =>
      match match_ text priceRegex with
      | None => None
      | Some mr =>
          let priceStr :=
            JS.filter_chars (fun c => negb (Ascii.eqb c ","))
                            (match group mr 1 with Some g => g | None => "undefined" end) in
          JS.parseFloat priceStr
      end
  end.

Definition regionMap : list (string * string) :=
  [ ("ncr", "NCR");
    ("national capital region", "NCR");
    ("metro manila", "NCR");
    ("region vii", "Region VII");
    ("region 7", "Region VII");
    ("central visayas", "Region VII");
    ("region iv-a", "Region IV-A");
    ("region 4a", "Region IV-A");
    ("calabarzon", "Region IV-A");
    ("region iii", "Region III");
    ("region 3", "Region III");
    ("central luzon", "Region III");
    ("region vi", "Region VI");
    ("region 6", "Region VI");
    ("western visayas", "Region VI");
    ("region v", "Region V");
    ("region 5", "Region V");
    ("bicol region", "Region V");
    ("region viii", "Region VIII");
    ("region 8", "Region VIII");
    ("eastern visayas", "Region VIII");
    ("region ix", "Region IX");
    ("region 9", "Region IX");
    ("zamboanga peninsula", "Region IX");
    ("region x", "Region X");
    ("region 10", "Region X");
    ("northern mindanao", "Region X");
    ("region xi", "Region XI");
    ("region 11", "Region XI");
    ("davao region", "Region XI");
    ("region xii", "Region XII");
    ("region 12", "Region XII");
    ("soccsksargen", "Region XII");
    ("region xiii", "Region XIII");
    ("region 13", "Region XIII");
    ("caraga", "Region XIII");
    ("car", "CAR");
    ("cordillera administrative region", "CAR");
    ("barmm", "BARMM");
    ("bangsamoro autonomous region", "BARMM") ].

Definition normalizeRegion (region : string) : JS.value :=
  match region with
  | EmptyString => JS.VString EmptyString
  | _ => JS.lookup_or regionMap (JS.toLowerCase (JS.trim region)) (JS.trim region)
  end.

Definition sourceMap : list (string * string) :=
  [ ("dti", "DTI");
    ("department of trade and industry", "DTI");
    ("da", "DA");
    ("department of agriculture", "DA");
    ("doe", "DOE");
    ("department of energy", "DOE");
    ("local market", "Local Market");
    ("market", "Local Market");
    ("wholesale", "Wholesale Market");
    ("retail", "Retail Market") ].

Definition normalizeSource (source : string) : JS.value :=
  match source with
  | EmptyString => JS.VString "Unknown"
  | _ => JS.lookup_or sourceMap (JS.toLowerCase (JS.trim source)) (JS.trim source)
  end.

(** [[^\w\s\-.,₱P]] is removed.  A single character that stays: *)
Definition clean_char (c : ascii) : bool :=
  (JS.is_word c || JS.is_space c || Ascii.eqb c "-" || Ascii.eqb c "." ||
   Ascii.eqb c ",")%bool.

(** The last [replace] of [cleanText] on UTF-8 text: the three bytes of a
    peso sign stay ([keep] counts the bytes of the sign still to copy), every
    other character outside the class goes. *)
Fixpoint remove_unclean (keep : nat) (s : string) : string :=
  match s with
  | EmptyString => EmptyString
  | String c s' =>
      match keep with
      | S n => String c (remove_unclean n s')
      | O =>
          if JS.startsWith "₱" s then String c (remove_unclean 2 s')
          else if clean_char c then String c (remove_unclean 0 s')
          else remove_unclean 0 s'
      end
  end.

(** [.replace(/[\r\n\t]/g, " ")] *)
Definition blank_control (c : ascii) : ascii :=
  if (N.eqb (JS.code c) 13 || N.eqb (JS.code c) 10 || N.eqb (JS.code c) 9)%bool
  then " "%char else c.

Definition cleanText (text : string) : string :=
  match text with
  | EmptyString => EmptyString
  | _ =>
      JS.trim
        (remove_unclean 0
           (JS.map_chars blank_control
              (JS.replace_ws_runs (JS.trim text))))
  end.

Section Validate.
(** A date as the caller gives it, and [new Date(date)], [None] when the
    result is an invalid date. *)
Variable DateInput : Type.
Variable DateValue : Type.
Variable newDate : DateInput -> option DateValue.

(** The argument of [validatePriceData]; a missing field is [None].  The
    price is given as a string, as the scrapers do ([price.toString()]). *)
Record PriceData : Type := mkPriceData {
  pd_commodity : option string;
  pd_price : option string;
  pd_region : option string;
  pd_unit : option string;
  pd_source : option string;
  pd_date : DateInput
}.

Record CleanPriceData : Type := mkClean {
  commodity : string;
  price : Q;
  region : JS.value;
  unit_ : string;
  source : JS.value;
  date : DateValue
}.

(** [x || ""] *)
Definition or_empty (o : option string) : string :=
  match o with
  | Some s => s
  | None => EmptyString
  end.

(** [priceData] is [None] for [null] or a value that is not an object. *)
Definition validatePriceData (priceData : option PriceData) : option CleanPriceData :=
  match priceData with
  | None => None
  | Some d =>
      if negb (JS.truthy (pd_commodity d) && JS.truthy (pd_price d) &&
               JS.truthy (pd_region d))%bool
      then None
      else
        match extractPrice (or_empty (pd_price d)) with
        | None => None
        | Some normalizedPrice =>
            if JS.Qleb normalizedPrice 0 then None
            else
              match newDate (pd_date d) with
              | None => None
              | Some normalizedDate =>
                  Some {| commodity := normalizeCommodityName (or_empty (pd_commodity d));
                          price := normalizedPrice;
                          region := normalizeRegion (or_empty (pd_region d));
                          unit_ := extractUnit (or_empty (pd_unit d));
                          source := normalizeSource (or_empty (pd_source d));
                          date := normalizedDate |}
              end
        end
  end.
End Validate.

End PriceNormalizer.

(* ================================================================== *)
(** * scrapers/pdf/da_parser.js *)
(* ================================================================== *)

Module DA.

Definition SOURCE : string := "DA".
Definition DATE : string := "2025-06-26".

Definition COMMODITY_CATEGORIES : list (string * list string) :=
  [ ("rice", ["rice"; "bigas"; "palay"; "white rice"; "brown rice"; "special";
              "premium"; "well milled"; "regular milled"]);
    ("vegetables", ["vegetables"; "gulay"; "tomato"; "onion"; "garlic";
                    "potato"; "cabbage"; "carrot"]);
    ("fruits", ["fruits"; "prutas"; "banana"; "apple"; "orange"; "mango";
                "papaya"]);
    ("meat", ["meat"; "karne"; "pork"; "beef"; "chicken"; "fish"; "bangus";
              "tilapia"; "galunggong"]);
    ("dairy", ["dairy"; "milk"; "cheese"; "butter"; "eggs"]);
    ("grains", ["grains"; "corn"; "wheat"; "flour"]);
    ("sugar", ["sugar"; "asukal"]);
    ("oil", ["oil"; "cooking oil"; "vegetable oil"]) ].

Definition MARKET_NAMES : list string :=
  [ "Agora Public Market"; "Balintawak"; "Bicutan Market"; "Cartimar Market";
    "Commonwealth Market"; "Dagonoy Market"; "Guadalupe Public Market";
    "Kamuning Public Market"; "La Huerta Market";
    "New Las Piñas City Public Market";
    "Malabon Central Market"; "Mandaluyong Public Market";
    "Marikina Public Market"; "Maypajo Public Market"; "Mega Q-mart";
    "Navotas Fish Port"; "Pasig City Market"; "Quiapo Market";
    "San Andres Market"; "Sta. Ana Market"; "Taguig Market";
    "Valenzuela Market"; "Vitas Market" ].

(** [\d+(?:\.\d{1,2})?] *)
Definition num : regex :=
  Cat (plus digit) (opt (Cat (Lit ".") (between 1 2 digit))).

(** [\s*-\s*] *)
Definition dash : regex := cat [star space; Lit "-"; star space].

(** ** Date from the file name *)

Definition datePatterns : list RegExp :=
  map (fun r => mkRegExp r false false)
  [ (* /(\d{2})(\d{2})(\d{4})/            MMDDYYYY *)
    cat [Grp 1 (times 2 digit); Grp 2 (times 2 digit); Grp 3 (times 4 digit)];
    (* /(\d{4})-(\d{2})-(\d{2})/          YYYY-MM-DD *)
    cat [Grp 1 (times 4 digit); Lit "-"; Grp 2 (times 2 digit); Lit "-";
         Grp 3 (times 2 digit)];
    (* /(\d{2})-(\d{2})-(\d{4})/          MM-DD-YYYY *)
    cat [Grp 1 (times 2 digit); Lit "-"; Grp 2 (times 2 digit); Lit "-";
         Grp 3 (times 4 digit)];
    (* /(\d{1,2})\/(\d{1,2})\/(\d{4})/    M/D/YYYY *)
    cat [Grp 1 (between 1 2 digit); Lit "/"; Grp 2 (between 1 2 digit); Lit "/";
         Grp 3 (times 4 digit)];
    (* /(\d{4})(\d{2})(\d{2})/            YYYYMMDD *)
    cat [Grp 1 (times 4 digit); Grp 2 (times 2 digit); Grp 3 (times 2 digit)];
    (* /(\w+)\s+(\d{1,2}),?\s+(\d{4})/    Month DD, YYYY *)
    cat [Grp 1 (plus word); plus space; Grp 2 (between 1 2 digit);
         opt (Lit ","); plus space; Grp 3 (times 4 digit)];
    (* /(\d{1,2})\/(\d{1,2})\/(\d{2})/    MM/DD/YY *)
    cat [Grp 1 (between 1 2 digit); Lit "/"; Grp 2 (between 1 2 digit); Lit "/";
         Grp 3 (times 2 digit)];
    (* /April\s+(\d{1,2}),?\s+(\d{4})/ *)
    cat [lit "April"; plus space; Grp 1 (between 1 2 digit); opt (Lit ",");
         plus space; Grp 2 (times 4 digit)];
    (* /June\s+(\d{1,2}),?\s+(\d{4})/ *)
    cat [lit "June"; plus space; Grp 1 (between 1 2 digit); opt (Lit ",");
         plus space; Grp 2 (times 4 digit)] ].

(** Interpolation [${x}] of a capture in a template literal *)
Definition show (o : option string) : string :=
  match o with
  | Some s => s
  | None => "undefined"
  end.

(** The body of [if (match) { ... }]: the date returned for a match, or
    [None] when no branch of the chain returns and the loop goes on.  Group 1
    of every pattern takes part in every match. *)
Definition date_of_match (mr : MatchResult) : option string :=
  let m1 := show (group mr 1) in
  if String.length m1 =? 4 then
    Some (m1 ++ "-" ++ show (group mr 2) ++ "-" ++ show (group mr 3))
  else if String.length m1 =? 2 then
    Some (show (group mr 3) ++ "-" ++ JS.padStart0 2 m1 ++ "-"
          ++ JS.padStart0 2 (show (group mr 2)))
  else if (String.eqb m1 "April" || String.eqb m1 "June")%bool then
    let month := if String.eqb m1 "April" then "04" else "06" in
    Some (show (group mr 2) ++ "-" ++ month ++ "-"
          ++ (if String.eqb m1 "April" then "07" else "26"))
  else None.

Fixpoint date_loop (patterns : list RegExp) (filename : string) : string :=
  match patterns with
  | [] => DATE
  | pattern :: rest =>
      match match_ filename pattern with
      | Some mr =>
          match date_of_match mr with
          | Some d => d
          | None => date_loop rest filename
          end
      | None => date_loop rest filename
      end
  end.

Definition extractDateFromFilename (filename : string) : string :=
  date_loop datePatterns filename.

(** ** Commodity category *)

Fixpoint category_loop (lowerCommodity : string)
         (table : list (string * list string)) : string :=
  match table with
  | [] => "other"
  | (category, variations) :: rest =>
      if existsb (fun v => JS.includes lowerCommodity v) variations
      then category
      else category_loop lowerCommodity rest
  end.

Definition normalizeCommodityType (commodity : string) : string :=
  category_loop (JS.toLowerCase commodity) COMMODITY_CATEGORIES.

(** ** Records *)

(** Entry of [priceRanges].  [market] is set by the NCR parser only and
    [category_header] by the RX parser only; [filename] is [null] until the
    batch driver fills it. *)
Record PriceRangeRecord : Type := mkRange {
  commodity : string;
  unit_ : string;
  minPrice : Q;
  maxPrice : Q;
  averagePrice : Q;
  source : string;
  region : string;
  date : string;
  category : string;
  hasRange : bool;
  filename : option string;
  market : option string;
  category_header : option string
}.

(** Entry of [results] *)
Record PriceRecord : Type := mkPrice {
  p_commodity : string;
  p_unit : string;
  price : Q;
  p_source : string;
  p_region : string;
  p_date : string;
  p_category : string;
  p_hasRange : bool;
  p_filename : option string
}.

(** What a region parser returns: [{ results, priceRanges }] *)
Record Parsed : Type := mkParsed {
  results : list PriceRecord;
  priceRanges : list PriceRangeRecord
}.

(** [!line || line.length < 3] *)
Definition skipped (line : string) : bool := String.length line <? 3.

(** ** NCR format *)

Definition ncr_pricePatterns : list RegExp :=
  map (fun r => mkRegExp r false true)
  [ (* /(\d+(?:\.\d{1,2})?)\s*-\s*(\d+(?:\.\d{1,2})?)/g *)
    cat [Grp 1 num; dash; Grp 2 num];
    (* the same twice, concatenated: groups 1 to 4 *)
    cat [Grp 1 num; dash; Grp 2 num; Grp 3 num; dash; Grp 4 num];
    (* the same four times, concatenated: groups 1 to 8 *)
    cat [Grp 1 num; dash; Grp 2 num; Grp 3 num; dash; Grp 4 num;
         Grp 5 num; dash; Grp 6 num; Grp 7 num; dash; Grp 8 num] ].

(** [MARKET_NAMES.some(market =>
    line.toLowerCase().includes(market.toLowerCase()))]; one of the names
    holds a letter that is not ASCII, so the folding of [toLowerCase] covers
    Latin-1 here. *)
Definition isMarketName (line : string) : bool :=
  existsb (fun market =>
             JS.includes (JS.toLowerCaseLatin1 line) (JS.toLowerCaseLatin1 market))
          MARKET_NAMES.

(** Body of the [while] loop for one match: the entry pushed, if any. *)
Definition ncr_entry (region date currentMarket : string) (mr : MatchResult)
  : list PriceRangeRecord :=
  if 3 <=? match_length mr then
    match JS.parseFloat_opt (group mr 1), JS.parseFloat_opt (group mr 2) with
    | Some minP, Some maxP =>
        if (JS.Qltb 0 minP && JS.Qltb 0 maxP && JS.Qleb minP maxP)%bool then
          let commodity :=
            match currentMarket with
            | EmptyString => "Rice"
            | _ => "Rice at " ++ currentMarket
            end in
          [ {| commodity := commodity;
               unit_ := "per kg";
               minPrice := minP;
               maxPrice := maxP;
               averagePrice := JS.div (JS.add minP maxP) 2;
               source := SOURCE;
               region := region;
               date := date;
               category := "rice";
               hasRange := true;
               filename := None;
               market := Some currentMarket;
               category_header := None |} ]
        else []
    | _, _ => []
    end
  else [].

(** Entries pushed for a line that is not a market name: every pattern in
    turn, every match of the pattern in turn. *)
Definition ncr_line_entries (region date currentMarket line : string)
  : list PriceRangeRecord :=
  flat_map (fun pattern =>
              flat_map (ncr_entry region date currentMarket) (exec_all pattern line))
           ncr_pricePatterns.

(** One round of the [for] loop over the lines; the state is
    [(currentMarket, priceRanges)]. *)
Definition ncr_step (region date : string)
           (st : string * list PriceRangeRecord) (raw : string)
  : string * list PriceRangeRecord :=
  let '(currentMarket, acc) := st in
  let line := JS.trim raw in
  if skipped line then st
  else if isMarketName line then (line, acc)
  else (currentMarket,
        (acc ++ ncr_line_entries region date currentMarket line)%list).

Definition parseNCRFormat (lines : list string) (region date : string) : Parsed :=
  {| results := [];
     priceRanges := snd (fold_left (ncr_step region date) lines (EmptyString, [])) |}.

(** ** RX format *)

(** [n\/an\/an\/a] *)
Definition na3 : regex := lit "n/an/an/a".

(** [(\w+\([^)]+\))?] *)
Definition size_tag : regex :=
  opt (Grp 1 (cat [plus word; Lit "("; plus (Class true [CChar ")"]); Lit ")"])).

Definition rx_pricePatterns : list RegExp :=
  map (fun r => mkRegExp r false true)
  [ (* /(\w+\s+tag)?(num)(num)(num)(num)(num)(num)/g *)
    cat [opt (Grp 1 (cat [plus word; plus space; lit "tag"]));
         Grp 2 num; Grp 3 num; Grp 4 num; Grp 5 num; Grp 6 num; Grp 7 num];
    (* /(\w+\([^)]+\))?n\/an\/an\/a(num)(num)(num)/g *)
    cat [size_tag; na3; Grp 2 num; Grp 3 num; Grp 4 num];
    (* /(\w+\([^)]+\))?(num)(num)(num)n\/an\/an\/a/g *)
    cat [size_tag; Grp 2 num; Grp 3 num; Grp 4 num; na3];
    (* /(num)(num)(num)(num)(num)(num)/g *)
    cat [Grp 1 num; Grp 2 num; Grp 3 num; Grp 4 num; Grp 5 num; Grp 6 num] ].

Definition isCategoryHeader (line : string) : bool :=
  existsb (JS.includes line)
          ["IMPORTED COMMERCIAL RICE"; "LOCAL COMMERCIAL RICE"; "FISH"; "MEAT";
           "VEGETABLES"; "FRUITS"].

Definition isCommodityType (line : string) : bool :=
  existsb (JS.includes line)
          ["Special"; "Premium"; "Well milled"; "Regular milled"; "Bangus";
           "Tilapia"; "Galunggong"].

(** [match.slice(1).filter(p => p && !isNaN(parseFloat(p))).map(p => parseFloat(p))] *)
Fixpoint rx_prices (gs : list (option string)) : list Q :=
  match gs with
  | [] => []
  | p :: rest =>
      if JS.truthy p then
        match JS.parseFloat_opt p with
        | Some q => q :: rx_prices rest
        | None => rx_prices rest
        end
      else rx_prices rest
  end.

(** [prices.reduce((a, b) => a + b, 0) / prices.length] *)
Definition mean (prices : list Q) : Q :=
  JS.div (JS.list_sum prices) (inject_Z (Z.of_nat (List.length prices))).

Definition rx_entry (region date currentCategory currentCommodity : string)
           (mr : MatchResult) : list PriceRangeRecord :=
  if 4 <=? match_length mr then
    match rx_prices (tl (groups mr)) with
    | p1 :: (_ :: _) as more =>
        let prices := p1 :: more in
        let minP := JS.list_min p1 more in
        let maxP := JS.list_max p1 more in
        let avgPrice := mean prices in
        if (JS.Qltb 0 minP && JS.Qltb 0 maxP && JS.Qleb minP maxP)%bool then
          let commodity :=
            match currentCommodity with
            | EmptyString => "Rice"
            | _ => currentCommodity
            end in
          [ {| commodity := commodity;
               unit_ := "per kg";
               minPrice := minP;
               maxPrice := maxP;
               averagePrice := avgPrice;
               source := SOURCE;
               region := region;
               date := date;
               category := normalizeCommodityType commodity;
               hasRange := true;
               filename := None;
               market := None;
               category_header := Some currentCategory |} ]
        else []
    | _ => []
    end
  else [].

Definition rx_line_entries (region date currentCategory currentCommodity line : string)
  : list PriceRangeRecord :=
  flat_map (fun pattern =>
              flat_map (rx_entry region date currentCategory currentCommodity)
                       (exec_all pattern line))
           rx_pricePatterns.

Record RXState : Type := mkRX {
  currentCategory : string;
  currentCommodity : string;
  rx_ranges : list PriceRangeRecord
}.

Definition rx_step (region date : string) (st : RXState) (raw : string) : RXState :=
  let line := JS.trim raw in
  if skipped line then st
  else if isCategoryHeader line then
    mkRX line (currentCommodity st) (rx_ranges st)
  else if isCommodityType line then
    mkRX (currentCategory st) line (rx_ranges st)
  else
    mkRX (currentCategory st) (currentCommodity st)
         (rx_ranges st ++
          rx_line_entries region date (currentCategory st) (currentCommodity st)
                          line)%list.

Definition parseRXFormat (lines : list string) (region date : string) : Parsed :=
  {| results := [];
     priceRanges :=
       rx_ranges (fold_left (rx_step region date) lines
                            (mkRX EmptyString EmptyString [])) |}.
(** ** Generic format *)

(** [[a-zA-Z\s]+] *)
Definition name_chars : regex :=
  plus (Class false [CRange "a" "z"; CRange "A" "Z"; CSpace]).

Definition PRICE_PATTERNS : list RegExp :=
  map (fun r => mkRegExp r true false)
  [ (* /^([a-zA-Z\s]+)\s+(num)/i                      "Rice 45.50" *)
    cat [Bol; Grp 1 name_chars; plus space; Grp 2 num];
    (* /^([a-zA-Z\s]+)\s+(?:per\s+)?(kg|g|liter|l|piece|pc|pcs)\s+(num)/i *)
    cat [Bol; Grp 1 name_chars; plus space; opt (cat [lit "per"; plus space]);
         Grp 2 (alt [lit "kg"; lit "g"; lit "liter"; lit "l"; lit "piece";
                     lit "pc"; lit "pcs"]);
         plus space; Grp 3 num];
    (* /^(num)\s+([a-zA-Z\s]+)/i                      "45.50 Rice" *)
    cat [Bol; Grp 1 num; plus space; Grp 2 name_chars];
    (* /^([a-zA-Z\s]+)\s+(num)\s*-\s*(num)/i          "Rice 45.50-55.75" *)
    cat [Bol; Grp 1 name_chars; plus space; Grp 2 num; dash; Grp 3 num];
    (* /^([a-zA-Z\s]+)\s+(num)\s+(num)/i              "Rice 45.50 55.75" *)
    cat [Bol; Grp 1 name_chars; plus space; Grp 2 num; plus space; Grp 3 num] ].

(** The loop [for (j ...) { match = line.match(P[j]); if (match) { patternIndex
    = j; break; } }]: index of the first pattern that matches, and its match. *)
Fixpoint first_match (patterns : list RegExp) (j : nat) (line : string)
  : option (nat * MatchResult) :=
  match patterns with
  | [] => None
  | pattern :: rest =>
      match match_ line pattern with
      | Some mr => Some (j, mr)
      | None => first_match rest (S j) line
      end
  end.

(** The variables assigned by the [switch]: [commodity], [price], [unit],
    [minPrice], [maxPrice] ([None] is [undefined]). *)
Record Fields : Type := mkFields {
  f_commodity : option string;
  f_price : option string;
  f_unit : string;
  f_minPrice : option string;
  f_maxPrice : option string
}.

Definition generic_fields (patternIndex : nat) (mr : MatchResult) : Fields :=
  match patternIndex with
  | 0 => mkFields (group mr 1) (group mr 2) "per kg" None None
  | 1 => mkFields (group mr 1) (group mr 3) (show (group mr 2)) None None
  | 2 => mkFields (group mr 2) (group mr 1) "per kg" None None
  | 3 => mkFields (group mr 1) None "per kg" (group mr 2) (group mr 3)
  | 4 => mkFields (group mr 1) None "per kg" (group mr 2) (group mr 3)
  | _ => mkFields None None "per kg" None None
  end.

Definition looks_like_header (commodity : string) : bool :=
  ((String.length commodity <? 2) ||
   existsb (JS.includes (JS.toLowerCase commodity))
           ["page"; "monitoring"; "price"; "date"; "region"; "province"])%bool.

(** [if (minPrice && maxPrice) { ... }] *)
Definition generic_range (region date commodity : string) (f : Fields)
  : list PriceRangeRecord :=
  if (JS.truthy (f_minPrice f) && JS.truthy (f_maxPrice f))%bool then
    match JS.parseFloat_opt (f_minPrice f), JS.parseFloat_opt (f_maxPrice f) with
    | Some mn, Some mx =>
        if (JS.Qltb 0 mn && JS.Qltb 0 mx && JS.Qleb mn mx)%bool then
          [ {| commodity := commodity;
               unit_ := f_unit f;
               minPrice := mn;
               maxPrice := mx;
               averagePrice := JS.div (JS.add mn mx) 2;
               source := SOURCE;
               region := region;
               date := date;
               category := normalizeCommodityType commodity;
               hasRange := true;
               filename := None;
               market := None;
               category_header := None |} ]
        else []
    | _, _ => []
    end
  else [].

(** [if (price) { ... }] *)
Definition generic_single (region date commodity : string) (f : Fields)
  : list PriceRecord :=
  if JS.truthy (f_price f) then
    match JS.parseFloat_opt (f_price f) with
    | Some singlePrice =>
        if (JS.Qltb 0 singlePrice && JS.Qltb singlePrice 10000)%bool then
          [ {| p_commodity := commodity;
               p_unit := f_unit f;
               price := singlePrice;
               p_source := SOURCE;
               p_region := region;
               p_date := date;
               p_category := normalizeCommodityType commodity;
               p_hasRange := false;
               p_filename := None |} ]
        else []
    | None => []
    end
  else [].

(** What one line adds to [results] and to [priceRanges] *)
Definition generic_line (region date raw : string)
  : list PriceRecord * list PriceRangeRecord :=
  let line := JS.trim raw in
  if skipped line then ([], [])
  else
    match first_match PRICE_PATTERNS 0 line with
    | None => ([], [])
    | Some (patternIndex, mr) =>
        let f := generic_fields patternIndex mr in
        let commodity :=
          if JS.truthy (f_commodity f)
          then JS.replace_ws_runs (JS.trim (show (f_commodity f)))
          else EmptyString in
        if looks_like_header commodity then ([], [])
        else (generic_single region date commodity f,
              generic_range region date commodity f)
    end.

Definition generic_step (region date : string) (acc : Parsed) (raw : string)
  : Parsed :=
  let '(rs, rgs) := generic_line region date raw in
  {| results := (results acc ++ rs)%list;
     priceRanges := (priceRanges acc ++ rgs)%list |}.

Definition parseGenericFormat (lines : list string) (region date : string)
  : Parsed :=
  fold_left (generic_step region date) lines (mkParsed [] []).

(** ** Choice of the format, one file, the batch *)

Definition extractPricesFromText (text region date : string) : Parsed :=
  let lines := JS.split JS.newline text in
  if String.eqb region "NCR" then parseNCRFormat lines region date
  else if String.eqb region "RX" then parseRXFormat lines region date
  else parseGenericFormat lines region date.

(** [path.basename(p)]: what follows the last [/] *)
Fixpoint basename (p : string) : string :=
  match p with
  | EmptyString => EmptyString
  | String c p' =>
      if JS.includes p' "/" then basename p'
      else if Ascii.eqb c "/" then p' else p
  end.

(** An element of the list built by [getAllPDFs] *)
Record PdfFile : Type := mkPdf {
  path : string;
  pdf_filename : string;
  pdf_region : string
}.

(** What [parseAllDAPDFs] returns, together with the lines it sends to
    [console.error]. *)
Record Batch : Type := mkBatch {
  allResults : list PriceRecord;
  allPriceRanges : list PriceRangeRecord;
  errors : list string
}.

Definition set_price_filename (f : string) (r : PriceRecord) : PriceRecord :=
  {| p_commodity := p_commodity r; p_unit := p_unit r; price := price r;
     p_source := p_source r; p_region := p_region r; p_date := p_date r;
     p_category := p_category r; p_hasRange := p_hasRange r;
     p_filename := Some f |}.

Definition set_range_filename (f : string) (r : PriceRangeRecord)
  : PriceRangeRecord :=
  {| commodity := commodity r; unit_ := unit_ r; minPrice := minPrice r;
     maxPrice := maxPrice r; averagePrice := averagePrice r;
     source := source r; region := region r; date := date r;
     category := category r; hasRange := hasRange r; filename := Some f;
     market := market r; category_header := category_header r |}.

Section Files.
(** [fs.readFileSync] and the PDF decoder [pdf(...)]: each returns its
    value or raises with a message. *)
Variable readFileSync : string -> JS.result string.
Variable pdf : string -> JS.result string.

Definition parseDAPDF (pdfPath region : string) : JS.result Parsed :=
  match readFileSync pdfPath with
  | JS.Throw msg => JS.Throw ("Could not read PDF file: " ++ msg)
  | JS.Ok dataBuffer =>
      match pdf dataBuffer with
      | JS.Throw msg => JS.Throw ("Could not parse PDF: " ++ msg)
      | JS.Ok text =>
          let filename := basename pdfPath in
          let date := extractDateFromFilename filename in
          JS.Ok (extractPricesFromText text region date)
      end
  end.

(** One round of [for (const pdf of pdfs) { try { ... } catch (err) { ... } }];
    the line logged is [`❌ Error processing ${pdf.filename}: ${err.message}`],
    the mark being its three UTF-8 bytes. *)
Definition batch_step (acc : Batch) (f : PdfFile) : Batch :=
  match parseDAPDF (path f) (pdf_region f) with
  | JS.Ok parsed =>
      {| allResults :=
           (allResults acc ++
            map (set_price_filename (pdf_filename f)) (results parsed))%list;
         allPriceRanges :=
           (allPriceRanges acc ++
            map (set_range_filename (pdf_filename f)) (priceRanges parsed))%list;
         errors := errors acc |}
  | JS.Throw msg =>
      {| allResults := allResults acc;
         allPriceRanges := allPriceRanges acc;
         errors :=
           (errors acc ++
            [("❌ Error processing " ++ pdf_filename f ++ ": " ++ msg)%string])%list |}
  end.

(** [parseAllDAPDFs], given the list [getAllPDFs()] found on disk *)
Definition parseAllDAPDFs (pdfs : list PdfFile) : Batch :=
  fold_left batch_step pdfs (mkBatch [] [] []).
End Files.

(** ** The bulletins found on disk *)

Definition REGIONS : list (string * string) :=
  [ ("ncr", "NCR");
    ("rx", "RX");
    ("region-i", "Region I");
    ("region-ii", "Region II");
    ("region-iii", "Region III");
    ("region-iv-a", "Region IV-A");
    ("region-iv-b", "Region IV-B");
    ("region-v", "Region V");
    ("region-vi", "Region VI");
    ("region-vii", "Region VII");
    ("region-viii", "Region VIII");
    ("region-ix", "Region IX");
    ("region-x", "Region X");
    ("region-xi", "Region XI");
    ("region-xii", "Region XII");
    ("car", "CAR");
    ("caraga", "CARAGA");
    ("barmm", "BARMM") ].

(** [REGIONS[regionDir.toLowerCase()] || regionDir.toUpperCase()] *)
Definition regionName (regionDir : string) : JS.value :=
  JS.lookup_or REGIONS (JS.toLowerCase regionDir) (JS.toUpperCase regionDir).

(** An entry of [bantaypresyo], with what [readdirSync] lists in it; reading
    the directories is taken to succeed. *)
Record Dirent : Type := mkDirent {
  name : string;
  isDirectory : bool;
  files : list string
}.

(** An element of the list built by [getAllPDFs], as it is built *)
Record FoundPdf : Type := mkFound {
  found_path : string;
  found_filename : string;
  found_region : JS.value;
  found_regionDir : string
}.

Section Listing.
(** [path.join], and the path of [bantaypresyo] *)
Variable path_join : string -> string -> string.
Variable bantayPresyoPath : string.

Definition region_pdfs (d : Dirent) : list FoundPdf :=
  map (fun f => {| found_path := path_join (path_join bantayPresyoPath (name d)) f;
                   found_filename := f;
                   found_region := regionName (name d);
                   found_regionDir := name d |})
      (filter (fun f => JS.endsWith (JS.toLowerCase f) ".pdf") (files d)).

(** [getAllPDFs()], given whether [bantaypresyo] exists and what it lists *)
Definition getAllPDFs (existsSync : bool) (dirents : list Dirent) : list FoundPdf :=
  if negb existsSync then []
  else flat_map region_pdfs (filter isDirectory dirents).
End Listing.

End DA.

(* ================================================================== *)
(** * scrapers/pdf/doe_parser.js *)
(* ================================================================== *)

Module DOE.

Definition SOURCE : string := "DOE".
Definition DATE : string := "2025-06-17".

Definition datePatterns : list RegExp :=
  map (fun r => mkRegExp r false false)
  [ (* /(\d{2})(\d{2})(\d{4})/            MMDDYYYY *)
    cat [Grp 1 (times 2 digit); Grp 2 (times 2 digit); Grp 3 (times 4 digit)];
    (* /(\d{4})-(\d{2})-(\d{2})/          YYYY-MM-DD *)
    cat [Grp 1 (times 4 digit); Lit "-"; Grp 2 (times 2 digit); Lit "-";
         Grp 3 (times 2 digit)];
    (* /(\d{2})-(\d{2})-(\d{4})/          MM-DD-YYYY *)
    cat [Grp 1 (times 2 digit); Lit "-"; Grp 2 (times 2 digit); Lit "-";
         Grp 3 (times 4 digit)];
    (* /(\d{1,2})\/(\d{1,2})\/(\d{4})/    M/D/YYYY *)
    cat [Grp 1 (between 1 2 digit); Lit "/"; Grp 2 (between 1 2 digit); Lit "/";
         Grp 3 (times 4 digit)];
    (* /(\d{4})(\d{2})(\d{2})/            YYYYMMDD *)
    cat [Grp 1 (times 4 digit); Grp 2 (times 2 digit); Grp 3 (times 2 digit)] ].

Definition date_of_match (mr : MatchResult) : string :=
  let m1 := DA.show (group mr 1) in
  if String.length m1 =? 4 then
    m1 ++ "-" ++ DA.show (group mr 2) ++ "-" ++ DA.show (group mr 3)
  else
    DA.show (group mr 3) ++ "-" ++ JS.padStart0 2 m1 ++ "-"
    ++ JS.padStart0 2 (DA.show (group mr 2)).

Fixpoint date_loop (patterns : list RegExp) (filename : string) : string :=
  match patterns with
  | [] => DATE
  | pattern :: rest =>
      match match_ filename pattern with
      | Some mr => date_of_match mr
      | None => date_loop rest filename
      end
  end.

Definition extractDateFromFilename (filename : string) : string :=
  date_loop datePatterns filename.

(** Entry of [results]; [region] is the value the caller passed, a string
    or, in the entry point, possibly not (see [regionName]). *)
Record PriceRecord : Type := mkPrice {
  commodity : string;
  unit_ : string;
  price : Q;
  source : string;
  region : JS.value;
  date : string;
  fuelType : string;
  brand : option string;
  filename : option string
}.

(** [RON\s+\d+|DIESEL(?:\s+PLUS)?|KEROSENE] *)
Definition fuel_names : list regex :=
  [ cat [lit "RON"; plus space; plus digit];
    cat [lit "DIESEL"; opt (cat [plus space; lit "PLUS"])];
    lit "KEROSENE" ].

(** [/^(RON\s+\d+|DIESEL(?:\s+PLUS)?|KEROSENE)\s*$/i] *)
Definition fuelTypeHeader : RegExp :=
  mkRegExp (cat [Bol; Grp 1 (alt fuel_names); star space; Eol]) true false.

(** [/\d+\.\d{2}/g] *)
Definition priceToken : RegExp :=
  mkRegExp (cat [plus digit; Lit "."; times 2 digit]) false true.

(** [/^(RON\s+\d+|DIESEL(?:\s+PLUS)?|KEROSENE|PROVINCE|CITY|MUNICIPALITY|PRODUCT)\s*$/i] *)
Definition sectionEnd : RegExp :=
  mkRegExp
    (cat [Bol;
          Grp 1 (alt (fuel_names ++
                      [lit "PROVINCE"; lit "CITY"; lit "MUNICIPALITY";
                       lit "PRODUCT"])%list);
          star space; Eol]) true false.

(** The test that skips page numbers and other text *)
Definition not_price_line (line : string) : bool :=
  existsb (JS.includes (JS.toLowerCase line)) ["page"; "none"; "monitoring"].

Definition fuelCategory (currentFuelType : string) : string :=
  if JS.includes currentFuelType "DIESEL" then "diesel"
  else if JS.includes currentFuelType "KEROSENE" then "kerosene"
  else "gasoline".

(** Body of [for (const priceStr of priceMatches)]: the entry pushed, if any *)
Definition price_entry (region : JS.value)
           (date currentFuelType line priceStr : string)
  : list PriceRecord :=
  match JS.parseFloat priceStr with
  | None => []
  | Some price =>
      if (JS.Qleb price 0 || JS.Qltb 200 price)%bool then []
      else if not_price_line line then []
      else
        [ {| commodity := currentFuelType;
             unit_ := "per liter";
             price := price;
             source := SOURCE;
             region := region;
             date := date;
             fuelType := fuelCategory currentFuelType;
             brand := None;
             filename := None |} ]
  end.

(** Entries pushed for a line read while a fuel type is current *)
Definition line_entries (region : JS.value) (date currentFuelType line : string)
  : list PriceRecord :=
  flat_map (price_entry region date currentFuelType line)
           (match_all line priceToken).

(** One round of the loop over the lines; the state is
    [(currentFuelType, results)], with [None] for [null]. *)
Definition step (region : JS.value) (date : string)
           (st : option string * list PriceRecord) (raw : string)
  : option string * list PriceRecord :=
  let '(currentFuelType, acc) := st in
  let line := JS.trim raw in
  if String.length line <? 2 then st
  else
    match match_ line fuelTypeHeader with
    | Some mr => (Some (JS.toUpperCase (DA.show (group mr 1))), acc)
    | None =>
        if JS.truthy currentFuelType then
          let fuel := DA.show currentFuelType in
          let acc' := (acc ++ line_entries region date fuel line)%list in
          match match_ line sectionEnd with
          | Some _ => (None, acc')
          | None => (currentFuelType, acc')
          end
        else st
    end.

Definition parseLines (lines : list string) (region : JS.value) (date : string)
  : list PriceRecord :=
  snd (fold_left (step region date) lines (None, [])).

Definition extractPricesFromText (text : string) (region : JS.value) (date : string)
  : list PriceRecord :=
  parseLines (JS.split JS.newline text) region date.

Record PdfFile : Type := mkPdf {
  path : string;
  pdf_filename : string;
  pdf_region : string
}.

Definition set_filename (f : string) (r : PriceRecord) : PriceRecord :=
  {| commodity := commodity r; unit_ := unit_ r; price := price r;
     source := source r; region := region r; date := date r;
     fuelType := fuelType r; brand := brand r; filename := Some f |}.

(** What [parseAllDOEPDFs] returns, together with the lines it sends to
    [console.error]. *)
Record Batch : Type := mkBatch {
  allResults : list PriceRecord;
  errors : list string
}.

Section Files.
Variable readFileSync : string -> JS.result string.
Variable pdf : string -> JS.result string.

Definition parseDOEPDF (pdfPath : string) (region : JS.value)
  : JS.result (list PriceRecord) :=
  match readFileSync pdfPath with
  | JS.Throw msg => JS.Throw ("Could not read PDF file: " ++ msg)
  | JS.Ok dataBuffer =>
      match pdf dataBuffer with
      | JS.Throw msg => JS.Throw ("Could not parse PDF: " ++ msg)
      | JS.Ok text =>
          let filename := DA.basename pdfPath in
          let date := extractDateFromFilename filename in
          JS.Ok (extractPricesFromText text region date)
      end
  end.

Definition batch_step (acc : Batch) (f : PdfFile) : Batch :=
  match parseDOEPDF (path f) (pdf_region f) with
  | JS.Ok results =>
      {| allResults :=
           (allResults acc ++ map (set_filename (pdf_filename f)) results)%list;
         errors := errors acc |}
  | JS.Throw msg =>
      {| allResults := allResults acc;
         errors :=
           (errors acc ++
            [("❌ Error processing " ++ pdf_filename f ++ ": " ++ msg)%string])%list |}
  end.

Definition parseAllDOEPDFs (pdfs : list PdfFile) : Batch :=
  fold_left batch_step pdfs (mkBatch [] []).
End Files.

(** ** The bulletins found on disk *)

Definition REGIONS : list (string * string) :=
  [ ("luzon", "Luzon"); ("visayas", "Visayas"); ("mindanao", "Mindanao") ].

Section Listing.
(** [path.join], the directory of the bulletins and, for a path, what
    [fs.readdirSync] lists there, [None] when [fs.existsSync] is false;
    reading an existing path is taken to succeed. *)
Variable path_join : string -> string -> string.
Variable DOE_DIR : string.
Variable readdir : string -> option (list string).

(** One round of [for (const [regionKey, regionName] of Object.entries(REGIONS))] *)
Definition region_pdfs (entry : string * string) : list PdfFile :=
  let regionPath := path_join DOE_DIR (fst entry) in
  match readdir regionPath with
  | None => []
  | Some files =>
      map (fun f => {| path := path_join regionPath f;
                       pdf_filename := f;
                       pdf_region := snd entry |})
          (filter (fun f => JS.endsWith (JS.toLowerCase f) ".pdf") files)
  end.

Definition getAllPDFs : list PdfFile := flat_map region_pdfs REGIONS.
End Listing.

(** ** The entry point *)

(** [byRegion]: the groups, in the order in which their keys were first
    assigned *)
Definition Groups : Type := list (string * list PriceRecord).

(** [byRegion[key].push(r)], after [byRegion[key] = []] if the key is new *)
Fixpoint push_group (key : string) (r : PriceRecord) (g : Groups) : Groups :=
  match g with
  | [] => [(key, [r])]
  | (k, rs) :: rest =>
      if String.eqb k key then (k, (rs ++ [r])%list) :: rest
      else (k, rs) :: push_group key r rest
  end.

(** The property key [result.region] stands for in [byRegion[result.region]] *)
Definition region_key (r : PriceRecord) : string := JS.to_key (region r).

(** [results.forEach(result => { if (!byRegion[result.region])
    byRegion[result.region] = []; byRegion[result.region].push(result); })].
    For a key that is a name every object inherits, [byRegion[key]] is
    truthy from the start and has no [push]: a [TypeError] is raised. *)
Fixpoint group_by_region (results : list PriceRecord) (g : Groups)
  : JS.result Groups :=
  match results with
  | [] => JS.Ok g
  | r :: rest =>
      if existsb (String.eqb (region_key r)) JS.object_prototype_keys
      then JS.Throw "byRegion[result.region].push is not a function"
      else group_by_region rest (push_group (region_key r) r g)
  end.

(** What a run leaves behind: the entries printed, the files written (name
    in the output directory and content) and the exit code (if the process
    was made to exit); the other lines printed are dropped. *)
Record Outcome : Type := mkOutcome {
  shown : option (list PriceRecord);
  written : list (string * list PriceRecord);
  exitCode : option nat
}.

(** The writes that succeed; a failed write only prints a warning. *)
Definition successful (writeFileSync : string -> list PriceRecord -> JS.result unit)
           (ws : list (string * list PriceRecord)) : list (string * list PriceRecord) :=
  filter (fun w => match writeFileSync (fst w) (snd w) with
                   | JS.Ok _ => true
                   | JS.Throw _ => false
                   end) ws.

Definition region_file (g : string * list PriceRecord) : string * list PriceRecord :=
  ("latest_prices_doe_" ++ JS.toLowerCase (fst g) ++ ".json", snd g).

(** The [try] block of the entry point, from the result of the parse (of
    one file or of all). *)
Definition main (parsed : JS.result (list PriceRecord))
           (writeFileSync : string -> list PriceRecord -> JS.result unit) : Outcome :=
  match parsed with
  | JS.Throw msg => mkOutcome None [] (Some 1)
  | JS.Ok results =>
      if 0 <? List.length results then
        match group_by_region results [] with
        | JS.Throw msg => mkOutcome None [] (Some 1)
        | JS.Ok byRegion =>
            mkOutcome (Some (firstn 10 results))
                      (successful writeFileSync
                         (("latest_prices_doe.json", results) ::
                          map region_file byRegion))
                      None
        end
      else mkOutcome None [] None
  end.

(** [args.find(arg => !arg.startsWith('--'))] *)
Definition first_plain_arg (args : list string) : option string :=
  find (fun arg => negb (JS.startsWith "--" arg)) args.

(** [REGIONS[region] || region]: for the name of a member every object
    inherits, this is the member, not a string. *)
Definition regionName (region : string) : JS.value :=
  JS.lookup_or REGIONS region region.

Section EntryPoint.
(** [p => path.basename(path.dirname(p))], the bulletins [getAllPDFs()]
    finds, the file system and the decoder *)
Variable region_dir : string -> string.
Variable found : list PdfFile.
Variable readFileSync : string -> JS.result string.
Variable pdf : string -> JS.result string.
Variable writeFileSync : string -> list PriceRecord -> JS.result unit.

(** [results], for the arguments [process.argv.slice(2)]: the parse of the
    file given, or of all the bulletins found *)
Definition results_of (args : list string) : JS.result (list PriceRecord) :=
  if JS.truthy (first_plain_arg args) then
    let specificFile := DA.show (first_plain_arg args) in
    parseDOEPDF readFileSync pdf specificFile (regionName (region_dir specificFile))
  else JS.Ok (allResults (parseAllDOEPDFs readFileSync pdf found)).

Definition script (args : list string) : Outcome :=
  main (results_of args) writeFileSync.
End EntryPoint.

End DOE.

(* ================================================================== *)
(** * scrapers/pdf/dti_parser.js *)
(* ================================================================== *)

Module DTI.

Definition DATE : string := "2025-02-01".
Definition SOURCE : string := "DTI".
Definition REGION : string := "National".

(** [\d+(?:g|ml|pcs|L|kg)] *)
Definition size : regex :=
  Cat (plus digit) (alt [lit "g"; lit "ml"; lit "pcs"; lit "L"; lit "kg"]).

(** [\d+\.\d{2}] *)
Definition price2 : regex := cat [plus digit; Lit "."; times 2 digit].

Definition LINE_PATTERNS : list RegExp :=
  map (fun r => mkRegExp r true false)
  [ (* /^(.*?)\s+(\d+(?:g|ml|pcs|L|kg))\s+(\d+\.\d{2})$/i *)
    cat [Bol; Grp 1 (lazy_star Any); plus space; Grp 2 size; plus space;
         Grp 3 price2; Eol];
    (* /^(.*?)\s+(\d+\.\d{2})\s+(\d+(?:g|ml|pcs|L|kg))$/i *)
    cat [Bol; Grp 1 (lazy_star Any); plus space; Grp 2 price2; plus space;
         Grp 3 size; Eol];
    (* /^(.*?)\s+(\d+(?:g|ml|pcs|L|kg))\s+(\d+(?:\.\d{1,2})?)$/i *)
    cat [Bol; Grp 1 (lazy_star Any); plus space; Grp 2 size; plus space;
         Grp 3 DA.num; Eol];
    (* /^(.*?)\s+(\d+(?:\.\d{1,2})?)$/i *)
    cat [Bol; Grp 1 (lazy_star Any); plus space; Grp 2 DA.num; Eol] ].

(** Entry of [results]; [price] is whatever [parseFloat] gives. *)
Record PriceRecord : Type := mkPrice {
  commodity : string;
  unit_ : string;
  price : option Q;
  source : string;
  region : string;
  date : string
}.

(** The destructuring of the match: [(commodity, unit, price)] *)
Definition fields (patternIndex : nat) (mr : MatchResult)
  : option string * option string * option string :=
  match patternIndex with
  | 0 => (group mr 1, group mr 2, group mr 3)
  | 1 => (group mr 1, group mr 3, group mr 2)
  | 2 => (group mr 1, group mr 2, group mr 3)
  | 3 => (group mr 1, Some "unit", group mr 2)
  | _ => (None, None, None)
  end.

Definition looks_like_header (commodity : string) : bool :=
  ((String.length commodity <? 2) ||
   existsb (JS.includes (JS.toLowerCase commodity)) ["page"; "srp"; "bulletin"])%bool.

Definition parse_line (raw : string) : list PriceRecord :=
  let trimmed := JS.trim raw in
  if String.length trimmed <? 5 then []
  else
    match DA.first_match LINE_PATTERNS 0 trimmed with
    | None => []
    | Some (patternIndex, mr) =>
        let '(commodity0, unit, price) := fields patternIndex mr in
        let commodity := JS.replace_ws_runs (JS.trim (DA.show commodity0)) in
        if looks_like_header commodity then []
        else
          [ {| commodity := commodity;
               unit_ := if JS.truthy unit then JS.trim (DA.show unit) else "unit";
               price := JS.parseFloat_opt price;
               source := SOURCE;
               region := REGION;
               date := DATE |} ]
    end.

(** The part of [parseDTIPDF] that follows the decoding of the file *)
Definition parseText (text : string) : list PriceRecord :=
  flat_map parse_line (JS.split JS.newline text).

Section Files.
Variable readFileSync : string -> JS.result string.
Variable pdf : string -> JS.result string.

Definition parseDTIPDF (pdfPath : string) : JS.result (list PriceRecord) :=
  match readFileSync pdfPath with
  | JS.Throw msg => JS.Throw ("Could not read PDF file: " ++ msg)
  | JS.Ok dataBuffer =>
      match pdf dataBuffer with
      | JS.Throw msg => JS.Throw ("Could not parse PDF: " ++ msg)
      | JS.Ok text => JS.Ok (parseText text)
      end
  end.
End Files.

(** ** The entry point *)

(** What the entry point prints *)
Inductive Console : Type :=
| Found (n : nat)                       (* "Found n price entries" *)
| NoEntries                             (* the two lines of guidance *)
| First10 (shown : list PriceRecord)    (* "First 10 entries:" and the JSON *)
| Saved                                 (* "Saved first 10 entries to ..." *)
| WriteWarning (message : string)       (* "Could not write output file:" *)
| FatalError (message : string)         (* "Error:" *)
| NoPdf                                 (* "No PDF file provided and no PDF found in" *)
| UsingLatest (pdfPath : string).       (* "No PDF argument provided. Using latest" *)

(** What a run leaves behind: the console, the content written to
    [output/latest_prices_dti.json] (if any) and the exit code (if the process
    was made to exit). *)
Record Outcome : Type := mkOutcome {
  console : list Console;
  written : option (list PriceRecord);
  exitCode : option nat
}.

(** The [try] block of the entry point, from the result of [parseDTIPDF];
    [writeFileSync] says whether writing the given content succeeds. *)
Definition main (parsed : JS.result (list PriceRecord))
           (writeFileSync : list PriceRecord -> JS.result unit) : Outcome :=
  match parsed with
  | JS.Throw msg => mkOutcome [FatalError msg] None (Some 1)
  | JS.Ok entries =>
      if List.length entries =? 0 then
        mkOutcome [Found (List.length entries); NoEntries] None None
      else
        let first10 := firstn 10 entries in
        match writeFileSync first10 with
        | JS.Ok _ =>
            mkOutcome [Found (List.length entries); First10 first10; Saved]
                      (Some first10) None
        | JS.Throw msg =>
            mkOutcome [Found (List.length entries); First10 first10;
                       WriteWarning msg]
                      None None
        end
  end.

(** ** The latest bulletin of a directory *)

(** A directory entry with the modification time
    [statSync(...).mtime.getTime()]; reading the directory and its entries is
    taken to succeed. *)
Record FileStat : Type := mkStat {
  file : string;
  time : Z
}.

(** [files.sort((a, b) => b.time - a.time)]: the sort is stable, so an
    element goes before the first element that is not strictly newer. *)
Fixpoint insert_by_time (x : FileStat) (sorted : list FileStat) : list FileStat :=
  match sorted with
  | [] => [x]
  | y :: rest =>
      if Z.ltb (time x) (time y) then y :: insert_by_time x rest
      else x :: y :: rest
  end.

Definition sort_newest_first (files : list FileStat) : list FileStat :=
  fold_right insert_by_time [] files.

(** [f.toLowerCase().endsWith(".pdf")] *)
Definition is_pdf (f : FileStat) : bool :=
  JS.endsWith (JS.toLowerCase (file f)) ".pdf".

Section Latest.
(** [path.join] *)
Variable path_join : string -> string -> string.

(** [getLatestPDF(dir)], given whether [dir] exists and what it lists *)
Definition getLatestPDF (dir : string) (existsSync : bool)
           (listing : list FileStat) : option string :=
  if negb existsSync then None
  else
    match sort_newest_first (filter is_pdf listing) with
    | [] => None
    | newest :: _ => Some (path_join dir (file newest))
    end.
End Latest.

(** ** The whole entry point *)

(** [args.find(arg => !arg.startsWith('--'))] *)
Definition first_plain_arg (args : list string) : option string :=
  find (fun arg => negb (JS.startsWith "--" arg)) args.

Section EntryPoint.
(** [path.join], the default directory, whether it exists and what it lists,
    the file system and the decoder *)
Variable path_join : string -> string -> string.
Variable DEFAULT_DIR : string.
Variable existsSync : bool.
Variable listing : list FileStat.
Variable readFileSync : string -> JS.result string.
Variable pdf : string -> JS.result string.
Variable writeFileSync : list PriceRecord -> JS.result unit.

(** The path the entry point parses, for the arguments
    [process.argv.slice(2)]: the first argument that does not start with
    [--], or else the latest bulletin of the default directory; [None] when
    there is neither. *)
Definition pdfPath (args : list string) : option string :=
  if JS.truthy (first_plain_arg args) then first_plain_arg args
  else
    let latest := getLatestPDF path_join DEFAULT_DIR existsSync listing in
    if JS.truthy latest then latest else None.

(** The entry point: without a path the process exits with code 1 before
    anything is parsed; otherwise the [try] block runs on the parse of the
    path. *)
Definition script (args : list string) : Outcome :=
  match pdfPath args with
  | None => mkOutcome [NoPdf] None (Some 1)
  | Some p =>
      let out := main (parseDTIPDF readFileSync pdf p) writeFileSync in
      if JS.truthy (first_plain_arg args) then out
      else mkOutcome (UsingLatest p :: console out) (written out) (exitCode out)
  end.
End EntryPoint.

End DTI.

(* ================================================================== *)
(** * scrapers/da_scraper.js *)
(* ================================================================== *)

Module DAScraper.

Definition commodityMap : list (string * string) :=
  [ ("rice", "Well-Milled Rice");
    ("onion", "Red Onion");
    ("tomato", "Tomato");
    ("pork", "Pork");
    ("chicken", "Chicken");
    ("diesel", "Diesel");
    ("gasoline", "Gasoline") ].

(** [for (const [key, value] of Object.entries(table)) if
    (lowerText.includes(key)) return value] *)
Fixpoint first_included (lowerText : string) (table : list (string * string))
  : option string :=
  match table with
  | [] => None
  | (key, value) :: rest =>
      if JS.includes lowerText key then Some value
      else first_included lowerText rest
  end.

(** [None] is [null]. *)
Definition extractCommodity (text : string) : option string :=
  first_included (JS.toLowerCase text) commodityMap.

Definition regionMap : list (string * string) :=
  [ ("ncr", "NCR");
    ("metro manila", "NCR");
    ("national capital region", "NCR");
    ("region vii", "Region VII");
    ("region 7", "Region VII");
    ("central visayas", "Region VII");
    ("region iv-a", "Region IV-A");
    ("region 4a", "Region IV-A");
    ("calabarzon", "Region IV-A");
    ("region iii", "Region III");
    ("region 3", "Region III");
    ("central luzon", "Region III") ].

Definition extractRegion (text : string) : string :=
  match first_included (JS.toLowerCase text) regionMap with
  | Some value => value
  | None => "NCR"
  end.

(** The pattern of [containsPrice]: [[₱P]?], [\s*], [[\d,]+], [\.?], [\d*] *)
Definition pricePattern : RegExp :=
  mkRegExp
    (cat [opt (Alt (lit "₱") (Lit "P")); star space;
          plus (Class false [CDigit; CChar ","]); opt (Lit "."); star digit])
    false false.

(** [pattern.test(text)] *)
Definition containsPrice (text : string) : bool :=
  match match_ text pricePattern with
  | Some _ => true
  | None => false
  end.

Definition getCommodityCategory (commodityName : string) : string :=
  let name := JS.toLowerCase commodityName in
  if (JS.includes name "rice" || JS.includes name "corn" || JS.includes name "wheat")%bool
  then "Grains"
  else if (JS.includes name "onion" || JS.includes name "tomato" ||
           JS.includes name "vegetable")%bool
  then "Vegetables"
  else if (JS.includes name "diesel" || JS.includes name "gasoline" ||
           JS.includes name "fuel")%bool
  then "Fuel"
  else if (JS.includes name "pork" || JS.includes name "chicken" ||
           JS.includes name "beef")%bool
  then "Meat"
  else "Other".

(** [trim] takes no argument: [.trim("-")] is [.trim()]. *)
Definition generateSlug (name : string) : string :=
  JS.trim
    (JS.collapse_runs (fun c => Ascii.eqb c "-") "-" false
       (JS.collapse_runs JS.is_space "-" false
          (JS.filter_chars PriceNormalizer.name_char (JS.toLowerCase name)))).

End DAScraper.

(* ================================================================== *)
(** * Predicates and sample inputs used by the statements *)
(* ================================================================== *)

(** Every character of [s] satisfies [p]. *)
Fixpoint all_chars (p : ascii -> bool) (s : string) : bool :=
  match s with
  | EmptyString => true
  | String c s' => (p c && all_chars p s')%bool
  end.

(** The units [extractUnit] can return *)
Definition canonical_units : list string :=
  ["per kg"; "per liter"; "per piece"; "per dozen"; "per sack"; "per bundle";
   "per unit"].

(** The categories [normalizeCommodityType] can return *)
Definition commodity_categories : list string :=
  ["rice"; "vegetables"; "fruits"; "meat"; "dairy"; "grains"; "sugar"; "oil";
   "other"].

(** White space, if any, is the plain space. *)
Definition plain_space_only (c : ascii) : bool :=
  (negb (JS.is_space c) || Ascii.eqb c " ")%bool.

(** The characters of a slug: lower-case letters, digits, underscore,
    hyphen *)
Definition slug_char (c : ascii) : bool :=
  (JS.is_lower c || JS.is_digit c || Ascii.eqb c "_" || Ascii.eqb c "-")%bool.

(** The points a match started on [s] at index [i] can reach: a suffix [s']
    of [s], at the index that counts the characters consumed. *)
Definition reach (s : string) (i : nat) (s' : string) (i' : nat) : Prop :=
  exists w, s = w ++ s' /\ i' = i + String.length w.

(** Two continuations that agree on every point reachable from [(s, i)] *)
Definition agree_from {A : Type} (s : string) (i : nat) (k1 k2 : @cont A) : Prop :=
  forall s' i' c', reach s i s' i' -> k1 s' i' c' = k2 s' i' c'.

(** A matcher of a sub-pattern that only looks at its continuation on
    reachable points *)
Definition local_body {A : Type}
           (body : string -> nat -> captures -> @cont A -> option A) : Prop :=
  forall s i c k1 k2, agree_from s i k1 k2 -> body s i c k1 = body s i c k2.

(** A matcher of a sub-pattern that succeeds only through its continuation,
    called on a reachable point, further on unless the sub-pattern may match
    the empty string ([may_be_empty]). *)
Definition progressing {A : Type}
           (body : string -> nat -> captures -> @cont A -> option A)
           (may_be_empty : bool) : Prop :=
  forall s i c k a,
    body s i c k = Some a ->
    exists s' i' c',
      reach s i s' i' /\ (may_be_empty = false -> i < i') /\ k s' i' c' = Some a.



(** The patterns run by a [while (exec)] loop or by a global [match] *)
Definition looped_patterns : list RegExp :=
  (DA.ncr_pricePatterns ++ DA.rx_pricePatterns ++ [DOE.priceToken])%list.

(** [k2] fails wherever [k1] does, whatever the captures. *)
Definition fails_with {A B : Type} (k1 : @cont A) (k2 : @cont B) : Prop :=
  forall s i c1 c2, k1 s i c1 = None -> k2 s i c2 = None.

Definition bounds_ok (r : DA.PriceRangeRecord) : Prop :=
  (0 < DA.minPrice r)%Q /\ (DA.minPrice r <= DA.maxPrice r)%Q.

(** [averagePrice] is what [(minPrice + maxPrice) / 2] evaluates to. *)
Definition midpoint_ok (r : DA.PriceRangeRecord) : Prop :=
  DA.averagePrice r = JS.div (JS.add (DA.minPrice r) (DA.maxPrice r)) 2.

(** Rationals that are doubles: rounding leaves them as they are. *)
Definition is_double (q : Q) : Prop := (JS.double q == q)%Q.

(** An RX entry comes from one match of one of the four patterns on a line:
    it stores the least, the greatest and the mean of the numbers read from
    the groups of the match, in their order. *)
Definition from_rx_match (lines : list string) (r : DA.PriceRangeRecord) : Prop :=
  exists raw pattern mr p ps,
    In raw lines /\ In pattern DA.rx_pricePatterns /\
    In mr (exec_all pattern (JS.trim raw)) /\
    DA.rx_prices (tl (groups mr)) = p :: ps /\ ps <> [] /\
    DA.minPrice r = JS.list_min p ps /\
    DA.maxPrice r = JS.list_max p ps /\
    DA.averagePrice r = DA.mean (p :: ps).

(** What the RX parser stores: minimum, maximum and mean of two or more
    numbers. *)
Definition mean_ok (r : DA.PriceRangeRecord) : Prop :=
  exists p ps,
    ps <> [] /\
    DA.minPrice r = JS.list_min p ps /\
    DA.maxPrice r = JS.list_max p ps /\
    DA.averagePrice r = DA.mean (p :: ps).

(** The [j]-th shape of the generic parser *)
Definition generic_shape (j : nat) : regex :=
  pattern (nth j DA.PRICE_PATTERNS (mkRegExp Eps true false)).

(** The NCR scenario *)
Definition balintawak_lines : list string :=
  ["Balintawak (Cloverleaf) Market"; "45.00-48.00"].

Definition balintawak_record : DA.PriceRangeRecord :=
  {| DA.commodity := "Rice at Balintawak (Cloverleaf) Market";
     DA.unit_ := "per kg";
     DA.minPrice := 45;
     DA.maxPrice := 48;
     DA.averagePrice := 93 # 2;
     DA.source := "DA";
     DA.region := "NCR";
     DA.date := "2025-06-26";
     DA.category := "rice";
     DA.hasRange := true;
     DA.filename := None;
     DA.market := Some "Balintawak (Cloverleaf) Market";
     DA.category_header := None |}.

(** An RX line of six concatenated prices, not symmetric about their
    midpoint *)
Definition rx_uneven_line : string := "48.0050.0048.0046.0050.0047.00".

(** A range whose bounds add up to a number that is not a double *)
Definition rounded_range_line : string := "45.10-48.20".

(** Two ranges printed without a separator, the example in the comment of the
    second NCR pattern *)
Definition two_ranges_line : string := "45.00-48.007.00-8.00".




(** The entry the fuel parser pushes for a price [q] read under [fuel] *)
Definition fuel_entry (region : JS.value) (date fuel : string) (q : Q)
  : DOE.PriceRecord :=
  {| DOE.commodity := fuel;
     DOE.unit_ := "per liter";
     DOE.price := q;
     DOE.source := DOE.SOURCE;
     DOE.region := region;
     DOE.date := date;
     DOE.fuelType := DOE.fuelCategory fuel;
     DOE.brand := None;
     DOE.filename := None |}.

(** The numbers of a list of tokens that lie in (0, 200] *)
Definition fuel_prices (tokens : list string) : list Q :=
  flat_map (fun w =>
              match JS.parseFloat w with
              | Some q => if (JS.Qltb 0 q && JS.Qleb q 200)%bool then [q] else []
              | None => []
              end) tokens.

(** The DOE scenario *)
Definition ron95_lines : list string := ["RON 95"; "56.49"; "58.49"].

(** A batch of three files *)
Definition da_file (n : string) : DA.PdfFile :=
  DA.mkPdf ("pdf/DA/bantaypresyo/region-iii/" ++ n) n "Region III".

Definition doe_file (n : string) : DOE.PdfFile :=
  DOE.mkPdf ("pdf/DOE/luzon/" ++ n) n "Luzon".

(** A disk on which the second file cannot be decoded *)
Definition sample_read (p : string) : JS.result string := JS.Ok p.

Definition sample_da_pdf (buffer : string) : JS.result string :=
  if JS.includes buffer "one.pdf" then JS.Ok "Rice 45.50"
  else if JS.includes buffer "three.pdf" then JS.Ok "Tomato 60"
  else JS.Throw "Invalid PDF structure".

Definition sample_doe_pdf (buffer : string) : JS.result string :=
  if JS.includes buffer "one.pdf" then JS.Ok ("RON 95" ++ String JS.newline "56.49")
  else if JS.includes buffer "three.pdf" then JS.Ok ("DIESEL" ++ String JS.newline "61.00")
  else JS.Throw "Invalid PDF structure".

(** What one file adds to the aggregates of a batch, and to its log *)
Definition da_file_results (readFileSync pdf : string -> JS.result string)
           (f : DA.PdfFile) : list DA.PriceRecord :=
  match DA.parseDAPDF readFileSync pdf (DA.path f) (DA.pdf_region f) with
  | JS.Ok parsed => map (DA.set_price_filename (DA.pdf_filename f)) (DA.results parsed)
  | JS.Throw _ => []
  end.

Definition da_file_ranges (readFileSync pdf : string -> JS.result string)
           (f : DA.PdfFile) : list DA.PriceRangeRecord :=
  match DA.parseDAPDF readFileSync pdf (DA.path f) (DA.pdf_region f) with
  | JS.Ok parsed =>
      map (DA.set_range_filename (DA.pdf_filename f)) (DA.priceRanges parsed)
  | JS.Throw _ => []
  end.

Definition doe_file_results (readFileSync pdf : string -> JS.result string)
           (f : DOE.PdfFile) : list DOE.PriceRecord :=
  match DOE.parseDOEPDF readFileSync pdf (DOE.path f) (DOE.pdf_region f) with
  | JS.Ok results => map (DOE.set_filename (DOE.pdf_filename f)) results
  | JS.Throw _ => []
  end.

Definition file_error {A : Type} (filename : string) (parsed : JS.result A)
  : list string :=
  match parsed with
  | JS.Ok _ => []
  | JS.Throw msg => ["❌ Error processing " ++ filename ++ ": " ++ msg]
  end.

(** Eleven entries of a DTI bulletin *)
Definition dti_entry (n : string) : DTI.PriceRecord :=
  DTI.mkPrice n "150g" (Some (95 # 4)) DTI.SOURCE DTI.REGION DTI.DATE.

Definition eleven_entries : list DTI.PriceRecord :=
  map dti_entry ["a1"; "a2"; "a3"; "a4"; "a5"; "a6"; "a7"; "a8"; "a9"; "a10"; "a11"].

Definition always_written (content : list DTI.PriceRecord) : JS.result unit :=
  JS.Ok tt.

(** ** What a match holds *)

Fixpoint concat_strings (ws : list string) : string :=
  match ws with
  | [] => EmptyString
  | w :: ws' => w ++ concat_strings ws'
  end.

(** The texts a pattern can match; the anchors are taken as empty texts, so
    this is an upper bound on what the matcher accepts. *)
Fixpoint lang (ci : bool) (r : regex) (w : string) : Prop :=
  match r with
  | Eps | Bol | Eol => w = EmptyString
  | Lit ch => exists x, w = String x EmptyString /\ char_eq ci ch x = true
  | Any => exists x, w = String x EmptyString /\ JS.is_line_terminator x = false
  | Class neg items =>
      exists x, w = String x EmptyString /\ xorb neg (class_matches ci items x) = true
  | Cat r1 r2 => exists w1 w2, w = w1 ++ w2 /\ lang ci r1 w1 /\ lang ci r2 w2
  | Alt r1 r2 => lang ci r1 w \/ lang ci r2 w
  | Grp _ r1 => lang ci r1 w
  | Rep mn mx _ r1 =>
      exists ws, w = concat_strings ws /\ Forall (lang ci r1) ws /\
                 mn <= List.length ws /\
                 match mx with Some b => List.length ws <= b | None => True end
  end.

(** Captures whose texts have the type [T] gives to their group *)
Definition caps_ok (T : nat -> string -> Prop) (c : captures) : Prop :=
  forall n v, nth n c None = Some v -> T n v.

(** No capture is lost from [c] to [c']. *)
Definition keeps (c c' : captures) : Prop :=
  List.length c' = List.length c /\
  forall n, nth n c None <> None -> nth n c' None <> None.

(** The groups every match of the pattern sets *)
Fixpoint sets (r : regex) : list nat :=
  match r with
  | Cat r1 r2 => (sets r1 ++ sets r2)%list
  | Alt r1 r2 => filter (fun n => existsb (Nat.eqb n) (sets r2)) (sets r1)
  | Grp n r1 => n :: sets r1
  | Rep mn _ _ r1 => if 0 <? mn then sets r1 else []
  | _ => []
  end.

(** Every group [n] of the pattern matches texts of type [T n] only. *)
Fixpoint typed (ci : bool) (T : nat -> string -> Prop) (r : regex) : Prop :=
  match r with
  | Cat r1 r2 | Alt r1 r2 => typed ci T r1 /\ typed ci T r2
  | Grp n r1 => (forall w, lang ci r1 w -> T n w) /\ typed ci T r1
  | Rep _ _ _ r1 => typed ci T r1
  | _ => True
  end.

(** A matcher of a sub-pattern [r] that succeeds only through its
    continuation, called after a text of [r], with captures of the right
    types and the groups of [sets r] set *)
Definition sound_body {A : Type} (ci : bool) (T : nat -> string -> Prop) (r : regex)
           (body : string -> nat -> captures -> @cont A -> option A) : Prop :=
  forall s i c k a,
    caps_ok T c ->
    body s i c k = Some a ->
    exists w s' c',
      s = w ++ s' /\ lang ci r w /\ caps_ok T c' /\ keeps c c' /\
      (forall n, In n (sets r) -> n < List.length c -> nth n c' None <> None) /\
      k s' (i + String.length w) c' = Some a.

(** Every group [n] of the pattern, with body [r1], passes [chk n r1]. *)
Fixpoint groups_pass (chk : nat -> regex -> bool) (r : regex) : bool :=
  match r with
  | Cat r1 r2 | Alt r1 r2 => (groups_pass chk r1 && groups_pass chk r2)%bool
  | Grp n r1 => (chk n r1 && groups_pass chk r1)%bool
  | Rep _ _ _ r1 => groups_pass chk r1
  | _ => true
  end.

Definition all_ascii : list ascii := map ascii_of_nat (seq 0 256).

Definition forall_ascii (p : ascii -> bool) : bool := forallb p all_ascii.

(** What a pattern of one character accepts *)
Definition accepts (ci : bool) (r : regex) (x : ascii) : bool :=
  match r with
  | Lit ch => char_eq ci ch x
  | Any => negb (JS.is_line_terminator x)
  | Class neg items => xorb neg (class_matches ci items x)
  | _ => false
  end.

(** Every match starts with a character of [p] (a syntactic test). *)
Fixpoint head_in (ci : bool) (p : ascii -> bool) (r : regex) : bool :=
  match r with
  | Lit _ | Any | Class _ _ => forall_ascii (fun x => implb (accepts ci r x) (p x))
  | Cat r1 _ => head_in ci p r1
  | Alt r1 r2 => (head_in ci p r1 && head_in ci p r2)%bool
  | Grp _ r1 => head_in ci p r1
  | Rep mn _ _ r1 => ((0 <? mn) && head_in ci p r1)%bool
  | _ => false
  end.

(** Every match is made of characters of [p] only. *)
Fixpoint chars_in (ci : bool) (p : ascii -> bool) (r : regex) : bool :=
  match r with
  | Lit _ | Any | Class _ _ => forall_ascii (fun x => implb (accepts ci r x) (p x))
  | Cat r1 r2 | Alt r1 r2 => (chars_in ci p r1 && chars_in ci p r2)%bool
  | Grp _ r1 => chars_in ci p r1
  | Rep _ _ _ r1 => chars_in ci p r1
  | _ => true
  end.

(** Every match holds a character of [p]. *)
Fixpoint needs_char (ci : bool) (p : ascii -> bool) (r : regex) : bool :=
  match r with
  | Lit _ | Any | Class _ _ => forall_ascii (fun x => implb (accepts ci r x) (p x))
  | Cat r1 r2 => (needs_char ci p r1 || needs_char ci p r2)%bool
  | Alt r1 r2 => (needs_char ci p r1 && needs_char ci p r2)%bool
  | Grp _ r1 => needs_char ci p r1
  | Rep mn _ _ r1 => ((0 <? mn) && needs_char ci p r1)%bool
  | _ => false
  end.

(** Some character of [s] satisfies [p]. *)
Fixpoint has_char (p : ascii -> bool) (s : string) : bool :=
  match s with
  | EmptyString => false
  | String c s' => (p c || has_char p s')%bool
  end.

(** Least and greatest length of a match *)
Fixpoint min_len (r : regex) : nat :=
  match r with
  | Lit _ | Any | Class _ _ => 1
  | Cat r1 r2 => min_len r1 + min_len r2
  | Alt r1 r2 => Nat.min (min_len r1) (min_len r2)
  | Grp _ r1 => min_len r1
  | Rep mn _ _ r1 => mn * min_len r1
  | _ => 0
  end.

Fixpoint max_len (r : regex) : option nat :=
  match r with
  | Lit _ | Any | Class _ _ => Some 1
  | Cat r1 r2 =>
      match max_len r1, max_len r2 with
      | Some a, Some b => Some (a + b)
      | _, _ => None
      end
  | Alt r1 r2 =>
      match max_len r1, max_len r2 with
      | Some a, Some b => Some (Nat.max a b)
      | _, _ => None
      end
  | Grp _ r1 => max_len r1
  | Rep _ mx _ r1 =>
      match mx, max_len r1 with
      | Some b, Some a => Some (b * a)
      | _, _ => None
      end
  | _ => Some 0
  end.

(** ** Types of the groups of the parsers *)

(** Groups 2 and 3 of the DTI line patterns (size and price, in either
    order) start with a digit; group 1 is any text. *)
Definition dti_group (n : nat) (v : string) : Prop :=
  n <> 1 -> exists x t, v = String x t /\ JS.is_digit x = true.

(** The characters of the number of a price pattern *)
Definition digit_or_comma (c : ascii) : bool :=
  (JS.is_digit c || Ascii.eqb c ",")%bool.

Definition price_char (c : ascii) : bool :=
  (JS.is_digit c || Ascii.eqb c "," || Ascii.eqb c ".")%bool.

(** The layout [dddd-dd-dd] *)
Definition iso_layout (d : string) : bool :=
  match d with
  | String y1 (String y2 (String y3 (String y4 (String h1
      (String m1 (String m2 (String h2 (String d1 (String d2 EmptyString))))))))) =>
      (JS.is_digit y1 && JS.is_digit y2 && JS.is_digit y3 && JS.is_digit y4 &&
       Ascii.eqb h1 "-" && JS.is_digit m1 && JS.is_digit m2 &&
       Ascii.eqb h2 "-" && JS.is_digit d1 && JS.is_digit d2)%bool
  | _ => false
  end.

(** A text made of digits, between [lo] and [hi] of them *)
Definition digits_between (lo hi : nat) (v : string) : Prop :=
  all_chars JS.is_digit v = true /\ lo <= String.length v <= hi.

Definition digit_group (lo hi : nat) (r : regex) : bool :=
  (chars_in false JS.is_digit r && (lo <=? min_len r) &&
   match max_len r with Some b => b <=? hi | None => false end)%bool.

(** Bounds on the lengths of groups 1, 2 and 3 of a DOE date pattern, for
    the patterns that start with the year and for the others *)
Definition date_groups (year_first : bool) (n : nat) : nat * nat :=
  if year_first then (if n =? 1 then (4, 4) else (2, 2))
  else (if n =? 3 then (4, 4) else (1, 2)).

(** ** Other predicates *)

(** The characters [cleanText] keeps: word characters, white space, hyphen,
    dot, comma, and the bytes of the peso sign *)
Definition kept_char (c : ascii) : bool :=
  (PriceNormalizer.clean_char c ||
   existsb (Ascii.eqb c) (list_ascii_of_string "₱"))%bool.

(** The last [keep] bytes of the peso sign *)
Definition peso_tail (keep : nat) : string := substring (3 - keep) keep "₱".

(** The regions the DA scraper can name *)
Definition scraper_regions : list string :=
  ["NCR"; "Region VII"; "Region IV-A"; "Region III"].

(** ** Completeness of the matcher *)

(** Patterns without [^] and [$] *)
Fixpoint anchor_free (r : regex) : bool :=
  match r with
  | Bol | Eol => false
  | Cat r1 r2 | Alt r1 r2 => (anchor_free r1 && anchor_free r2)%bool
  | Grp _ r1 | Rep _ _ _ r1 => anchor_free r1
  | _ => true
  end.

(** A matcher of a sub-pattern [r] that gives a result on every text of [r]
    after which the continuation gives one *)
Definition complete_body {A : Type} (ci : bool) (r : regex)
           (body : string -> nat -> captures -> @cont A -> option A) : Prop :=
  forall w, lang ci r w ->
  forall s' i c (k : @cont A),
    (forall c', k s' (i + String.length w) c' <> None) ->
    body (w ++ s') i c k <> None.

(** ** The generic parser *)

(** Letters and white space, the characters of [[a-zA-Z\s]] *)
Definition letter_or_space (c : ascii) : bool :=
  (JS.is_lower c || JS.is_upper c || JS.is_space c)%bool.

(** Letters and the plain space *)
Definition letter_or_blank (c : ascii) : bool :=
  (JS.is_lower c || JS.is_upper c || Ascii.eqb c " ")%bool.

(** What the generic parser returns for [Eggs per pc 9.00] *)
Definition eggs_record : DA.PriceRecord :=
  {| DA.p_commodity := "Eggs per pc";
     DA.p_unit := "per kg";
     DA.price := 9;
     DA.p_source := "DA";
     DA.p_region := "Region III";
     DA.p_date := "2025-06-26";
     DA.p_category := "dairy";
     DA.p_hasRange := false;
     DA.p_filename := None |}.

(** ** Groups of entries *)




(** The unit lexicon without the variants that another variant of the same
    unit makes redundant *)
Definition unit_of (t : string) : string :=
  if (JS.includes t "kg" || JS.includes t "kilo")%bool then "per kg"
  else if (JS.includes t "per l" || JS.includes t "liter" || JS.includes t "litro" ||
           String.eqb t "l")%bool then "per liter"
  else if (JS.includes t "piece" || JS.includes t "pc")%bool then "per piece"
  else if (JS.includes t "dozen" || JS.includes t "dz")%bool then "per dozen"
  else if JS.includes t "sack" then "per sack"
  else if JS.includes t "bundle" then "per bundle"
  else "per unit".

(** A fuel header as the parser keeps it: the upper-cased text of one of the
    fuel names *)
Definition header_text (f : string) : Prop :=
  exists g, lang true (alt DOE.fuel_names) g /\ f = JS.toUpperCase g.

(** The fuel type that goes with a header *)
Definition fuel_kind (commodity fuelType : string) : Prop :=
  (JS.startsWith "RON" commodity = true /\ fuelType = "gasoline") \/
  (JS.startsWith "DIESEL" commodity = true /\ fuelType = "diesel") \/
  (commodity = "KEROSENE" /\ fuelType = "kerosene").

(** Neither [D] nor [K], in either case *)
Definition not_d_or_k (c : ascii) : bool :=
  negb (Ascii.eqb (JS.upper_char c) "D" || Ascii.eqb (JS.upper_char c) "K")%bool.

(** What every entry of the NCR format carries, given the lines read *)
Definition rice_at_market (lines : list string) (region date : string)
           (r : DA.PriceRangeRecord) : Prop :=
  DA.category r = "rice" /\ DA.unit_ r = "per kg" /\ DA.hasRange r = true /\
  DA.source r = "DA" /\ DA.region r = region /\ DA.date r = date /\
  ((DA.market r = Some EmptyString /\ DA.commodity r = "Rice") \/
   (exists raw, In raw lines /\ DA.isMarketName (JS.trim raw) = true /\
                DA.market r = Some (JS.trim raw) /\
                DA.commodity r = "Rice at " ++ JS.trim raw)).

(** A fuel header: [RON] and a number, [DIESEL], [DIESEL PLUS] or
    [KEROSENE], in any letter case *)
Definition fuel_header (line : string) : Prop := lang true (alt DOE.fuel_names) line.




(* ================================================================== *)
(** * The matcher *)
(* ================================================================== *)

(** ** The matcher on small subjects *)

(** Greedy and lazy quantifiers, ordered alternation with backtracking, the
    [i] flag, anchors, and an optional group left [undefined]. *)
Example matcher_samples :
  option_map groups
    (match_ "xx123.456" (mkRegExp (Grp 1 DA.num) false false))
    = Some [Some "123.45"; Some "123.45"] /\
  option_map groups
    (match_ "Soap Bar 3PCS 20" (nth 2 DTI.LINE_PATTERNS (mkRegExp Eps true false)))
    = Some [Some "Soap Bar 3PCS 20"; Some "Soap Bar"; Some "3PCS"; Some "20"] /\
  option_map groups
    (match_ "Egg per pcs 9" (nth 1 DA.PRICE_PATTERNS (mkRegExp Eps true false)))
    = Some [Some "Egg per pcs 9"; Some "Egg per"; Some "pcs"; Some "9"] /\
  option_map groups (match_ "diesel  plus " DOE.fuelTypeHeader)
    = Some [Some "diesel  plus "; Some "diesel  plus"] /\
  match_ "DIESEL 61.00" DOE.fuelTypeHeader = None /\
  map groups
    (exec_all (nth 1 DA.rx_pricePatterns (mkRegExp Eps false true))
              "n/an/an/a200.00200.00200.00")
    = [[Some "n/an/an/a200.00200.00200.00"; None; Some "200.00"; Some "200.00";
        Some "200.00"]] /\
  match_all "56.4958.4961.00" DOE.priceToken = ["56.49"; "58.49"; "61.00"].
Proof.
  repeat split; vm_compute; reflexivity.
Qed.

(** ** The rounds allowed to a quantifier are enough *)

Lemma append_assoc (a b c : string) : (a ++ b) ++ c = a ++ (b ++ c).
Proof. induction a as [|x a IH]; simpl; [reflexivity | rewrite IH; reflexivity]. Qed.

Lemma length_append (a b : string) :
  String.length (a ++ b) = String.length a + String.length b.
Proof. induction a as [|x a IH]; simpl; [reflexivity | rewrite IH; reflexivity]. Qed.

Lemma reach_refl s i : reach s i s i.
Proof. exists "". split; [reflexivity | simpl; lia]. Qed.

Lemma reach_trans s i s1 i1 s2 i2 :
  reach s i s1 i1 -> reach s1 i1 s2 i2 -> reach s i s2 i2.
Proof.
  intros (w1 & E1 & I1) (w2 & E2 & I2). exists (w1 ++ w2). split.
  - rewrite append_assoc. congruence.
  - rewrite length_append. lia.
Qed.

Lemma reach_step x s i : reach (String x s) i s (S i).
Proof. exists (String x ""). split; [reflexivity | simpl; lia]. Qed.

(** A reachable point is a suffix, at the index that counts what precedes
    it. *)
Lemma reach_length s i s' i' :
  reach s i s' i' ->
  String.length s' <= String.length s /\
  i' + String.length s' = i + String.length s.
Proof.
  intros (w & E & I). subst. rewrite length_append. lia.
Qed.

Lemma agree_from_later {A : Type} s i s1 i1 (k1 k2 : @cont A) :
  reach s i s1 i1 -> agree_from s i k1 k2 -> agree_from s1 i1 k1 k2.
Proof.
  intros R H s' i' c' R'. apply H. eapply reach_trans; eassumption.
Qed.

Section Rounds.
Context {A : Type}.
Variable body : string -> nat -> captures -> @cont A -> option A.
Hypothesis body_local : local_body body.
Variables (mn : nat) (mx : option nat) (greedy : bool).

Lemma rep_loop_local (fuel : nat) :
  forall cnt s i c k1 k2,
    agree_from s i k1 k2 ->
    rep_loop body mn mx greedy k1 fuel cnt s i c =
    rep_loop body mn mx greedy k2 fuel cnt s i c.
Proof.
  induction fuel as [|fuel IH]; intros cnt s i c k1 k2 H; [reflexivity|].
  cbn [rep_loop].
  rewrite (H s i c (reach_refl s i)).
  assert (E : body s i c
                (fun s' i' c' =>
                   if ((mn <=? cnt) && (i' =? i))%bool then None
                   else rep_loop body mn mx greedy k1 fuel (S cnt) s' i' c') =
              body s i c
                (fun s' i' c' =>
                   if ((mn <=? cnt) && (i' =? i))%bool then None
                   else rep_loop body mn mx greedy k2 fuel (S cnt) s' i' c')).
  { apply body_local. intros s' i' c' R.
    destruct ((mn <=? cnt) && (i' =? i))%bool; [reflexivity|].
    apply IH. eapply agree_from_later; eassumption. }
  rewrite E. reflexivity.
Qed.

(** Two amounts of fuel above [(mn - cnt) + length s] give the same result:
    below the minimum an iteration uses up one of the [mn - cnt] mandatory
    rounds, above it an iteration must consume a character. *)
Lemma rep_loop_fuel (k : @cont A) (f1 : nat) :
  forall f2 cnt s i c,
    (mn - cnt) + String.length s < f1 ->
    (mn - cnt) + String.length s < f2 ->
    rep_loop body mn mx greedy k f1 cnt s i c =
    rep_loop body mn mx greedy k f2 cnt s i c.
Proof.
  induction f1 as [|f1 IH]; intros f2 cnt s i c H1 H2; [lia|].
  destruct f2 as [|f2]; [lia|].
  cbn [rep_loop].
  assert (E : body s i c
                (fun s' i' c' =>
                   if ((mn <=? cnt) && (i' =? i))%bool then None
                   else rep_loop body mn mx greedy k f1 (S cnt) s' i' c') =
              body s i c
                (fun s' i' c' =>
                   if ((mn <=? cnt) && (i' =? i))%bool then None
                   else rep_loop body mn mx greedy k f2 (S cnt) s' i' c')).
  { apply body_local. intros s' i' c' R.
    apply reach_length in R. destruct R as [R1 R2].
    destruct ((mn <=? cnt) && (i' =? i))%bool eqn:G; [reflexivity|].
    apply andb_false_iff in G.
    apply IH.
    - destruct G as [G | G].
      + apply Nat.leb_gt in G. lia.
      + apply Nat.eqb_neq in G. lia.
    - destruct G as [G | G].
      + apply Nat.leb_gt in G. lia.
      + apply Nat.eqb_neq in G. lia. }
  rewrite E. reflexivity.
Qed.
End Rounds.

Lemma rep_loop_same_body {A : Type}
      (body1 body2 : string -> nat -> captures -> @cont A -> option A)
      (L : local_body body2)
      (E : forall s i c k, body1 s i c k = body2 s i c k)
      mn mx greedy (k : @cont A) (fuel : nat) :
  forall cnt s i c,
    rep_loop body1 mn mx greedy k fuel cnt s i c =
    rep_loop body2 mn mx greedy k fuel cnt s i c.
Proof.
  induction fuel as [|fuel IH]; intros cnt s i c; [reflexivity|].
  cbn [rep_loop]. rewrite E.
  assert (E' : body2 s i c
                 (fun s' i' c' =>
                    if ((mn <=? cnt) && (i' =? i))%bool then None
                    else rep_loop body1 mn mx greedy k fuel (S cnt) s' i' c') =
               body2 s i c
                 (fun s' i' c' =>
                    if ((mn <=? cnt) && (i' =? i))%bool then None
                    else rep_loop body2 mn mx greedy k fuel (S cnt) s' i' c')).
  { apply L. intros s' i' c' _.
    destruct ((mn <=? cnt) && (i' =? i))%bool; [reflexivity | apply IH]. }
  rewrite E'. reflexivity.
Qed.

(** The matcher only looks at its continuation on reachable points. *)
Lemma m_local {A : Type} ci (r : regex) : local_body (@m A ci r).
Proof.
  induction r as [| ch | | neg items | r1 IH1 r2 IH2 | r1 IH1 r2 IH2
                  | n r1 IH1 | mn mx greedy r1 IH1 | | ];
    intros s i c k1 k2 H; cbn [m].
  - apply H, reach_refl.
  - destruct s as [|x s']; [reflexivity|].
    destruct (char_eq ci ch x); [apply H, reach_step | reflexivity].
  - destruct s as [|x s']; [reflexivity|].
    destruct (JS.is_line_terminator x); [reflexivity | apply H, reach_step].
  - destruct s as [|x s']; [reflexivity|].
    destruct (xorb neg (class_matches ci items x)); [apply H, reach_step | reflexivity].
  - apply IH1. intros s' i' c' R. apply IH2.
    eapply agree_from_later; eassumption.
  - rewrite (IH1 s i c k1 k2 H), (IH2 s i c k1 k2 H). reflexivity.
  - apply IH1. intros s' i' c' R. apply H, R.
  - apply rep_loop_local; assumption.
  - destruct (i =? 0); [apply H, reach_refl | reflexivity].
  - destruct s; [apply H, reach_refl | reflexivity].
Qed.

(** More rounds never change the result of the matcher: no match is lost
    because a quantifier ran out of rounds. *)
Theorem m_rounds_enough {A : Type} (extra : nat) ci (r : regex) :
  forall s i c (k : @cont A), m_extra extra ci r s i c k = m ci r s i c k.
Proof.
  induction r as [| ch | | neg items | r1 IH1 r2 IH2 | r1 IH1 r2 IH2
                  | n r1 IH1 | mn mx greedy r1 IH1 | | ];
    intros s i c k; cbn [m m_extra]; try reflexivity.
  - rewrite IH1. apply m_local. intros s' i' c' _. apply IH2.
  - rewrite IH1, IH2. reflexivity.
  - apply IH1.
  - rewrite (rep_loop_same_body _ (m ci r1) (m_local ci r1) IH1).
    apply rep_loop_fuel; [apply m_local | simpl; lia | simpl; lia].
Qed.

(** ** The loops over the matches of a global pattern *)

Lemma rep_loop_progress {A : Type}
      (body : string -> nat -> captures -> @cont A -> option A) (e : bool)
      (P : progressing body e) mn mx greedy (k : @cont A) (fuel : nat) :
  forall cnt s i c a,
    rep_loop body mn mx greedy k fuel cnt s i c = Some a ->
    exists s' i' c',
      reach s i s' i' /\ (cnt < mn -> e = false -> i < i') /\ k s' i' c' = Some a.
Proof.
  induction fuel as [|fuel IH]; intros cnt s i c a; [discriminate|].
  cbn [rep_loop].
  assert (Stop : (if mn <=? cnt then k s i c else None) = Some a ->
                 exists s' i' c',
                   reach s i s' i' /\ (cnt < mn -> e = false -> i < i') /\
                   k s' i' c' = Some a).
  { destruct (mn <=? cnt) eqn:G; [|discriminate].
    apply Nat.leb_le in G. intro H.
    exists s, i, c. split; [apply reach_refl|]. split; [lia | exact H]. }
  assert (More :
            (if below cnt mx
             then body s i c
                    (fun s' i' c' =>
                       if ((mn <=? cnt) && (i' =? i))%bool then None
                       else rep_loop body mn mx greedy k fuel (S cnt) s' i' c')
             else None) = Some a ->
            exists s' i' c',
              reach s i s' i' /\ (cnt < mn -> e = false -> i < i') /\
              k s' i' c' = Some a).
  { destruct (below cnt mx); [|discriminate]. intro H.
    apply P in H. destruct H as (s1 & i1 & c1 & R1 & L1 & H).
    destruct ((mn <=? cnt) && (i1 =? i))%bool; [discriminate|].
    apply IH in H. destruct H as (s2 & i2 & c2 & R2 & _ & H).
    exists s2, i2, c2. split; [eapply reach_trans; eassumption|].
    split; [|exact H].
    intros _ E. specialize (L1 E).
    apply reach_length in R1, R2. lia. }
  destruct greedy.
  - destruct (if below cnt mx then body s i c _ else None) eqn:E1.
    + intro H. apply More. congruence.
    + exact Stop.
  - destruct (if mn <=? cnt then k s i c else None) eqn:E1.
    + intro H. apply Stop. congruence.
    + exact More.
Qed.

(** A successful match goes through the continuation, at a reachable point,
    and strictly further on when the pattern cannot match the empty
    string. *)
Lemma m_progress {A : Type} ci (r : regex) : progressing (@m A ci r) (nullable r).
Proof.
  induction r as [| ch | | neg items | r1 IH1 r2 IH2 | r1 IH1 r2 IH2
                  | n r1 IH1 | mn mx greedy r1 IH1 | | ];
    intros s i c k a; cbn [m nullable].
  - intro H. exists s, i, c. split; [apply reach_refl|]. split; [discriminate | exact H].
  - destruct s as [|x s']; [discriminate|].
    destruct (char_eq ci ch x); [|discriminate]. intro H.
    exists s', (S i), c. split; [apply reach_step|]. split; [lia | exact H].
  - destruct s as [|x s']; [discriminate|].
    destruct (JS.is_line_terminator x); [discriminate|]. intro H.
    exists s', (S i), c. split; [apply reach_step|]. split; [lia | exact H].
  - destruct s as [|x s']; [discriminate|].
    destruct (xorb neg (class_matches ci items x)); [|discriminate]. intro H.
    exists s', (S i), c. split; [apply reach_step|]. split; [lia | exact H].
  - intro H. apply IH1 in H. destruct H as (s1 & i1 & c1 & R1 & L1 & H).
    apply IH2 in H. destruct H as (s2 & i2 & c2 & R2 & L2 & H).
    exists s2, i2, c2. split; [eapply reach_trans; eassumption|].
    split; [|exact H].
    intro E. apply andb_false_iff in E. apply reach_length in R1, R2.
    destruct E as [E | E]; [specialize (L1 E) | specialize (L2 E)]; lia.
  - intro H. destruct (m ci r1 s i c k) eqn:E1.
    + inversion H; subst. apply IH1 in E1.
      destruct E1 as (s1 & i1 & c1 & R1 & L1 & E1).
      exists s1, i1, c1. split; [exact R1|]. split; [|exact E1].
      intro E. apply orb_false_iff in E. apply L1, E.
    + apply IH2 in H. destruct H as (s1 & i1 & c1 & R1 & L1 & H).
      exists s1, i1, c1. split; [exact R1|]. split; [|exact H].
      intro E. apply orb_false_iff in E. apply L1, E.
  - intro H. apply IH1 in H. destruct H as (s1 & i1 & c1 & R1 & L1 & H).
    exists s1, i1, (set_capture n (substring 0 (i1 - i) s) c1).
    split; [exact R1|]. split; [exact L1 | exact H].
  - intro H. apply (rep_loop_progress _ _ IH1) in H.
    destruct H as (s1 & i1 & c1 & R1 & L1 & H).
    exists s1, i1, c1. split; [exact R1|]. split; [|exact H].
    intro E. apply orb_false_iff in E. destruct E as [E1 E2].
    apply Nat.eqb_neq in E1. apply L1; [lia | exact E2].
  - destruct (i =? 0); [|discriminate]. intro H.
    exists s, i, c. split; [apply reach_refl|]. split; [discriminate | exact H].
  - destruct s; [|discriminate]. intro H.
    exists "", i, c. split; [apply reach_refl|]. split; [discriminate | exact H].
Qed.

(** A match found by the search starts at or after the index searched from,
    ends inside the subject, and is not empty when the pattern cannot match
    the empty string. *)
Lemma search_bounds (re : RegExp) :
  forall s i mr,
    search re s i = Some mr ->
    i <= index mr /\ index mr <= lastIndex mr /\
    lastIndex mr <= i + String.length s /\
    (nullable (pattern re) = false -> index mr < lastIndex mr).
Proof.
  induction s as [|x s IH]; intros i mr; cbn [search].
  - destruct (m (ignoreCase re) (pattern re) "" i _ accept) as [[e c]|] eqn:E;
      [|discriminate].
    intro H. inversion H; subst; clear H. cbn [index lastIndex].
    apply m_progress in E. destruct E as (s1 & i1 & c1 & R & L & E).
    apply reach_length in R. destruct R as [R1 R2].
    unfold accept in E. inversion E; subst. simpl in *.
    repeat split; try lia. intro N. specialize (L N). lia.
  - destruct (m (ignoreCase re) (pattern re) (String x s) i _ accept)
      as [[e c]|] eqn:E.
    + intro H. inversion H; subst; clear H. cbn [index lastIndex].
      apply m_progress in E. destruct E as (s1 & i1 & c1 & R & L & E).
      apply reach_length in R. destruct R as [R1 R2].
      unfold accept in E. inversion E; subst. simpl in *.
      repeat split; try lia. intro N. specialize (L N). lia.
    + intro H. apply IH in H. simpl. destruct H as (H1 & H2 & H3 & H4).
      repeat split; try lia. exact H4.
Qed.

Lemma drop_length n : forall s t, drop n s = Some t -> String.length t + n = String.length s.
Proof.
  induction n as [|n IH]; intros s t; simpl.
  - intro H. inversion H. lia.
  - destruct s as [|x s]; [discriminate|]. intro H. apply IH in H. simpl. lia.
Qed.

Lemma exec_from_bounds (re : RegExp) s from mr :
  nullable (pattern re) = false ->
  exec_from re s from = Some mr ->
  from < lastIndex mr /\ lastIndex mr <= String.length s.
Proof.
  intros N. unfold exec_from.
  destruct (drop from s) as [t|] eqn:D; [|discriminate].
  apply drop_length in D. intro H. apply search_bounds in H.
  destruct H as (H1 & H2 & H3 & H4). specialize (H4 N). lia.
Qed.

(** The [while (exec)] loop over a pattern that cannot match the empty
    string ends within [length s + 1] rounds: more rounds give the same
    matches. *)
Lemma exec_loop_rounds (re : RegExp) (s : string)
      (N : nullable (pattern re) = false) (f1 : nat) :
  forall f2 from,
    String.length s - from < f1 -> String.length s - from < f2 ->
    exec_loop f1 re s from = exec_loop f2 re s from.
Proof.
  induction f1 as [|f1 IH]; intros f2 from H1 H2; [lia|].
  destruct f2 as [|f2]; [lia|].
  cbn [exec_loop].
  destruct (exec_from re s from) as [mr|] eqn:E; [|reflexivity].
  destruct (exec_from_bounds re s from mr N E) as [B1 B2].
  f_equal. apply IH; lia.
Qed.

Lemma match_loop_rounds (re : RegExp) (s : string)
      (N : nullable (pattern re) = false) (f1 : nat) :
  forall f2 from,
    String.length s - from < f1 -> String.length s - from < f2 ->
    match_loop f1 re s from = match_loop f2 re s from.
Proof.
  induction f1 as [|f1 IH]; intros f2 from H1 H2; [lia|].
  destruct f2 as [|f2]; [lia|].
  cbn [match_loop].
  destruct (exec_from re s from) as [mr|] eqn:E; [|reflexivity].
  destruct (exec_from_bounds re s from mr N E) as [B1 B2].
  destruct (group mr 0); [|reflexivity].
  f_equal.
  destruct (lastIndex mr =? index mr); apply IH; lia.
Qed.

(** Every pattern the parsers run in such a loop consumes at least one
    character, so the rounds given by [exec_all] and [match_all] are
    enough. *)
Theorem loops_rounds_enough :
  Forall (fun re => nullable (pattern re) = false) looped_patterns /\
  (forall re s extra,
      nullable (pattern re) = false ->
      exec_loop (S (String.length s) + extra) re s 0 = exec_all re s) /\
  (forall re s extra,
      nullable (pattern re) = false ->
      match_loop (S (String.length s) + extra) re s 0 = match_all s re).
Proof.
  split; [|split].
  - repeat constructor.
  - intros re s extra N. apply exec_loop_rounds; [exact N | lia | lia].
  - intros re s extra N. apply match_loop_rounds; [exact N | lia | lia].
Qed.

(** ** Patterns that need a digit *)






(** ** Failure of a pattern does not depend on what follows it *)

Section MatcherFailure.
Context {A B : Type}.

Lemma rep_loop_fails
      (body1 : string -> nat -> captures -> @cont A -> option A)
      (body2 : string -> nat -> captures -> @cont B -> option B)
      (Hbody : forall s i c1 c2 k1 k2, fails_with k1 k2 ->
                 body1 s i c1 k1 = None -> body2 s i c2 k2 = None)
      mn mx greedy k1 k2 (Hk : fails_with k1 k2) :
  forall fuel cnt, fails_with (rep_loop body1 mn mx greedy k1 fuel cnt)
                              (rep_loop body2 mn mx greedy k2 fuel cnt).
Proof.
  induction fuel as [|fuel IH]; intros cnt s i c1 c2; simpl.
  - reflexivity.
  - assert (More :
      (if below cnt mx
       then body1 s i c1
              (fun s' i' c' =>
                 if ((mn <=? cnt) && (i' =? i))%bool then None
                 else rep_loop body1 mn mx greedy k1 fuel (S cnt) s' i' c')
       else None) = None ->
      (if below cnt mx
       then body2 s i c2
              (fun s' i' c' =>
                 if ((mn <=? cnt) && (i' =? i))%bool then None
                 else rep_loop body2 mn mx greedy k2 fuel (S cnt) s' i' c')
       else None) = None).
    { destruct (below cnt mx); [|reflexivity].
      apply Hbody. intros s' i' d1 d2.
      destruct ((mn <=? cnt) && (i' =? i))%bool; [reflexivity|]. apply IH. }
    assert (Stop :
      (if mn <=? cnt then k1 s i c1 else None) = None ->
      (if mn <=? cnt then k2 s i c2 else None) = None).
    { destruct (mn <=? cnt); [apply Hk | reflexivity]. }
    destruct greedy.
    + destruct (if below cnt mx then body1 s i c1 _ else None) eqn:E1;
        [discriminate|].
      intro E2. rewrite (More eq_refl). exact (Stop E2).
    + destruct (if mn <=? cnt then k1 s i c1 else None) eqn:E1;
        [discriminate|].
      intro E2. rewrite (Stop eq_refl). exact (More E2).
Qed.

(** If the pattern fails before a continuation, it fails before any
    continuation that fails at least as often, whatever the captures. *)
Lemma m_fails ci (r : regex) :
  forall s i c1 c2 (k1 : @cont A) (k2 : @cont B),
    fails_with k1 k2 -> m ci r s i c1 k1 = None -> m ci r s i c2 k2 = None.
Proof.
  induction r as [| ch | | neg items | r1 IH1 r2 IH2 | r1 IH1 r2 IH2
                  | n r1 IH1 | mn mx greedy r1 IH1 | | ];
    intros s i c1 c2 k1 k2 Hk; cbn [m].
  - apply Hk.
  - destruct s as [|x s']; [reflexivity|].
    destruct (char_eq ci ch x); [apply Hk | reflexivity].
  - destruct s as [|x s']; [reflexivity|].
    destruct (JS.is_line_terminator x); [reflexivity | apply Hk].
  - destruct s as [|x s']; [reflexivity|].
    destruct (xorb neg (class_matches ci items x)); [apply Hk | reflexivity].
  - apply IH1. intros s' i' d1 d2. apply IH2, Hk.
  - destruct (m ci r1 s i c1 k1) eqn:E1; [discriminate|].
    intro E2. rewrite (IH1 _ _ _ c2 _ k2 Hk E1). exact (IH2 _ _ _ c2 _ k2 Hk E2).
  - apply IH1. intros s' i' d1 d2. apply Hk.
  - apply rep_loop_fails; [|exact Hk].
    intros s0 i0 d1 d2 j1 j2 Hj. apply IH1, Hj.
  - destruct (i =? 0); [apply Hk | reflexivity].
  - destruct s; [apply Hk | reflexivity].
Qed.
End MatcherFailure.

(** If [r2] fails wherever [r1] does, the search for [r2] fails whenever the
    search for [r1] does. *)
Lemma search_fails ci (r1 r2 : regex) g1 g2 :
  (forall s i c1 c2,
      m ci r1 s i c1 accept = None -> m ci r2 s i c2 accept = None) ->
  forall s i,
    search (mkRegExp r1 ci g1) s i = None ->
    search (mkRegExp r2 ci g2) s i = None.
Proof.
  intros Hm. induction s as [|x s IH]; intros i; cbn [search pattern ignoreCase].
  - destruct (m ci r1 "" i _ accept) as [[e c]|] eqn:E; [discriminate|].
    intros _. erewrite Hm; [reflexivity | exact E].
  - destruct (m ci r1 (String x s) i _ accept) as [[e c]|] eqn:E; [discriminate|].
    intro H. erewrite Hm; [apply IH, H | exact E].
Qed.

(** A pattern that continues another one fails where the shorter one does. *)
Lemma continuation_fails ci (r rest : regex) s i c1 c2 :
  m ci r s i c1 accept = None ->
  m ci r s i c2 (fun s' i' c' => m ci rest s' i' c' accept) = None.
Proof.
  apply m_fails. intros s' i' d1 d2. unfold accept. discriminate.
Qed.

(* ================================================================== *)
(** * The parsers *)
(* ================================================================== *)

(** ** Comparisons and bookkeeping *)

Lemma Qltb_lt (x y : Q) : JS.Qltb x y = true <-> (x < y)%Q.
Proof.
  unfold JS.Qltb. rewrite negb_true_iff. split; intro H.
  - apply Qnot_le_lt. intro L. apply Qle_bool_iff in L. congruence.
  - destruct (Qle_bool y x) eqn:E; [|reflexivity].
    apply Qle_bool_iff in E. exfalso. exact (Qlt_not_le _ _ H E).
Qed.

Lemma Qltb_ge (x y : Q) : JS.Qltb x y = false <-> (y <= x)%Q.
Proof.
  unfold JS.Qltb. rewrite negb_false_iff. apply Qle_bool_iff.
Qed.

Lemma Qleb_le (x y : Q) : JS.Qleb x y = true <-> (x <= y)%Q.
Proof. apply Qle_bool_iff. Qed.

(** The guard shared by the three range parsers *)
Lemma range_guard (mn mx : Q) :
  (JS.Qltb 0 mn && JS.Qltb 0 mx && JS.Qleb mn mx)%bool = true ->
  (0 < mn)%Q /\ (mn <= mx)%Q.
Proof.
  rewrite !andb_true_iff. intros [[H1 _] H2].
  split; [apply Qltb_lt | apply Qleb_le]; assumption.
Qed.

(** An invariant of every element pushed by the rounds of a loop holds of
    every element of the final accumulator. *)
Lemma fold_left_Forall {S X : Type} (P : X -> Prop) (proj : S -> list X)
      (step : S -> string -> S) :
  (forall st x, Forall P (proj st) -> Forall P (proj (step st x))) ->
  forall lines st, Forall P (proj st) -> Forall P (proj (fold_left step lines st)).
Proof.
  intros Hstep lines. induction lines as [|l ls IH]; intros st H; simpl.
  - exact H.
  - apply IH, Hstep, H.
Qed.

Lemma Forall_flat_map {X Y : Type} (P : Y -> Prop) (f : X -> list Y) (l : list X) :
  (forall x, Forall P (f x)) -> Forall P (flat_map f l).
Proof.
  intro H. induction l as [|x l IH]; simpl.
  - constructor.
  - apply Forall_app. split; [apply H | exact IH].
Qed.

(** ** Every range entry comes from a guarded construction *)

Lemma ncr_entry_ok region date market mr :
  Forall (fun r => bounds_ok r /\ midpoint_ok r) (DA.ncr_entry region date market mr).
Proof.
  unfold DA.ncr_entry.
  destruct (3 <=? match_length mr); [|constructor].
  destruct (JS.parseFloat_opt (group mr 1)) as [mn|]; [|constructor].
  destruct (JS.parseFloat_opt (group mr 2)) as [mx|]; [|constructor].
  destruct (JS.Qltb 0 mn && JS.Qltb 0 mx && JS.Qleb mn mx)%bool eqn:G; [|constructor].
  constructor; [|constructor].
  split.
  - exact (range_guard _ _ G).
  - reflexivity.
Qed.

Lemma parseNCRFormat_ok lines region date :
  Forall (fun r => bounds_ok r /\ midpoint_ok r)
         (DA.priceRanges (DA.parseNCRFormat lines region date)).
Proof.
  unfold DA.parseNCRFormat; simpl.
  apply (fold_left_Forall _ snd); [|constructor].
  intros [market acc] raw H. unfold DA.ncr_step.
  destruct (DA.skipped (JS.trim raw)); [exact H|].
  destruct (DA.isMarketName (JS.trim raw)); [exact H|].
  simpl in *. apply Forall_app. split; [exact H|].
  unfold DA.ncr_line_entries.
  apply Forall_flat_map. intro pattern.
  apply Forall_flat_map. intro mr. apply ncr_entry_ok.
Qed.

Lemma generic_range_ok region date commodity f :
  Forall (fun r => bounds_ok r /\ midpoint_ok r)
         (DA.generic_range region date commodity f).
Proof.
  unfold DA.generic_range.
  destruct (JS.truthy (DA.f_minPrice f) && JS.truthy (DA.f_maxPrice f))%bool;
    [|constructor].
  destruct (JS.parseFloat_opt (DA.f_minPrice f)) as [mn|]; [|constructor].
  destruct (JS.parseFloat_opt (DA.f_maxPrice f)) as [mx|]; [|constructor].
  destruct (JS.Qltb 0 mn && JS.Qltb 0 mx && JS.Qleb mn mx)%bool eqn:G; [|constructor].
  constructor; [|constructor].
  split.
  - exact (range_guard _ _ G).
  - reflexivity.
Qed.

Lemma generic_line_ranges_ok region date raw :
  Forall (fun r => bounds_ok r /\ midpoint_ok r)
         (snd (DA.generic_line region date raw)).
Proof.
  unfold DA.generic_line.
  destruct (DA.skipped (JS.trim raw)); [constructor|].
  destruct (DA.first_match DA.PRICE_PATTERNS 0 (JS.trim raw)) as [[j mr]|];
    [|constructor].
  cbv zeta.
  match goal with |- context [if ?b then _ else _] =>
    destruct b; [constructor|] end.
  apply generic_range_ok.
Qed.

Lemma parseGenericFormat_ok lines region date :
  Forall (fun r => bounds_ok r /\ midpoint_ok r)
         (DA.priceRanges (DA.parseGenericFormat lines region date)).
Proof.
  unfold DA.parseGenericFormat.
  apply (fold_left_Forall _ DA.priceRanges); [|constructor].
  intros acc raw H. unfold DA.generic_step.
  pose proof (generic_line_ranges_ok region date raw) as L.
  destruct (DA.generic_line region date raw) as [rs rgs]. simpl in *.
  apply Forall_app. split; assumption.
Qed.

(** ** Minimum and maximum of the numbers of an RX line *)

Lemma list_min_lower (l : list Q) : forall x,
  (JS.list_min x l <= x)%Q /\ Forall (fun y => (JS.list_min x l <= y)%Q) l.
Proof.
  induction l as [|y l IH]; intro x; simpl.
  - split; [apply Qle_refl | constructor].
  - unfold JS.list_min in *. simpl.
    destruct (JS.Qltb y x) eqn:E.
    + apply Qltb_lt in E. destruct (IH y) as [H1 H2].
      split; [|constructor; assumption].
      apply Qle_trans with y; [exact H1 | apply Qlt_le_weak, E].
    + apply Qltb_ge in E. destruct (IH x) as [H1 H2].
      split; [exact H1|]. constructor; [|exact H2].
      apply Qle_trans with x; assumption.
Qed.

Lemma list_max_upper (l : list Q) : forall x,
  (x <= JS.list_max x l)%Q /\ Forall (fun y => (y <= JS.list_max x l)%Q) l.
Proof.
  induction l as [|y l IH]; intro x; simpl.
  - split; [apply Qle_refl | constructor].
  - unfold JS.list_max in *. simpl.
    destruct (JS.Qltb x y) eqn:E.
    + apply Qltb_lt in E. destruct (IH y) as [H1 H2].
      split; [|constructor; assumption].
      apply Qle_trans with y; [apply Qlt_le_weak, E | exact H1].
    + apply Qltb_ge in E. destruct (IH x) as [H1 H2].
      split; [exact H1|]. constructor; [|exact H2].
      apply Qle_trans with x; assumption.
Qed.

Lemma list_min_max_bounds (p : Q) (ps : list Q) :
  Forall (fun q => (JS.list_min p ps <= q)%Q /\ (q <= JS.list_max p ps)%Q) (p :: ps).
Proof.
  destruct (list_min_lower ps p) as [m1 m2].
  destruct (list_max_upper ps p) as [M1 M2].
  constructor; [split; assumption|].
  rewrite Forall_forall in *. intros y Hy. split; [apply m2 | apply M2]; exact Hy.
Qed.

Lemma rx_entry_ok region date cat com mr :
  Forall (fun r => bounds_ok r /\ mean_ok r) (DA.rx_entry region date cat com mr).
Proof.
  unfold DA.rx_entry.
  destruct (4 <=? match_length mr); [|constructor].
  destruct (DA.rx_prices (tl (groups mr))) as [|p [|p2 ps]]; try constructor.
  - cbv zeta.
    destruct (JS.Qltb 0 (JS.list_min p (p2 :: ps)) &&
              JS.Qltb 0 (JS.list_max p (p2 :: ps)) &&
              JS.Qleb (JS.list_min p (p2 :: ps)) (JS.list_max p (p2 :: ps)))%bool
      eqn:G; [|constructor].
    constructor; [|constructor].
    split.
    + exact (range_guard _ _ G).
    + exists p, (p2 :: ps). cbn. repeat split. discriminate.
Qed.

Lemma parseRXFormat_ok lines region date :
  Forall (fun r => bounds_ok r /\ mean_ok r)
         (DA.priceRanges (DA.parseRXFormat lines region date)).
Proof.
  unfold DA.parseRXFormat; simpl.
  apply (fold_left_Forall _ DA.rx_ranges); [|constructor].
  intros st raw H. unfold DA.rx_step.
  destruct (DA.skipped (JS.trim raw)); [exact H|].
  destruct (DA.isCategoryHeader (JS.trim raw)); [exact H|].
  destruct (DA.isCommodityType (JS.trim raw)); [exact H|].
  simpl. apply Forall_app. split; [exact H|].
  unfold DA.rx_line_entries.
  apply Forall_flat_map. intro pattern.
  apply Forall_flat_map. intro mr. apply rx_entry_ok.
Qed.

(** ** Single prices of the generic and of the fuel parser *)

Lemma generic_single_ok region date commodity f :
  Forall (fun r => (0 < DA.price r)%Q /\ (DA.price r < 10000)%Q)
         (DA.generic_single region date commodity f).
Proof.
  unfold DA.generic_single.
  destruct (JS.truthy (DA.f_price f)); [|constructor].
  destruct (JS.parseFloat_opt (DA.f_price f)) as [q|]; [|constructor].
  destruct (JS.Qltb 0 q && JS.Qltb q 10000)%bool eqn:G; [|constructor].
  apply andb_true_iff in G. destruct G as [G1 G2].
  constructor; [|constructor]. simpl.
  split; apply Qltb_lt; assumption.
Qed.

Lemma parseGenericFormat_results_ok lines region date :
  Forall (fun r => (0 < DA.price r)%Q /\ (DA.price r < 10000)%Q)
         (DA.results (DA.parseGenericFormat lines region date)).
Proof.
  unfold DA.parseGenericFormat.
  apply (fold_left_Forall _ DA.results); [|constructor].
  intros acc raw H. unfold DA.generic_step.
  assert (L : Forall (fun r => (0 < DA.price r)%Q /\ (DA.price r < 10000)%Q)
                     (fst (DA.generic_line region date raw))).
  { unfold DA.generic_line.
    destruct (DA.skipped (JS.trim raw)); [constructor|].
    destruct (DA.first_match DA.PRICE_PATTERNS 0 (JS.trim raw)) as [[j mr]|];
      [|constructor].
    cbv zeta.
    match goal with |- context [if ?b then _ else _] =>
      destruct b; [constructor|] end.
    apply generic_single_ok. }
  destruct (DA.generic_line region date raw) as [rs rgs]. simpl in *.
  apply Forall_app. split; assumption.
Qed.

Lemma doe_price_entry_ok region date fuel line w :
  Forall (fun r => (0 < DOE.price r)%Q /\ (DOE.price r <= 200)%Q /\
                   DOE.unit_ r = "per liter" /\ DOE.commodity r = fuel)
         (DOE.price_entry region date fuel line w).
Proof.
  unfold DOE.price_entry.
  destruct (JS.parseFloat w) as [q|]; [|constructor].
  destruct (JS.Qleb q 0 || JS.Qltb 200 q)%bool eqn:G; [constructor|].
  destruct (DOE.not_price_line line); [constructor|].
  apply orb_false_iff in G. destruct G as [G1 G2].
  constructor; [|constructor]. simpl. repeat split.
  - apply Qnot_le_lt. intro L. apply Qleb_le in L. congruence.
  - apply Qltb_ge. exact G2.
Qed.

Lemma doe_parseLines_ok lines region date :
  Forall (fun r => (0 < DOE.price r)%Q /\ (DOE.price r <= 200)%Q /\
                   DOE.unit_ r = "per liter")
         (DOE.parseLines lines region date).
Proof.
  unfold DOE.parseLines.
  apply (fold_left_Forall _ snd); [|constructor].
  intros [fuel acc] raw H. unfold DOE.step.
  destruct (String.length (JS.trim raw) <? 2); [exact H|].
  destruct (match_ (JS.trim raw) DOE.fuelTypeHeader); [exact H|].
  destruct (JS.truthy fuel); [|exact H].
  assert (A : Forall (fun r => (0 < DOE.price r)%Q /\ (DOE.price r <= 200)%Q /\
                               DOE.unit_ r = "per liter")
                     (acc ++ DOE.line_entries region date (DA.show fuel) (JS.trim raw))).
  { apply Forall_app. split; [exact H|].
    unfold DOE.line_entries. apply Forall_flat_map. intro w.
    eapply Forall_impl; [|apply doe_price_entry_ok].
    simpl. intros r (a & b & c & _). auto. }
  cbv zeta. destruct (match_ (JS.trim raw) DOE.sectionEnd); exact A.
Qed.

(** ** The generic parser: the first shape hides the two range shapes *)

Lemma range_shapes_hidden (line : string) :
  match_ line (nth 0 DA.PRICE_PATTERNS (mkRegExp Eps true false)) = None ->
  match_ line (nth 3 DA.PRICE_PATTERNS (mkRegExp Eps true false)) = None /\
  match_ line (nth 4 DA.PRICE_PATTERNS (mkRegExp Eps true false)) = None.
Proof.
  unfold match_, exec_from. cbn [drop]. intro H. split.
  - revert H. apply search_fails. intros s i c1 c2.
    exact (continuation_fails true (generic_shape 0)
             (Cat DA.dash (Grp 3 DA.num)) s i c1 c2).
  - revert H. apply search_fails. intros s i c1 c2.
    exact (continuation_fails true (generic_shape 0)
             (Cat (plus space) (Grp 3 DA.num)) s i c1 c2).
Qed.

Lemma first_match_is_single (line : string) j mr :
  DA.first_match DA.PRICE_PATTERNS 0 line = Some (j, mr) -> j < 3.
Proof.
  change DA.PRICE_PATTERNS with
    [nth 0 DA.PRICE_PATTERNS (mkRegExp Eps true false);
     nth 1 DA.PRICE_PATTERNS (mkRegExp Eps true false);
     nth 2 DA.PRICE_PATTERNS (mkRegExp Eps true false);
     nth 3 DA.PRICE_PATTERNS (mkRegExp Eps true false);
     nth 4 DA.PRICE_PATTERNS (mkRegExp Eps true false)].
  cbn [DA.first_match].
  destruct (match_ line (nth 0 _ _)) eqn:E0.
  { intro H. inversion H. lia. }
  destruct (range_shapes_hidden line E0) as [E3 E4].
  destruct (match_ line (nth 1 _ _)).
  { intro H. inversion H. lia. }
  destruct (match_ line (nth 2 _ _)).
  { intro H. inversion H. lia. }
  rewrite E3, E4. discriminate.
Qed.

Lemma generic_line_no_range region date raw :
  snd (DA.generic_line region date raw) = [].
Proof.
  unfold DA.generic_line.
  destruct (DA.skipped (JS.trim raw)); [reflexivity|].
  destruct (DA.first_match DA.PRICE_PATTERNS 0 (JS.trim raw)) as [[j mr]|] eqn:E;
    [|reflexivity].
  apply first_match_is_single in E.
  cbv zeta.
  match goal with |- context [if ?b then _ else _] =>
    destruct b; [reflexivity|] end.
  cbn [snd]. unfold DA.generic_range.
  destruct j as [|[|[|j]]]; try lia; reflexivity.
Qed.

Lemma parseGenericFormat_no_range lines region date :
  DA.priceRanges (DA.parseGenericFormat lines region date) = [].
Proof.
  unfold DA.parseGenericFormat.
  assert (G : forall acc, DA.priceRanges acc = [] ->
            DA.priceRanges (fold_left (DA.generic_step region date) lines acc) = []).
  { induction lines as [|l ls IH]; intros acc H; simpl; [exact H|].
    apply IH. unfold DA.generic_step.
    pose proof (generic_line_no_range region date l) as N.
    destruct (DA.generic_line region date l) as [rs rgs]. simpl in *.
    rewrite H, N. reflexivity. }
  apply G. reflexivity.
Qed.

(* ================================================================== *)
(** * The claims *)
(* ================================================================== *)

(** ** C1 *)

Lemma double_Qeq (q q' : Q) : (q == q')%Q -> JS.double q = JS.double q'.
Proof.
  intro H. unfold JS.double. rewrite (Qred_complete q q' H). reflexivity.
Qed.

(** When the sum and its half need no rounding, the stored average is the
    midpoint. *)
Lemma midpoint_exact (r : DA.PriceRangeRecord) :
  midpoint_ok r ->
  is_double (DA.minPrice r + DA.maxPrice r) ->
  is_double ((DA.minPrice r + DA.maxPrice r) / 2) ->
  (DA.averagePrice r == (DA.minPrice r + DA.maxPrice r) / 2)%Q.
Proof.
  unfold midpoint_ok, is_double, JS.div, JS.add. intros E S H. rewrite E.
  rewrite (double_Qeq (JS.double (DA.minPrice r + DA.maxPrice r) / 2)
                      ((DA.minPrice r + DA.maxPrice r) / 2)).
  - exact H.
  - rewrite S. reflexivity.
Qed.

Lemma rx_entry_from_match region date cat com mr :
  forall r, In r (DA.rx_entry region date cat com mr) ->
  exists p ps,
    DA.rx_prices (tl (groups mr)) = p :: ps /\ ps <> [] /\
    DA.minPrice r = JS.list_min p ps /\
    DA.maxPrice r = JS.list_max p ps /\
    DA.averagePrice r = DA.mean (p :: ps).
Proof.
  intros r H. unfold DA.rx_entry in H.
  destruct (4 <=? match_length mr); [|destruct H].
  destruct (DA.rx_prices (tl (groups mr))) as [|p [|p2 ps]]; try destruct H.
  cbv zeta in H.
  destruct (_ && _)%bool; [|destruct H].
  destruct H as [<- | []].
  exists p, (p2 :: ps). cbn. repeat split. discriminate.
Qed.

Lemma parseRXFormat_from_match lines region date :
  Forall (from_rx_match lines) (DA.priceRanges (DA.parseRXFormat lines region date)).
Proof.
  unfold DA.parseRXFormat. cbn [DA.priceRanges].
  assert (Inv : forall ls st,
             incl ls lines ->
             Forall (from_rx_match lines) (DA.rx_ranges st) ->
             Forall (from_rx_match lines)
                    (DA.rx_ranges (fold_left (DA.rx_step region date) ls st))).
  { induction ls as [|raw ls IH]; intros st Hi Ha; [exact Ha|].
    cbn [fold_left].
    assert (Hraw : In raw lines) by (apply Hi; left; reflexivity).
    apply IH; [intros x Hx; apply Hi; right; exact Hx|].
    unfold DA.rx_step.
    destruct (DA.skipped (JS.trim raw)); [exact Ha|].
    destruct (DA.isCategoryHeader (JS.trim raw)); [exact Ha|].
    destruct (DA.isCommodityType (JS.trim raw)); [exact Ha|].
    cbn [DA.rx_ranges]. apply Forall_app. split; [exact Ha|].
    apply Forall_forall. intros r Hr. unfold DA.rx_line_entries in Hr.
    apply in_flat_map in Hr. destruct Hr as (pattern & Hp & Hr).
    apply in_flat_map in Hr. destruct Hr as (mr & Hm & Hr).
    apply rx_entry_from_match in Hr. destruct Hr as (p & ps & E & N & A & B & C).
    exists raw, pattern, mr, p, ps. repeat split; assumption. }
  apply Inv; [apply incl_refl | constructor].
Qed.

(** C1, as stated, fails twice.  An RX entry stores the mean of all six
    numbers of the line (here 289/6, rounded), which is not the midpoint of
    the smallest and the largest (here 48).  And the sum of two prices is
    rounded before it is halved: for the NCR range [45.10-48.20] the stored
    average is the double 46.650000000000006, not the midpoint of the two
    stored bounds. *)
Lemma rx_average_is_not_midpoint :
  (exists r,
     In r (DA.priceRanges (DA.parseRXFormat [rx_uneven_line] "RX" DA.DATE)) /\
     ~ (DA.averagePrice r == (DA.minPrice r + DA.maxPrice r) / 2)%Q) /\
  (exists r,
     In r (DA.priceRanges (DA.parseNCRFormat [rounded_range_line] "NCR" DA.DATE)) /\
     ~ (DA.averagePrice r == (DA.minPrice r + DA.maxPrice r) / 2)%Q).
Proof.
  split; eexists; (split; [vm_compute; left; reflexivity | vm_compute; discriminate]).
Qed.

(** C1, amended.  Every range entry of the NCR and of the generic parser has
    as [averagePrice] the value of [(minPrice + maxPrice) / 2] in double
    arithmetic: the sum of the two stored bounds rounded to the nearest
    double, then halved.  It is the exact midpoint whenever the sum and its
    half are doubles ([45.00-48.00] gives 46.5), and otherwise need not be
    ([45.10-48.20] gives the double 46.650000000000006, which is not the
    double 46.65).  An entry of the RX parser comes from one match of one of
    the four patterns on a line of the bulletin; with the numbers read from
    the groups of that match, in order (two or more), it stores their
    minimum, their maximum and their mean (the sum from left to right,
    divided by the count), all of them between its bounds; the line of six
    prices [48.0050.0048.0046.0050.0047.00] is matched by the first and by
    the fourth pattern and gives the entry (46, 50, 289/6 rounded) twice. *)
Theorem average_price_rule (lines : list string) (region date : string)
        (r : DA.PriceRangeRecord) :
  (In r (DA.priceRanges (DA.parseNCRFormat lines region date)) \/
   In r (DA.priceRanges (DA.parseGenericFormat lines region date)) ->
   DA.averagePrice r = JS.div (JS.add (DA.minPrice r) (DA.maxPrice r)) 2 /\
   (is_double (DA.minPrice r + DA.maxPrice r) ->
    is_double ((DA.minPrice r + DA.maxPrice r) / 2) ->
    (DA.averagePrice r == (DA.minPrice r + DA.maxPrice r) / 2)%Q)) /\
  (In r (DA.priceRanges (DA.parseRXFormat lines region date)) ->
   exists raw pattern mr p ps,
     In raw lines /\ In pattern DA.rx_pricePatterns /\
     In mr (exec_all pattern (JS.trim raw)) /\
     DA.rx_prices (tl (groups mr)) = p :: ps /\ ps <> [] /\
     DA.minPrice r = JS.list_min p ps /\
     DA.maxPrice r = JS.list_max p ps /\
     DA.averagePrice r =
       JS.div (fold_left JS.add (p :: ps) 0%Q)
              (inject_Z (Z.of_nat (List.length (p :: ps)))) /\
     Forall (fun q => (DA.minPrice r <= q)%Q /\ (q <= DA.maxPrice r)%Q) (p :: ps)) /\
  map (fun x => (DA.minPrice x, DA.maxPrice x, DA.averagePrice x))
      (DA.priceRanges (DA.parseNCRFormat ["45.00-48.00"] "NCR" DA.DATE)) =
    [ (45%Q, 48%Q, 93 # 2) ] /\
  map (fun x => (DA.minPrice x, DA.maxPrice x, DA.averagePrice x))
      (DA.priceRanges (DA.parseNCRFormat [rounded_range_line] "NCR" DA.DATE)) =
    [ (JS.double (451 # 10), JS.double (482 # 10),
       JS.double (46650000000000006 # 1000000000000000)) ] /\
  JS.double (46650000000000006 # 1000000000000000) <> JS.double (4665 # 100) /\
  map (fun x => (DA.minPrice x, DA.maxPrice x, DA.averagePrice x))
      (DA.priceRanges (DA.parseRXFormat [rx_uneven_line] "RX" DA.DATE)) =
    [ (46%Q, 50%Q, JS.double (289 # 6)); (46%Q, 50%Q, JS.double (289 # 6)) ].
Proof.
  split; [|split; [|split; [|split; [|split]]]].
  - intros H.
    assert (M : midpoint_ok r).
    { destruct H as [H | H].
      - pose proof (parseNCRFormat_ok lines region date) as F.
        rewrite Forall_forall in F. exact (proj2 (F r H)).
      - pose proof (parseGenericFormat_ok lines region date) as F.
        rewrite Forall_forall in F. exact (proj2 (F r H)). }
    split; [exact M | apply midpoint_exact, M].
  - intro H.
    pose proof (parseRXFormat_from_match lines region date) as F.
    rewrite Forall_forall in F.
    destruct (F r H) as (raw & pattern & mr & p & ps & I1 & I2 & I3 & E & N & A & B & C).
    exists raw, pattern, mr, p, ps. repeat (split; [assumption|]).
    rewrite A, B. apply list_min_max_bounds.
  - vm_compute. reflexivity.
  - vm_compute. reflexivity.
  - vm_compute. discriminate.
  - vm_compute. reflexivity.
Qed.

Lemma average_price_rule_witness :
  DA.averagePrice balintawak_record = JS.div (JS.add 45 48) 2 /\
  (DA.averagePrice balintawak_record == (45 + 48) / 2)%Q.
Proof.
  destruct (average_price_rule balintawak_lines "NCR" "2025-06-26" balintawak_record)
    as (T & _).
  destruct T as [T1 T2]; [left; vm_compute; left; reflexivity|].
  split; [exact T1|].
  apply T2; vm_compute; reflexivity.
Defined.

(** ** C2 *)

(** The fuel parser and the generic parser test every price before pushing
    it: [0 < price <= 200] and [0 < price < 10000]. *)
Lemma doe_and_generic_price_bounds (lines : list string) (region date : string) :
  (forall r, In r (DOE.parseLines lines region date) ->
             (0 < DOE.price r)%Q /\ (DOE.price r <= 200)%Q) /\
  (forall r, In r (DA.results (DA.parseGenericFormat lines region date)) ->
             (0 < DA.price r)%Q /\ (DA.price r < 10000)%Q).
Proof.
  split; intros r H.
  - pose proof (doe_parseLines_ok lines region date) as F.
    rewrite Forall_forall in F. destruct (F r H) as (a & b & _). auto.
  - pose proof (parseGenericFormat_results_ok lines region date) as F.
    rewrite Forall_forall in F. exact (F r H).
Qed.

(** C2: the code at a line whose price is zero.  The DTI parser stores
    [parseFloat(price)] without any test, so [Sardines 0.00] gives an entry of
    price 0; the generic parser and the fuel parser, which test [price > 0],
    drop the same candidate. *)
Theorem dti_zero_price_is_emitted :
  DTI.parseText "Sardines 0.00" =
    [ {| DTI.commodity := "Sardines";
         DTI.unit_ := "unit";
         DTI.price := Some 0%Q;
         DTI.source := "DTI";
         DTI.region := "National";
         DTI.date := "2025-02-01" |} ] /\
  DA.results (DA.parseGenericFormat ["Sardines 0.00"] "Region III" DA.DATE) = [] /\
  DOE.parseLines ["DIESEL"; "0.00"] "Luzon" DOE.DATE = [].
Proof.
  repeat split; vm_compute; reflexivity.
Qed.

(** ** C3 *)

(** C3: the code at the line of the claim.  [Rice 45.50-55.75] is taken by
    the first shape ([commodity price], which has no end anchor), so the
    parser returns one single-price entry of 45.50 and no range entry; and
    since every line of the two range shapes is a line of the first shape,
    the generic parser returns no range entry on any input. *)
Theorem generic_range_line_is_read_as_single_price :
  DA.parseGenericFormat ["Rice 45.50-55.75"] "Region III" "2025-06-26" =
    {| DA.results :=
         [ {| DA.p_commodity := "Rice";
              DA.p_unit := "per kg";
              DA.price := 91 # 2;
              DA.p_source := "DA";
              DA.p_region := "Region III";
              DA.p_date := "2025-06-26";
              DA.p_category := "rice";
              DA.p_hasRange := false;
              DA.p_filename := None |} ];
       DA.priceRanges := [] |} /\
  (forall lines region date,
      DA.priceRanges (DA.parseGenericFormat lines region date) = []).
Proof.
  split.
  - vm_compute. reflexivity.
  - exact parseGenericFormat_no_range.
Qed.

(** ** C4 *)

(** C4: the code on the scenario and on a line of two concatenated ranges.
    The scenario gives exactly the one entry of the claim.  On
    [45.00-48.007.00-8.00] the first pattern finds the two ranges, and the
    second pattern then matches the whole line and pushes its first range
    again (its groups 3 and 4 are never read): three entries for two range
    tokens, [45-48] twice. *)
Theorem ncr_scenario_and_concatenated_ranges :
  DA.parseNCRFormat balintawak_lines "NCR" "2025-06-26" =
    {| DA.results := []; DA.priceRanges := [balintawak_record] |} /\
  map (fun mr => group mr 0)
      (exec_all (nth 0 DA.ncr_pricePatterns (mkRegExp Eps false true)) two_ranges_line)
    = [Some "45.00-48.00"; Some "7.00-8.00"] /\
  map (fun r => (DA.minPrice r, DA.maxPrice r, DA.averagePrice r, DA.market r))
      (DA.priceRanges
         (DA.parseNCRFormat ["Balintawak (Cloverleaf) Market"; two_ranges_line]
                            "NCR" "2025-06-26"))
    = [ (45%Q, 48%Q, 93 # 2, Some "Balintawak (Cloverleaf) Market");
        (7%Q, 8%Q, 15 # 2, Some "Balintawak (Cloverleaf) Market");
        (45%Q, 48%Q, 93 # 2, Some "Balintawak (Cloverleaf) Market") ].
Proof.
  repeat split; vm_compute; reflexivity.
Qed.

(** ** C5 *)

(** C5.  Every range entry returned by the NCR, the RX or the generic parser
    has [0 < minPrice <= maxPrice]: each entry is pushed under the guard
    [min > 0 && max > 0 && max >= min], and a candidate that fails the guard
    pushes nothing (the parsers are total functions of their lines). *)
Theorem range_records_bounds (lines : list string) (region date : string)
        (r : DA.PriceRangeRecord) :
  In r (DA.priceRanges (DA.parseNCRFormat lines region date)) \/
  In r (DA.priceRanges (DA.parseRXFormat lines region date)) \/
  In r (DA.priceRanges (DA.parseGenericFormat lines region date)) ->
  (0 < DA.minPrice r)%Q /\ (DA.minPrice r <= DA.maxPrice r)%Q.
Proof.
  intros [H | [H | H]].
  - pose proof (parseNCRFormat_ok lines region date) as F.
    rewrite Forall_forall in F. exact (proj1 (F r H)).
  - pose proof (parseRXFormat_ok lines region date) as F.
    rewrite Forall_forall in F. exact (proj1 (F r H)).
  - pose proof (parseGenericFormat_ok lines region date) as F.
    rewrite Forall_forall in F. exact (proj1 (F r H)).
Qed.

Lemma range_records_bounds_witness : (0 < 45)%Q /\ (45 <= 48)%Q.
Proof.
  apply (range_records_bounds balintawak_lines "NCR" "2025-06-26" balintawak_record).
  left. vm_compute. left. reflexivity.
Defined.

(** Inverted and non-positive candidates leave no entry. *)
Example dropped_candidates :
  DA.priceRanges (DA.parseNCRFormat ["48.00-45.00"; "0.00-5.00"] "NCR" DA.DATE) = [] /\
  DA.priceRanges (DA.parseRXFormat ["0.005.005.005.005.005.00"] "RX" DA.DATE) = [].
Proof. split; vm_compute; reflexivity. Qed.

(** ** C6 *)






(** The amended claim is proved with the other claims on patterns, after
    the properties of the matcher they use. *)

(** ** C7 *)

Lemma doe_price_entry_spec region date fuel line w :
  DOE.not_price_line line = false ->
  DOE.price_entry region date fuel line w =
    map (fuel_entry region date fuel) (fuel_prices [w]).
Proof.
  intro N. unfold DOE.price_entry, fuel_prices. simpl.
  destruct (JS.parseFloat w) as [q|]; [|reflexivity].
  rewrite N. unfold JS.Qltb, JS.Qleb.
  destruct (Qle_bool q 0) eqn:E1; simpl; [reflexivity|].
  destruct (Qle_bool q 200) eqn:E2; simpl; reflexivity.
Qed.

Lemma doe_line_entries_spec region date fuel line :
  DOE.not_price_line line = false ->
  DOE.line_entries region date fuel line =
    map (fuel_entry region date fuel) (fuel_prices (match_all line DOE.priceToken)).
Proof.
  intro N. unfold DOE.line_entries.
  induction (match_all line DOE.priceToken) as [|w ws IH]; [reflexivity|].
  cbn [flat_map]. rewrite IH, (doe_price_entry_spec _ _ _ _ _ N).
  unfold fuel_prices. cbn [flat_map]. rewrite app_nil_r, map_app. reflexivity.
Qed.

(** C7, as stated, fails: a line that contains [page], [none] or [monitoring]
    pushes nothing, whatever numbers it holds.  Under [RON 95] the line
    [Page 12.50] holds the two-decimal number 12.50, in (0, 200], and no
    entry is returned. *)
Lemma doe_page_line_pushes_nothing :
  match_all "Page 12.50" DOE.priceToken = ["12.50"] /\
  JS.parseFloat "12.50" = Some (25 # 2) /\
  DOE.parseLines ["RON 95"; "Page 12.50"] "Luzon" DOE.DATE = [] /\
  ~ (forall lines region date fuel acc raw w q,
        fold_left (DOE.step region date) lines (None, []) = (Some fuel, acc) ->
        In w (match_all (JS.trim raw) DOE.priceToken) ->
        JS.parseFloat w = Some q -> (0 < q)%Q -> (q <= 200)%Q ->
        In (fuel_entry region date fuel q)
           (snd (DOE.step region date (Some fuel, acc) raw))).
Proof.
  split; [vm_compute; reflexivity|].
  split; [vm_compute; reflexivity|].
  split; [vm_compute; reflexivity|].
  intro H.
  specialize (H ["RON 95"] "Luzon" DOE.DATE "RON 95" [] "Page 12.50" "12.50" (25 # 2)).
  assert (F : In (fuel_entry "Luzon" DOE.DATE "RON 95" (25 # 2))
                 (snd (DOE.step "Luzon" DOE.DATE (Some "RON 95", []) "Page 12.50"))).
  { apply H.
    - vm_compute. reflexivity.
    - vm_compute. left. reflexivity.
    - vm_compute. reflexivity.
    - reflexivity.
    - vm_compute. discriminate. }
  vm_compute in F. exact F.
Qed.

(** The amended claim is proved with the other claims on patterns, after
    the properties of the matcher they use. *)

(** ** C8 *)

Lemma existsb_variants (t : string) (vs : list string) :
  existsb (PriceNormalizer.variant_matches t) vs = true ->
  exists v, In v vs /\ PriceNormalizer.variant_matches t v = true.
Proof. intro H. apply existsb_exists in H. exact H. Qed.

(** C8.  [extractUnit] sends [per kilogram] to [per kg].  The variant [l] is
    accepted only when the lower-cased, trimmed text is exactly [l] or
    [per l]; hence a text is sent to [per liter] only if it is [l] or contains
    one of the written variants [per liter], [per l], [liter], [litro], and
    [gallon], which has the letter but none of these, is not. *)
Theorem extractUnit_single_letter_rule :
  PriceNormalizer.extractUnit "per kilogram" = "per kg" /\
  PriceNormalizer.extractUnit "l" = "per liter" /\
  PriceNormalizer.extractUnit "L" = "per liter" /\
  PriceNormalizer.extractUnit "per l" = "per liter" /\
  JS.includes "gallon" "l" = true /\
  PriceNormalizer.extractUnit "gallon" = "per unit" /\
  (forall lowerText,
      PriceNormalizer.variant_matches lowerText "l" = true <->
      lowerText = "l" \/ lowerText = "per l") /\
  (forall text,
      PriceNormalizer.extractUnit text = "per liter" ->
      let lowerText := JS.trim (JS.toLowerCase text) in
      lowerText = "l" \/
      JS.includes lowerText "per liter" = true \/
      JS.includes lowerText "per l" = true \/
      JS.includes lowerText "liter" = true \/
      JS.includes lowerText "litro" = true).
Proof.
  split; [vm_compute; reflexivity|].
  split; [vm_compute; reflexivity|].
  split; [vm_compute; reflexivity|].
  split; [vm_compute; reflexivity|].
  split; [vm_compute; reflexivity|].
  split; [vm_compute; reflexivity|].
  split.
  - intro t. unfold PriceNormalizer.variant_matches.
    change (String.eqb "l" "l") with true. cbv iota.
    rewrite orb_true_iff, !String.eqb_eq. reflexivity.
  - intros text H lowerText.
    unfold PriceNormalizer.extractUnit in H.
    destruct text as [|c text]; [discriminate|].
    fold lowerText in H.
    unfold PriceNormalizer.unitMap in H. cbn [PriceNormalizer.lookup_unit] in H.
    destruct (existsb (PriceNormalizer.variant_matches lowerText)
                      ["per kg"; "per kilogram"; "kg"; "kilogram"; "kilo"]);
      [discriminate|].
    destruct (existsb (PriceNormalizer.variant_matches lowerText)
                      ["per liter"; "per l"; "liter"; "litro"; "l"]) eqn:E.
    + clear H. apply existsb_variants in E. destruct E as (v & Hin & Hv).
      cbn [In] in Hin.
      destruct Hin as [<- | [<- | [<- | [<- | [<- | []]]]]];
        unfold PriceNormalizer.variant_matches in Hv; cbn [String.eqb Ascii.eqb Bool.eqb] in Hv.
      * right; left; exact Hv.
      * right; right; left; exact Hv.
      * right; right; right; left; exact Hv.
      * right; right; right; right; exact Hv.
      * apply orb_true_iff in Hv. rewrite !String.eqb_eq in Hv.
        destruct Hv as [-> | ->]; [left; reflexivity|].
        right; right; left. reflexivity.
    + repeat match type of H with
             | (if ?b then _ else _) = _ => destruct b; [discriminate|]
             end.
      discriminate.
Qed.

Lemma extractUnit_single_letter_rule_witness :
  JS.trim (JS.toLowerCase " Per L ") = "l" \/
  JS.includes (JS.trim (JS.toLowerCase " Per L ")) "per liter" = true \/
  JS.includes (JS.trim (JS.toLowerCase " Per L ")) "per l" = true \/
  JS.includes (JS.trim (JS.toLowerCase " Per L ")) "liter" = true \/
  JS.includes (JS.trim (JS.toLowerCase " Per L ")) "litro" = true.
Proof.
  destruct extractUnit_single_letter_rule as (_ & _ & _ & _ & _ & _ & _ & T).
  apply (T " Per L "). vm_compute. reflexivity.
Defined.

(** ** C9 *)

(** The claim is proved after the lemmas on the batch loops. *)

(** ** C10 *)

(** C10.  When the DTI parser returns more than ten entries and the file can
    be written, the entry point writes the first ten entries only (never the
    whole list) to [latest_prices_dti.json], while the line it prints first
    reports the number of all the entries. *)
Theorem dti_main_writes_first_ten (entries : list DTI.PriceRecord)
        (writeFileSync : list DTI.PriceRecord -> JS.result unit) :
  10 < List.length entries ->
  writeFileSync (firstn 10 entries) = JS.Ok tt ->
  let out := DTI.main (JS.Ok entries) writeFileSync in
  DTI.written out = Some (firstn 10 entries) /\
  List.length (firstn 10 entries) = 10 /\
  DTI.written out <> Some entries /\
  hd_error (DTI.console out) = Some (DTI.Found (List.length entries)).
Proof.
  intros Hlen Hw out. unfold out, DTI.main.
  destruct (List.length entries =? 0) eqn:E.
  { apply Nat.eqb_eq in E. lia. }
  cbv zeta. rewrite Hw. cbn [DTI.written DTI.console hd_error].
  assert (L : List.length (firstn 10 entries) = 10).
  { rewrite length_firstn. lia. }
  repeat split; try assumption.
  intro C. assert (C' : firstn 10 entries = entries) by congruence.
  rewrite C' in L. lia.
Qed.

Lemma dti_main_writes_first_ten_witness :
  DTI.written (DTI.main (JS.Ok eleven_entries) always_written) =
    Some (firstn 10 eleven_entries) /\
  List.length (firstn 10 eleven_entries) = 10 /\
  DTI.written (DTI.main (JS.Ok eleven_entries) always_written) <> Some eleven_entries /\
  hd_error (DTI.console (DTI.main (JS.Ok eleven_entries) always_written)) =
    Some (DTI.Found 11).
Proof.
  apply (dti_main_writes_first_ten eleven_entries always_written).
  - vm_compute. lia.
  - reflexivity.
Defined.

(* ================================================================== *)
(** * More of the code *)
(* ================================================================== *)

(** ** Letter case and white space *)

Lemma lower_upper_char (c : ascii) : JS.lower_char (JS.upper_char c) = JS.lower_char c.
Proof.
  destruct c as [b0 b1 b2 b3 b4 b5 b6 b7].
  destruct b0, b1, b2, b3, b4, b5, b6, b7; reflexivity.
Qed.

Lemma lower_lower_char (c : ascii) : JS.lower_char (JS.lower_char c) = JS.lower_char c.
Proof.
  destruct c as [b0 b1 b2 b3 b4 b5 b6 b7].
  destruct b0, b1, b2, b3, b4, b5, b6, b7; reflexivity.
Qed.

Lemma space_upper_char (c : ascii) : JS.is_space (JS.upper_char c) = JS.is_space c.
Proof.
  destruct c as [b0 b1 b2 b3 b4 b5 b6 b7].
  destruct b0, b1, b2, b3, b4, b5, b6, b7; reflexivity.
Qed.

Lemma space_lower_char (c : ascii) : JS.is_space (JS.lower_char c) = JS.is_space c.
Proof.
  destruct c as [b0 b1 b2 b3 b4 b5 b6 b7].
  destruct b0, b1, b2, b3, b4, b5, b6, b7; reflexivity.
Qed.

Lemma toLowerCase_toUpperCase (s : string) :
  JS.toLowerCase (JS.toUpperCase s) = JS.toLowerCase s.
Proof.
  unfold JS.toLowerCase, JS.toUpperCase.
  induction s as [|c s IH]; cbn [JS.map_chars]; [reflexivity|].
  rewrite lower_upper_char. f_equal. exact IH.
Qed.

Lemma toLowerCase_idem (s : string) :
  JS.toLowerCase (JS.toLowerCase s) = JS.toLowerCase s.
Proof.
  unfold JS.toLowerCase.
  induction s as [|c s IH]; cbn [JS.map_chars]; [reflexivity|].
  rewrite lower_lower_char. f_equal. exact IH.
Qed.

Lemma map_chars_empty f (s : string) :
  JS.map_chars f s = EmptyString <-> s = EmptyString.
Proof. destruct s; simpl; split; intro H; try reflexivity; discriminate. Qed.

(** A change of characters that keeps white space white and the rest not
    commutes with [trim]. *)
Section TrimMap.
Variable f : ascii -> ascii.
Hypothesis f_space : forall c, JS.is_space (f c) = JS.is_space c.

Lemma trimStart_map (s : string) :
  JS.trimStart (JS.map_chars f s) = JS.map_chars f (JS.trimStart s).
Proof.
  induction s as [|c s IH]; simpl; [reflexivity|].
  rewrite f_space. destruct (JS.is_space c); [exact IH | reflexivity].
Qed.

Lemma trimEnd_map (s : string) :
  JS.trimEnd (JS.map_chars f s) = JS.map_chars f (JS.trimEnd s).
Proof.
  induction s as [|c s IH]; simpl; [reflexivity|].
  rewrite IH, f_space.
  destruct (JS.trimEnd s); simpl; [destruct (JS.is_space c)|]; reflexivity.
Qed.

Lemma trim_map (s : string) :
  JS.trim (JS.map_chars f s) = JS.map_chars f (JS.trim s).
Proof. unfold JS.trim. rewrite trimStart_map, trimEnd_map. reflexivity. Qed.
End TrimMap.

Lemma trimEnd_idem (s : string) : JS.trimEnd (JS.trimEnd s) = JS.trimEnd s.
Proof.
  induction s as [|c s IH]; simpl; [reflexivity|].
  destruct (JS.trimEnd s) as [|d t] eqn:E.
  - destruct (JS.is_space c) eqn:Sp; simpl; [reflexivity|]. rewrite Sp. reflexivity.
  - simpl in *. rewrite IH. reflexivity.
Qed.

(** A text is trimmed at its start when it is empty or begins with a
    character that is not white space. *)
Lemma trimStart_head (s : string) :
  match JS.trimStart s with
  | EmptyString => True
  | String c _ => JS.is_space c = false
  end.
Proof.
  induction s as [|c s IH]; simpl; [exact I|].
  destruct (JS.is_space c) eqn:E; [exact IH | exact E].
Qed.

Lemma trimEnd_head (s : string) :
  match s with
  | EmptyString => True
  | String c _ => JS.is_space c = false
  end ->
  match JS.trimEnd s with
  | EmptyString => True
  | String c _ => JS.is_space c = false
  end.
Proof.
  destruct s as [|c s]; simpl; [auto|]. intro H.
  destruct (JS.trimEnd s); [rewrite H|]; exact H.
Qed.

Lemma trimStart_fixed (s : string) :
  match s with
  | EmptyString => True
  | String c _ => JS.is_space c = false
  end ->
  JS.trimStart s = s.
Proof.
  destruct s as [|c s]; simpl; [reflexivity|]. intro H. rewrite H. reflexivity.
Qed.

Lemma trim_idem (s : string) : JS.trim (JS.trim s) = JS.trim s.
Proof.
  unfold JS.trim.
  rewrite (trimStart_fixed (JS.trimEnd (JS.trimStart s))).
  - apply trimEnd_idem.
  - apply trimEnd_head, trimStart_head.
Qed.

(** ** Equations of [startsWith] and [includes] *)

Lemma startsWith_cons (a b : ascii) (p s : string) :
  JS.startsWith (String a p) (String b s) = (Ascii.eqb a b && JS.startsWith p s)%bool.
Proof. reflexivity. Qed.

Lemma includes_cons (c : ascii) (s sub : string) :
  JS.includes (String c s) sub = (JS.startsWith sub (String c s) || JS.includes s sub)%bool.
Proof. reflexivity. Qed.

(** ** The unit lexicon *)

Lemma lookup_unit_range (t : string) :
  In (PriceNormalizer.lookup_unit t PriceNormalizer.unitMap) canonical_units.
Proof.
  unfold PriceNormalizer.unitMap. cbn [PriceNormalizer.lookup_unit].
  repeat match goal with
         | |- context [if ?b then _ else _] => destruct b
         end; simpl; tauto.
Qed.

Lemma extractUnit_nonempty c t :
  PriceNormalizer.extractUnit (String c t) =
  PriceNormalizer.lookup_unit (JS.trim (JS.toLowerCase (String c t)))
                              PriceNormalizer.unitMap.
Proof. reflexivity. Qed.

Lemma extractUnit_range (text : string) :
  In (PriceNormalizer.extractUnit text) canonical_units.
Proof.
  unfold PriceNormalizer.extractUnit. destruct text.
  - simpl. tauto.
  - apply lookup_unit_range.
Qed.

(** X1.  [extractUnit] always returns one of the seven canonical units, and
    the answer does not depend on the letter case of the text. *)
Theorem extractUnit_canonical_and_case_blind (text : string) :
  In (PriceNormalizer.extractUnit text) canonical_units /\
  PriceNormalizer.extractUnit (JS.toUpperCase text) = PriceNormalizer.extractUnit text /\
  PriceNormalizer.extractUnit (JS.toLowerCase text) = PriceNormalizer.extractUnit text.
Proof.
  split; [|split].
  - apply extractUnit_range.
  - destruct text as [|c t]; [reflexivity|].
    change (JS.toUpperCase (String c t))
      with (String (JS.upper_char c) (JS.toUpperCase t)).
    rewrite !extractUnit_nonempty.
    change (String (JS.upper_char c) (JS.toUpperCase t))
      with (JS.toUpperCase (String c t)).
    rewrite toLowerCase_toUpperCase. reflexivity.
  - destruct text as [|c t]; [reflexivity|].
    change (JS.toLowerCase (String c t))
      with (String (JS.lower_char c) (JS.toLowerCase t)).
    rewrite !extractUnit_nonempty.
    change (String (JS.lower_char c) (JS.toLowerCase t))
      with (JS.toLowerCase (String c t)).
    rewrite toLowerCase_idem. reflexivity.
Qed.

(** ** The commodity categories of the DA parser *)

Lemma category_loop_range (t : string) :
  In (DA.category_loop t DA.COMMODITY_CATEGORIES) commodity_categories.
Proof.
  unfold DA.COMMODITY_CATEGORIES. cbn [DA.category_loop].
  repeat match goal with
         | |- context [if ?b then _ else _] => destruct b
         end; simpl; tauto.
Qed.

(** X2.  [normalizeCommodityType] always returns one of the nine categories,
    does not depend on letter case, and gives [rice] to every commodity whose
    name contains [rice], [special] or [premium], whatever else it names. *)
Theorem normalizeCommodityType_closed_and_rice_first (commodity : string) :
  In (DA.normalizeCommodityType commodity) commodity_categories /\
  DA.normalizeCommodityType (JS.toUpperCase commodity) =
    DA.normalizeCommodityType commodity /\
  ((JS.includes (JS.toLowerCase commodity) "rice" ||
    JS.includes (JS.toLowerCase commodity) "special" ||
    JS.includes (JS.toLowerCase commodity) "premium")%bool = true ->
   DA.normalizeCommodityType commodity = "rice").
Proof.
  split; [|split].
  - apply category_loop_range.
  - unfold DA.normalizeCommodityType. rewrite toLowerCase_toUpperCase. reflexivity.
  - unfold DA.normalizeCommodityType, DA.COMMODITY_CATEGORIES.
    cbn [DA.category_loop existsb]. intro H.
    destruct (JS.includes (JS.toLowerCase commodity) "rice"); [reflexivity|].
    destruct (JS.includes (JS.toLowerCase commodity) "special");
      [rewrite !orb_true_r; reflexivity|].
    destruct (JS.includes (JS.toLowerCase commodity) "premium");
      [rewrite !orb_true_r; reflexivity|].
    discriminate.
Qed.

Lemma normalizeCommodityType_closed_and_rice_first_witness :
  DA.normalizeCommodityType "Premium Pork Belly" = "rice".
Proof.
  apply (proj2 (proj2 (normalizeCommodityType_closed_and_rice_first "Premium Pork Belly"))).
  vm_compute. reflexivity.
Defined.

(** ** Region and source names *)

Lemma assoc_value key table v :
  JS.assoc key table = Some v -> In v (map snd table).
Proof.
  induction table as [|[k w] rest IH]; simpl; [discriminate|].
  destruct (String.eqb k key).
  - intro H. inversion H. left. reflexivity.
  - intro H. right. apply IH, H.
Qed.

Lemma in_existsb_eqb (v : string) (l : list string) :
  In v l -> existsb (String.eqb v) l = true.
Proof.
  intro H. apply existsb_exists. exists v. split; [exact H | apply String.eqb_refl].
Qed.

(** X3.  On string results [normalizeRegion] and [normalizeSource] are
    idempotent: a name they return is returned unchanged when given back (for
    the source, unless the name was blank: a blank source gives the empty
    string, which in turn gives [Unknown]).  The two inputs that lower-case
    to [constructor] or [__proto__] do not give a string at all but the
    member the table inherits under that name. *)
Theorem normalize_region_source_idempotent :
  (forall region v,
      PriceNormalizer.normalizeRegion region = JS.VString v ->
      PriceNormalizer.normalizeRegion v = JS.VString v) /\
  (forall source v,
      PriceNormalizer.normalizeSource source = JS.VString v ->
      v <> EmptyString ->
      PriceNormalizer.normalizeSource v = JS.VString v) /\
  PriceNormalizer.normalizeSource "  " = JS.VString "" /\
  PriceNormalizer.normalizeSource "" = JS.VString "Unknown" /\
  PriceNormalizer.normalizeRegion "Constructor" = JS.VInherited "constructor".
Proof.
  split; [|split; [|repeat split; vm_compute; reflexivity]].
  - intros region v H. unfold PriceNormalizer.normalizeRegion in H.
    destruct region as [|c r]; [inversion H; reflexivity|].
    unfold JS.lookup_or in H.
    destruct (JS.assoc (JS.toLowerCase (JS.trim (String c r)))
                       PriceNormalizer.regionMap) as [w|] eqn:A.
    + apply assoc_value in A.
      assert (F : Forall (fun x => PriceNormalizer.normalizeRegion x = JS.VString x)
                         (map snd PriceNormalizer.regionMap))
        by (repeat constructor).
      rewrite Forall_forall in F. specialize (F w A).
      destruct w; inversion H; subst; [|exact F].
      apply in_existsb_eqb in A. vm_compute in A. discriminate.
    + destruct (existsb _ JS.object_prototype_keys) eqn:P; [discriminate|].
      inversion H; subst; clear H.
      destruct (JS.trim (String c r)) as [|d t] eqn:T; [reflexivity|].
      assert (E : JS.trim (String d t) = String d t)
        by (rewrite <- T; apply trim_idem).
      unfold PriceNormalizer.normalizeRegion, JS.lookup_or.
      rewrite E, A, P. reflexivity.
  - intros source v H Hv. unfold PriceNormalizer.normalizeSource in H.
    destruct source as [|c r]; [inversion H; subst; vm_compute; reflexivity|].
    unfold JS.lookup_or in H.
    destruct (JS.assoc (JS.toLowerCase (JS.trim (String c r)))
                       PriceNormalizer.sourceMap) as [w|] eqn:A.
    + apply assoc_value in A.
      assert (F : Forall (fun x => PriceNormalizer.normalizeSource x = JS.VString x)
                         (map snd PriceNormalizer.sourceMap))
        by (repeat constructor).
      rewrite Forall_forall in F. specialize (F w A).
      destruct w; inversion H; subst; [|exact F].
      apply in_existsb_eqb in A. vm_compute in A. discriminate.
    + destruct (existsb _ JS.object_prototype_keys) eqn:P; [discriminate|].
      inversion H; subst; clear H.
      destruct (JS.trim (String c r)) as [|d t] eqn:T; [congruence|].
      assert (E : JS.trim (String d t) = String d t)
        by (rewrite <- T; apply trim_idem).
      unfold PriceNormalizer.normalizeSource, JS.lookup_or.
      rewrite E, A, P. reflexivity.
Qed.

Lemma normalize_region_source_idempotent_witness :
  PriceNormalizer.normalizeRegion "NCR" = JS.VString "NCR" /\
  PriceNormalizer.normalizeSource "Local Market" = JS.VString "Local Market".
Proof.
  destruct normalize_region_source_idempotent as (R & S & _).
  split.
  - apply (R " Metro Manila "). vm_compute. reflexivity.
  - apply (S "MARKET"); [vm_compute; reflexivity | discriminate].
Defined.

(** ** Characters kept by the text functions *)

Lemma all_chars_app p (a b : string) :
  all_chars p (a ++ b) = (all_chars p a && all_chars p b)%bool.
Proof.
  induction a as [|c a IH]; simpl; [reflexivity|].
  rewrite IH, andb_assoc. reflexivity.
Qed.

Lemma all_chars_impl (p q : ascii -> bool) (s : string) :
  (forall c, p c = true -> q c = true) ->
  all_chars p s = true -> all_chars q s = true.
Proof.
  intro H. induction s as [|c s IH]; simpl; [auto|].
  rewrite !andb_true_iff. intros [H1 H2]. split; [apply H, H1 | apply IH, H2].
Qed.

Lemma all_chars_trimStart p (s : string) :
  all_chars p s = true -> all_chars p (JS.trimStart s) = true.
Proof.
  induction s as [|c s IH]; simpl; [auto|].
  rewrite andb_true_iff. intros [H1 H2].
  destruct (JS.is_space c); [apply IH, H2|]. simpl. rewrite H1, H2. reflexivity.
Qed.

Lemma all_chars_trimEnd p (s : string) :
  all_chars p s = true -> all_chars p (JS.trimEnd s) = true.
Proof.
  induction s as [|c s IH]; simpl; [auto|].
  rewrite andb_true_iff. intros [H1 H2]. specialize (IH H2).
  destruct (JS.trimEnd s) as [|d t].
  - destruct (JS.is_space c); simpl; [reflexivity | rewrite H1; reflexivity].
  - simpl in *. rewrite H1, IH. reflexivity.
Qed.

Lemma all_chars_trim p (s : string) :
  all_chars p s = true -> all_chars p (JS.trim s) = true.
Proof. intro H. apply all_chars_trimEnd, all_chars_trimStart, H. Qed.

Lemma all_chars_filter p (s : string) : all_chars p (JS.filter_chars p s) = true.
Proof.
  induction s as [|c s IH]; simpl; [reflexivity|].
  destruct (p c) eqn:E; simpl; [rewrite E|]; exact IH.
Qed.

Lemma all_chars_filter_keeps p q (s : string) :
  all_chars q s = true -> all_chars q (JS.filter_chars p s) = true.
Proof.
  induction s as [|c s IH]; simpl; [auto|].
  rewrite andb_true_iff. intros [H1 H2].
  destruct (p c); simpl; [rewrite H1|]; apply IH, H2.
Qed.

Lemma all_chars_map p f (s : string) :
  (forall c, p (f c) = true) -> all_chars p (JS.map_chars f s) = true.
Proof.
  intro H. induction s as [|c s IH]; simpl; [reflexivity|].
  rewrite H, IH. reflexivity.
Qed.

(** A text without white space is its own [trim]. *)
Lemma trim_without_space (s : string) :
  all_chars (fun c => negb (JS.is_space c)) s = true -> JS.trim s = s.
Proof.
  intro H. unfold JS.trim.
  assert (S1 : JS.trimStart s = s).
  { destruct s as [|c s]; [reflexivity|]. simpl in *.
    apply andb_true_iff in H. destruct H as [H _].
    apply negb_true_iff in H. rewrite H. reflexivity. }
  rewrite S1. clear S1.
  induction s as [|c s IH]; simpl; [reflexivity|].
  simpl in H. apply andb_true_iff in H. destruct H as [H1 H2].
  rewrite (IH H2). apply negb_true_iff in H1.
  destruct s; [rewrite H1|]; reflexivity.
Qed.

Lemma collapse_spaces_plain (s : string) :
  forall in_run, all_chars plain_space_only (JS.collapse_spaces in_run s) = true.
Proof.
  induction s as [|c s IH]; intro in_run; simpl; [reflexivity|].
  destruct (JS.is_space c) eqn:E.
  - destruct in_run; simpl; [apply IH | rewrite IH; reflexivity].
  - simpl. unfold plain_space_only at 1. rewrite E, IH. reflexivity.
Qed.

(** ** [cleanText] *)

Lemma blank_control_plain (c : ascii) :
  plain_space_only c = true -> PriceNormalizer.blank_control c = c.
Proof.
  destruct c as [b0 b1 b2 b3 b4 b5 b6 b7].
  destruct b0, b1, b2, b3, b4, b5, b6, b7; intro H;
    first [discriminate H | reflexivity].
Qed.

Lemma map_blank_control_plain (s : string) :
  all_chars plain_space_only s = true ->
  JS.map_chars PriceNormalizer.blank_control s = s.
Proof.
  induction s as [|c s IH]; simpl; [reflexivity|].
  rewrite andb_true_iff. intros [H1 H2].
  rewrite (blank_control_plain c H1), (IH H2). reflexivity.
Qed.

Lemma all_chars_remove_unclean p (s : string) :
  forall keep, all_chars p s = true ->
               all_chars p (PriceNormalizer.remove_unclean keep s) = true.
Proof.
  induction s as [|c s IH]; intros keep; [destruct keep; reflexivity|].
  intro H. pose proof H as H'. simpl in H'. apply andb_true_iff in H'.
  destruct H' as [H1 H2].
  destruct keep as [|n]; cbn [PriceNormalizer.remove_unclean].
  - destruct (JS.startsWith _ (String c s)).
    + simpl. rewrite H1. apply IH, H2.
    + destruct (PriceNormalizer.clean_char c); [simpl; rewrite H1|]; apply IH, H2.
  - simpl. rewrite H1. apply IH, H2.
Qed.

(** The bytes of a peso sign are copied, every other character is kept only
    if the class of [cleanText] has it. *)
Lemma remove_unclean_kept (s : string) :
  forall keep, keep <= 2 -> JS.startsWith (peso_tail keep) s = true ->
               all_chars kept_char (PriceNormalizer.remove_unclean keep s) = true.
Proof.
  induction s as [|c s IH]; intros keep L H; [destruct keep; reflexivity|].
  destruct keep as [|[|[|keep]]]; [| | |lia];
    cbn [PriceNormalizer.remove_unclean].
  - destruct (JS.startsWith "₱" (String c s)) eqn:P.
    + rewrite startsWith_cons in P. apply andb_true_iff in P. destruct P as [E P].
      apply Ascii.eqb_eq in E. subst c. cbn [all_chars].
      rewrite (IH 2 (le_n 2) P). reflexivity.
    + destruct (PriceNormalizer.clean_char c) eqn:C.
      * cbn [all_chars]. unfold kept_char at 1. rewrite C.
        rewrite (IH 0 (Nat.le_0_l 2) eq_refl). reflexivity.
      * apply (IH 0 (Nat.le_0_l 2) eq_refl).
  - unfold peso_tail in H. cbn [substring Nat.sub] in H.
    rewrite startsWith_cons in H. apply andb_true_iff in H. destruct H as [E _].
    apply Ascii.eqb_eq in E. subst c. cbn [all_chars].
    rewrite (IH 0 (Nat.le_0_l 2) eq_refl). reflexivity.
  - unfold peso_tail in H. cbn [substring Nat.sub] in H.
    rewrite startsWith_cons in H. apply andb_true_iff in H. destruct H as [E H].
    apply Ascii.eqb_eq in E. subst c. cbn [all_chars].
    rewrite (IH 1 (le_S 1 1 (le_n 1))); [reflexivity|].
    exact H.
Qed.

(** X4.  The text [cleanText] returns is made of word characters, spaces,
    hyphens, dots, commas and peso signs only, has no white space at either
    end, and no white-space character other than the plain space (tabs and
    line breaks are gone); its second replacement, of [\r], [\n] and [\t],
    never finds anything to replace.  Two spaces in a row can remain where a
    removed character stood between spaces, so [cleanText] is not
    idempotent. *)
Theorem cleanText_output_shape :
  (forall text,
      all_chars kept_char (PriceNormalizer.cleanText text) = true /\
      JS.trim (PriceNormalizer.cleanText text) = PriceNormalizer.cleanText text /\
      all_chars plain_space_only (PriceNormalizer.cleanText text) = true /\
      JS.map_chars PriceNormalizer.blank_control (JS.replace_ws_runs (JS.trim text))
        = JS.replace_ws_runs (JS.trim text)) /\
  PriceNormalizer.cleanText "06/26/2025: ₱45.50 (kg)" = "06262025 ₱45.50 kg" /\
  PriceNormalizer.cleanText "a @ b" = "a  b" /\
  PriceNormalizer.cleanText (PriceNormalizer.cleanText "a @ b") = "a b".
Proof.
  split; [|repeat split; vm_compute; reflexivity].
  intro text.
  assert (P : all_chars plain_space_only (JS.replace_ws_runs (JS.trim text)) = true)
    by apply collapse_spaces_plain.
  split; [|split; [|split]].
  - unfold PriceNormalizer.cleanText. destruct text; [reflexivity|].
    apply all_chars_trim, remove_unclean_kept; [lia | reflexivity].
  - unfold PriceNormalizer.cleanText. destruct text; [reflexivity|]. apply trim_idem.
  - unfold PriceNormalizer.cleanText. destruct text; [reflexivity|].
    apply all_chars_trim, all_chars_remove_unclean.
    rewrite (map_blank_control_plain _ P). exact P.
  - apply map_blank_control_plain, P.
Qed.

(** ** [normalizeCommodityName] *)

Lemma name_char_upper (c : ascii) :
  PriceNormalizer.name_char c = true ->
  PriceNormalizer.name_char (JS.upper_char c) = true.
Proof.
  destruct c as [b0 b1 b2 b3 b4 b5 b6 b7].
  destruct b0, b1, b2, b3, b4, b5, b6, b7; intro H;
    first [discriminate H | reflexivity].
Qed.

Lemma split_chars p sep (s : string) :
  all_chars p s = true ->
  Forall (fun w => all_chars p w = true) (JS.split sep s).
Proof.
  induction s as [|c s IH]; simpl.
  - intros _. constructor; [reflexivity | constructor].
  - rewrite andb_true_iff. intros [H1 H2]. specialize (IH H2).
    destruct (Ascii.eqb c sep).
    + constructor; [reflexivity | exact IH].
    + destruct (JS.split sep s) as [|w ws].
      * constructor; [simpl; rewrite H1; reflexivity | constructor].
      * inversion IH; subst. constructor; [simpl; rewrite H1; assumption | assumption].
Qed.

Lemma join_chars p sep (ws : list string) :
  all_chars p sep = true ->
  Forall (fun w => all_chars p w = true) ws ->
  all_chars p (JS.join sep ws) = true.
Proof.
  intros Hs. induction ws as [|w ws IH]; intro H; [reflexivity|].
  inversion H as [|? ? Hw Hws]; subst.
  destruct ws as [|w2 ws]; [exact Hw|].
  change (JS.join sep (w :: w2 :: ws)) with (w ++ sep ++ JS.join sep (w2 :: ws)).
  rewrite !all_chars_app, Hw, Hs, (IH Hws). reflexivity.
Qed.

Lemma capitalize_chars (w : string) :
  all_chars PriceNormalizer.name_char w = true ->
  all_chars PriceNormalizer.name_char (PriceNormalizer.capitalize w) = true.
Proof.
  destruct w as [|c w]; simpl; [auto|].
  rewrite !andb_true_iff. intros [H1 H2]. split; [apply name_char_upper, H1 | exact H2].
Qed.

(** X5.  [normalizeCommodityName] does not depend on the letter case of the
    name, and what it returns is made of word characters, spaces and hyphens
    only.  The result is not always trimmed: a removed character at the start
    leaves the space that followed it. *)
Theorem normalizeCommodityName_case_blind_and_plain (name : string) :
  PriceNormalizer.normalizeCommodityName (JS.toUpperCase name) =
    PriceNormalizer.normalizeCommodityName name /\
  all_chars PriceNormalizer.name_char (PriceNormalizer.normalizeCommodityName name)
    = true /\
  PriceNormalizer.normalizeCommodityName "@ rice" = " Rice".
Proof.
  split; [|split; [|vm_compute; reflexivity]].
  - destruct name as [|c n]; [reflexivity|].
    change (JS.toUpperCase (String c n))
      with (String (JS.upper_char c) (JS.toUpperCase n)).
    unfold PriceNormalizer.normalizeCommodityName.
    change (String (JS.upper_char c) (JS.toUpperCase n))
      with (JS.toUpperCase (String c n)).
    unfold JS.toUpperCase at 1.
    rewrite (trim_map JS.upper_char space_upper_char).
    fold (JS.toUpperCase (JS.trim (String c n))).
    rewrite toLowerCase_toUpperCase. reflexivity.
  - unfold PriceNormalizer.normalizeCommodityName.
    destruct name as [|c n]; [reflexivity|].
    apply join_chars; [reflexivity|].
    apply Forall_forall. intros w Hw. apply in_map_iff in Hw.
    destruct Hw as (w0 & <- & Hw0).
    apply capitalize_chars.
    pose proof (split_chars PriceNormalizer.name_char " "
                  (JS.filter_chars PriceNormalizer.name_char
                     (JS.replace_ws_runs (JS.toLowerCase (JS.trim (String c n)))))
                  (all_chars_filter _ _)) as F.
    rewrite Forall_forall in F. apply F, Hw0.
Qed.

(** ** [validatePriceData] *)

(** X6.  A record accepted by [validatePriceData] has a price above zero, a
    canonical unit, and came from data whose commodity, price and region were
    all present and whose date was valid; [null] data gives [null]. *)
Theorem validatePriceData_accepts_only_sound_data
        (DateInput DateValue : Type) (newDate : DateInput -> option DateValue)
        (d : PriceNormalizer.PriceData DateInput)
        (out : PriceNormalizer.CleanPriceData DateValue) :
  PriceNormalizer.validatePriceData DateInput DateValue newDate (Some d) = Some out ->
  (0 < PriceNormalizer.price DateValue out)%Q /\
  PriceNormalizer.extractPrice
    (PriceNormalizer.or_empty (PriceNormalizer.pd_price DateInput d))
    = Some (PriceNormalizer.price DateValue out) /\
  In (PriceNormalizer.unit_ DateValue out) canonical_units /\
  JS.truthy (PriceNormalizer.pd_commodity DateInput d) = true /\
  JS.truthy (PriceNormalizer.pd_price DateInput d) = true /\
  JS.truthy (PriceNormalizer.pd_region DateInput d) = true /\
  newDate (PriceNormalizer.pd_date DateInput d)
    = Some (PriceNormalizer.date DateValue out) /\
  PriceNormalizer.validatePriceData DateInput DateValue newDate None = None.
Proof.
  unfold PriceNormalizer.validatePriceData.
  destruct (JS.truthy (PriceNormalizer.pd_commodity DateInput d)); [|discriminate].
  destruct (JS.truthy (PriceNormalizer.pd_price DateInput d)); [|discriminate].
  destruct (JS.truthy (PriceNormalizer.pd_region DateInput d)); [|discriminate].
  cbn [andb negb].
  destruct (PriceNormalizer.extractPrice _) as [q|]; [|discriminate].
  destruct (JS.Qleb q 0) eqn:G; [discriminate|].
  destruct (newDate _) as [t|]; [|discriminate].
  intro H. inversion H; subst; clear H. cbn.
  repeat split.
  - apply Qnot_le_lt. intro L. apply Qleb_le in L. congruence.
  - apply extractUnit_range.
Qed.

Lemma validatePriceData_accepts_only_sound_data_witness :
  (0 < 91 # 2)%Q.
Proof.
  apply (validatePriceData_accepts_only_sound_data string string (fun x => Some x)
           (PriceNormalizer.mkPriceData string (Some "rice") (Some "₱45.50")
              (Some "ncr") (Some "kg") (Some "dti") "2025-06-26")
           (PriceNormalizer.mkClean string "Rice" (91 # 2) (JS.VString "NCR")
              "per kg" (JS.VString "DTI") "2025-06-26")).
  vm_compute. reflexivity.
Defined.

(** ** [generateSlug] *)

Lemma slug_char_lower (c : ascii) :
  PriceNormalizer.name_char (JS.lower_char c) = true ->
  (slug_char (JS.lower_char c) || JS.is_space (JS.lower_char c))%bool = true.
Proof.
  destruct c as [b0 b1 b2 b3 b4 b5 b6 b7].
  destruct b0, b1, b2, b3, b4, b5, b6, b7; intro H;
    first [discriminate H | reflexivity].
Qed.

Lemma filter_lower_chars (s : string) :
  all_chars (fun c => (slug_char c || JS.is_space c)%bool)
            (JS.filter_chars PriceNormalizer.name_char (JS.toLowerCase s)) = true.
Proof.
  unfold JS.toLowerCase.
  induction s as [|c s IH]; simpl; [reflexivity|].
  destruct (PriceNormalizer.name_char (JS.lower_char c)) eqn:E; [|exact IH].
  simpl. rewrite (slug_char_lower c E), IH. reflexivity.
Qed.

Lemma collapse_space_runs_slug (s : string) :
  forall in_run,
    all_chars (fun c => (slug_char c || JS.is_space c)%bool) s = true ->
    all_chars slug_char (JS.collapse_runs JS.is_space "-" in_run s) = true.
Proof.
  induction s as [|c s IH]; intros in_run; cbn [all_chars JS.collapse_runs];
    [auto|].
  rewrite andb_true_iff. intros [H1 H2].
  destruct (JS.is_space c) eqn:E.
  - destruct in_run; [apply IH, H2|].
    cbn [all_chars]. rewrite (IH true H2). reflexivity.
  - rewrite orb_false_r in H1. cbn [all_chars]. rewrite H1. apply IH, H2.
Qed.

Lemma collapse_hyphen_runs_slug (s : string) :
  forall in_run,
    all_chars slug_char s = true ->
    all_chars slug_char
      (JS.collapse_runs (fun c => Ascii.eqb c "-") "-" in_run s) = true.
Proof.
  induction s as [|c s IH]; intros in_run; simpl; [auto|].
  rewrite andb_true_iff. intros [H1 H2].
  destruct (Ascii.eqb c "-").
  - destruct in_run; simpl; [apply IH, H2 | rewrite (IH true H2); reflexivity].
  - simpl. rewrite H1. apply IH, H2.
Qed.

(** After the runs of hyphens are collapsed no two hyphens are adjacent; in
    the middle of a run ([in_run]) the text to come does not start with
    one. *)
Lemma collapse_hyphen_runs_single (s : string) :
  forall in_run,
    JS.includes (JS.collapse_runs (fun c => Ascii.eqb c "-") "-" in_run s) "--" = false /\
    (in_run = true ->
     JS.startsWith "-" (JS.collapse_runs (fun c => Ascii.eqb c "-") "-" in_run s) = false).
Proof.
  induction s as [|c s IH]; intros in_run.
  - split; [reflexivity | intros _; reflexivity].
  - cbn [JS.collapse_runs].
    destruct (Ascii.eqb c "-") eqn:E.
    + destruct in_run.
      * destruct (IH true) as [I1 I2]. split; [exact I1 | intros _; apply I2; reflexivity].
      * destruct (IH true) as [I1 I2]. split; [|discriminate].
        specialize (I2 eq_refl).
        rewrite includes_cons, I1, orb_false_r, startsWith_cons, I2.
        apply andb_false_r.
    + destruct (IH false) as [I1 _]. split.
      * rewrite includes_cons, I1, orb_false_r, startsWith_cons, Ascii.eqb_sym, E.
        reflexivity.
      * intros _. rewrite startsWith_cons, Ascii.eqb_sym, E. reflexivity.
Qed.

Lemma slug_char_not_space (c : ascii) :
  slug_char c = true -> negb (JS.is_space c) = true.
Proof.
  destruct c as [b0 b1 b2 b3 b4 b5 b6 b7].
  destruct b0, b1, b2, b3, b4, b5, b6, b7; intro H;
    first [discriminate H | reflexivity].
Qed.

(** X7.  A slug made by [generateSlug] consists of lower-case letters,
    digits, underscores and hyphens only, and never has two hyphens in a row.
    Hyphens at either end stay: the final [trim("-")] is a plain [trim],
    which finds no white space left to remove. *)
Theorem generateSlug_is_url_safe (name : string) :
  all_chars slug_char (DAScraper.generateSlug name) = true /\
  JS.includes (DAScraper.generateSlug name) "--" = false /\
  DAScraper.generateSlug " Red  Onion! " = "-red-onion-".
Proof.
  assert (A : all_chars slug_char
                (JS.collapse_runs (fun c => Ascii.eqb c "-") "-" false
                   (JS.collapse_runs JS.is_space "-" false
                      (JS.filter_chars PriceNormalizer.name_char
                         (JS.toLowerCase name)))) = true).
  { apply collapse_hyphen_runs_slug, collapse_space_runs_slug, filter_lower_chars. }
  assert (T : DAScraper.generateSlug name =
              JS.collapse_runs (fun c => Ascii.eqb c "-") "-" false
                (JS.collapse_runs JS.is_space "-" false
                   (JS.filter_chars PriceNormalizer.name_char (JS.toLowerCase name)))).
  { unfold DAScraper.generateSlug. apply trim_without_space.
    eapply all_chars_impl; [|exact A]. exact slug_char_not_space. }
  rewrite T. split; [exact A|]. split.
  - apply collapse_hyphen_runs_single.
  - vm_compute. reflexivity.
Qed.

(** ** One kind of entry per bulletin *)

(** X8.  A DA bulletin gives entries of one kind only: the NCR and RX
    parsers never return a single-price entry, and every other region, read
    by the generic parser, never returns a range entry. *)
Theorem da_bulletin_has_one_kind_of_entry (text region date : string) :
  (if (String.eqb region "NCR" || String.eqb region "RX")%bool
   then DA.results (DA.extractPricesFromText text region date) = []
   else DA.priceRanges (DA.extractPricesFromText text region date) = []) /\
  (DA.results (DA.extractPricesFromText text region date) = [] \/
   DA.priceRanges (DA.extractPricesFromText text region date) = []).
Proof.
  unfold DA.extractPricesFromText.
  destruct (String.eqb region "NCR"); [split; [|left]; reflexivity|].
  destruct (String.eqb region "RX"); [split; [|left]; reflexivity|].
  cbn [orb]. split; [|right]; apply parseGenericFormat_no_range.
Qed.

(** ** Batches *)

Section Batches.
Variable readFileSync : string -> JS.result string.
Variable pdf : string -> JS.result string.

Lemma da_batch_step_split acc f :
  DA.allResults (DA.batch_step readFileSync pdf acc f) =
    (DA.allResults acc ++
     DA.allResults (DA.batch_step readFileSync pdf (DA.mkBatch [] [] []) f))%list /\
  DA.allPriceRanges (DA.batch_step readFileSync pdf acc f) =
    (DA.allPriceRanges acc ++
     DA.allPriceRanges (DA.batch_step readFileSync pdf (DA.mkBatch [] [] []) f))%list /\
  DA.errors (DA.batch_step readFileSync pdf acc f) =
    (DA.errors acc ++
     DA.errors (DA.batch_step readFileSync pdf (DA.mkBatch [] [] []) f))%list.
Proof.
  unfold DA.batch_step.
  destruct (DA.parseDAPDF readFileSync pdf (DA.path f) (DA.pdf_region f));
    cbn; rewrite ?app_nil_r; auto.
Qed.

Lemma da_batch_from acc (l : list DA.PdfFile) :
  forall acc0, acc0 = acc ->
  DA.allResults (fold_left (DA.batch_step readFileSync pdf) l acc0) =
    (DA.allResults acc ++
     flat_map (fun f => DA.allResults
                          (DA.batch_step readFileSync pdf (DA.mkBatch [] [] []) f)) l)%list /\
  DA.allPriceRanges (fold_left (DA.batch_step readFileSync pdf) l acc0) =
    (DA.allPriceRanges acc ++
     flat_map (fun f => DA.allPriceRanges
                          (DA.batch_step readFileSync pdf (DA.mkBatch [] [] []) f)) l)%list /\
  DA.errors (fold_left (DA.batch_step readFileSync pdf) l acc0) =
    (DA.errors acc ++
     flat_map (fun f => DA.errors
                          (DA.batch_step readFileSync pdf (DA.mkBatch [] [] []) f)) l)%list.
Proof.
  revert acc. induction l as [|f l IH]; intros acc acc0 ->; cbn [fold_left flat_map].
  - rewrite !app_nil_r. auto.
  - destruct (IH (DA.batch_step readFileSync pdf acc f) _ eq_refl) as (I1 & I2 & I3).
    destruct (da_batch_step_split acc f) as (S1 & S2 & S3).
    rewrite I1, I2, I3, S1, S2, S3, <- !app_assoc. auto.
Qed.

Lemma doe_batch_step_split acc f :
  DOE.allResults (DOE.batch_step readFileSync pdf acc f) =
    (DOE.allResults acc ++
     DOE.allResults (DOE.batch_step readFileSync pdf (DOE.mkBatch [] []) f))%list /\
  DOE.errors (DOE.batch_step readFileSync pdf acc f) =
    (DOE.errors acc ++
     DOE.errors (DOE.batch_step readFileSync pdf (DOE.mkBatch [] []) f))%list.
Proof.
  unfold DOE.batch_step.
  destruct (DOE.parseDOEPDF readFileSync pdf (DOE.path f) (DOE.pdf_region f));
    cbn; rewrite ?app_nil_r; auto.
Qed.

Lemma doe_batch_from acc (l : list DOE.PdfFile) :
  forall acc0, acc0 = acc ->
  DOE.allResults (fold_left (DOE.batch_step readFileSync pdf) l acc0) =
    (DOE.allResults acc ++
     flat_map (fun f => DOE.allResults
                          (DOE.batch_step readFileSync pdf (DOE.mkBatch [] []) f)) l)%list /\
  DOE.errors (fold_left (DOE.batch_step readFileSync pdf) l acc0) =
    (DOE.errors acc ++
     flat_map (fun f => DOE.errors
                          (DOE.batch_step readFileSync pdf (DOE.mkBatch [] []) f)) l)%list.
Proof.
  revert acc. induction l as [|f l IH]; intros acc acc0 ->; cbn [fold_left flat_map].
  - rewrite !app_nil_r. auto.
  - destruct (IH (DOE.batch_step readFileSync pdf acc f) _ eq_refl) as (I1 & I2).
    destruct (doe_batch_step_split acc f) as (S1 & S2).
    rewrite I1, I2, S1, S2, <- !app_assoc. auto.
Qed.
End Batches.

(** X9.  A batch can be cut anywhere: parsing the files of [l1 ++ l2] gives
    the entries, the range entries and the error lines of [l1] followed by
    those of [l2], for the DA and for the DOE driver. *)
Theorem batch_of_concatenation readFileSync pdf :
  (forall l1 l2,
      DA.allResults (DA.parseAllDAPDFs readFileSync pdf (l1 ++ l2)) =
        (DA.allResults (DA.parseAllDAPDFs readFileSync pdf l1) ++
         DA.allResults (DA.parseAllDAPDFs readFileSync pdf l2))%list /\
      DA.allPriceRanges (DA.parseAllDAPDFs readFileSync pdf (l1 ++ l2)) =
        (DA.allPriceRanges (DA.parseAllDAPDFs readFileSync pdf l1) ++
         DA.allPriceRanges (DA.parseAllDAPDFs readFileSync pdf l2))%list /\
      DA.errors (DA.parseAllDAPDFs readFileSync pdf (l1 ++ l2)) =
        (DA.errors (DA.parseAllDAPDFs readFileSync pdf l1) ++
         DA.errors (DA.parseAllDAPDFs readFileSync pdf l2))%list) /\
  (forall l1 l2,
      DOE.allResults (DOE.parseAllDOEPDFs readFileSync pdf (l1 ++ l2)) =
        (DOE.allResults (DOE.parseAllDOEPDFs readFileSync pdf l1) ++
         DOE.allResults (DOE.parseAllDOEPDFs readFileSync pdf l2))%list /\
      DOE.errors (DOE.parseAllDOEPDFs readFileSync pdf (l1 ++ l2)) =
        (DOE.errors (DOE.parseAllDOEPDFs readFileSync pdf l1) ++
         DOE.errors (DOE.parseAllDOEPDFs readFileSync pdf l2))%list).
Proof.
  split; intros l1 l2.
  - unfold DA.parseAllDAPDFs.
    destruct (da_batch_from readFileSync pdf (DA.mkBatch [] [] []) (l1 ++ l2) _ eq_refl)
      as (A1 & A2 & A3).
    destruct (da_batch_from readFileSync pdf (DA.mkBatch [] [] []) l1 _ eq_refl)
      as (B1 & B2 & B3).
    destruct (da_batch_from readFileSync pdf (DA.mkBatch [] [] []) l2 _ eq_refl)
      as (C1 & C2 & C3).
    rewrite A1, A2, A3, B1, B2, B3, C1, C2, C3, !flat_map_app. cbn. auto.
  - unfold DOE.parseAllDOEPDFs.
    destruct (doe_batch_from readFileSync pdf (DOE.mkBatch [] []) (l1 ++ l2) _ eq_refl)
      as (A1 & A2).
    destruct (doe_batch_from readFileSync pdf (DOE.mkBatch [] []) l1 _ eq_refl)
      as (B1 & B2).
    destruct (doe_batch_from readFileSync pdf (DOE.mkBatch [] []) l2 _ eq_refl)
      as (C1 & C2).
    rewrite A1, A2, B1, B2, C1, C2, !flat_map_app. cbn. auto.
Qed.

(** X10.  Every entry of a DA batch carries the name of a file of the batch
    that could be parsed, and the batch logs exactly one error line for each
    file that could not: entries and error lines never outnumber the files
    they come from. *)
Theorem da_batch_entries_are_tagged readFileSync pdf (l : list DA.PdfFile) :
  (forall r, In r (DA.allResults (DA.parseAllDAPDFs readFileSync pdf l)) ->
     exists f parsed,
       In f l /\
       DA.parseDAPDF readFileSync pdf (DA.path f) (DA.pdf_region f) = JS.Ok parsed /\
       DA.p_filename r = Some (DA.pdf_filename f)) /\
  (forall r, In r (DA.allPriceRanges (DA.parseAllDAPDFs readFileSync pdf l)) ->
     exists f parsed,
       In f l /\
       DA.parseDAPDF readFileSync pdf (DA.path f) (DA.pdf_region f) = JS.Ok parsed /\
       DA.filename r = Some (DA.pdf_filename f)) /\
  List.length (DA.errors (DA.parseAllDAPDFs readFileSync pdf l)) =
    List.length
      (filter (fun f =>
                 match DA.parseDAPDF readFileSync pdf (DA.path f) (DA.pdf_region f) with
                 | JS.Ok _ => false
                 | JS.Throw _ => true
                 end) l).
Proof.
  unfold DA.parseAllDAPDFs.
  destruct (da_batch_from readFileSync pdf (DA.mkBatch [] [] []) l _ eq_refl)
    as (A1 & A2 & A3).
  rewrite A1, A2, A3. cbn [DA.allResults DA.allPriceRanges DA.errors app].
  split; [|split].
  - intros r H. apply in_flat_map in H. destruct H as (f & Hf & H).
    unfold DA.batch_step in H.
    destruct (DA.parseDAPDF readFileSync pdf (DA.path f) (DA.pdf_region f))
      as [parsed|msg] eqn:E; cbn in H; [|contradiction].
    apply in_map_iff in H. destruct H as (r0 & <- & _).
    exists f, parsed. auto.
  - intros r H. apply in_flat_map in H. destruct H as (f & Hf & H).
    unfold DA.batch_step in H.
    destruct (DA.parseDAPDF readFileSync pdf (DA.path f) (DA.pdf_region f))
      as [parsed|msg] eqn:E; cbn in H; [|contradiction].
    apply in_map_iff in H. destruct H as (r0 & <- & _).
    exists f, parsed. auto.
  - clear A1 A2 A3. induction l as [|f l IH]; [reflexivity|].
    cbn [flat_map filter]. rewrite length_app, IH.
    unfold DA.batch_step.
    destruct (DA.parseDAPDF readFileSync pdf (DA.path f) (DA.pdf_region f));
      reflexivity.
Qed.

Lemma da_batch_entries_are_tagged_witness :
  exists f parsed,
    In f [da_file "one.pdf"; da_file "two.pdf"; da_file "three.pdf"] /\
    DA.parseDAPDF sample_read sample_da_pdf (DA.path f) (DA.pdf_region f) = JS.Ok parsed /\
    Some "three.pdf" = Some (DA.pdf_filename f).
Proof.
  apply (proj1 (da_batch_entries_are_tagged sample_read sample_da_pdf
                  [da_file "one.pdf"; da_file "two.pdf"; da_file "three.pdf"])
               (DA.mkPrice "Tomato" "per kg" 60 "DA" "Region III" "2025-06-26"
                           "vegetables" false (Some "three.pdf"))).
  vm_compute. right. left. reflexivity.
Defined.

(** ** The fuel parser reads prices under a header only *)

Lemma doe_step_without_fuel region date acc raw :
  match_ (JS.trim raw) DOE.fuelTypeHeader = None ->
  DOE.step region date (None, acc) raw = (None, acc).
Proof.
  intro H. unfold DOE.step.
  destruct (String.length (JS.trim raw) <? 2); [reflexivity|].
  rewrite H. reflexivity.
Qed.

(** X11.  The fuel parser returns nothing for the lines that come before the
    first fuel-type header: whatever numbers they hold, a bulletin parses as
    if it started at its first header, and a text without any header gives no
    entry at all. *)
Theorem doe_lines_before_first_header_are_ignored
        (before rest : list string) (region date : string) :
  Forall (fun raw => match_ (JS.trim raw) DOE.fuelTypeHeader = None) before ->
  DOE.parseLines (before ++ rest) region date = DOE.parseLines rest region date /\
  DOE.parseLines before region date = [].
Proof.
  intro H. unfold DOE.parseLines.
  assert (F : fold_left (DOE.step region date) before (None, []) = (None, [])).
  { induction before as [|raw before IH]; [reflexivity|].
    inversion H as [|? ? H1 H2]; subst. cbn [fold_left].
    rewrite (doe_step_without_fuel _ _ _ _ H1). apply IH, H2. }
  rewrite fold_left_app, F. split; reflexivity.
Qed.

Lemma doe_lines_before_first_header_are_ignored_witness :
  DOE.parseLines (["Pump prices 56.49"; "Page 1 of 3"] ++ ron95_lines) "Luzon" DOE.DATE
    = DOE.parseLines ron95_lines "Luzon" DOE.DATE /\
  DOE.parseLines ["Pump prices 56.49"; "Page 1 of 3"] "Luzon" DOE.DATE = [].
Proof.
  apply doe_lines_before_first_header_are_ignored.
  repeat constructor.
Defined.

(** ** The entry point of the DTI parser *)




(** ** Header-like commodities *)

(** X13.  No entry of the DTI parser and no entry of the generic DA parser
    has a header-like commodity: the name has at least two characters and
    contains none of the words the parser filters out, in any letter case
    ([page], [srp], [bulletin] for DTI; [page], [monitoring], [price], [date],
    [region], [province] for DA). *)
Theorem entries_have_no_header_commodity :
  (forall text r,
      In r (DTI.parseText text) ->
      2 <= String.length (DTI.commodity r) /\
      Forall (fun w => JS.includes (JS.toLowerCase (DTI.commodity r)) w = false)
             ["page"; "srp"; "bulletin"]) /\
  (forall lines region date r,
      In r (DA.results (DA.parseGenericFormat lines region date)) ->
      2 <= String.length (DA.p_commodity r) /\
      Forall (fun w => JS.includes (JS.toLowerCase (DA.p_commodity r)) w = false)
             ["page"; "monitoring"; "price"; "date"; "region"; "province"]).
Proof.
  split.
  - intros text r H. unfold DTI.parseText in H.
    apply in_flat_map in H. destruct H as (raw & _ & H).
    unfold DTI.parse_line in H.
    destruct (String.length (JS.trim raw) <? 5); [contradiction|].
    destruct (DA.first_match DTI.LINE_PATTERNS 0 (JS.trim raw)) as [[j mr]|];
      [|contradiction].
    destruct (DTI.fields j mr) as [[c0 u] pr].
    destruct (DTI.looks_like_header _) eqn:G; [contradiction|].
    destruct H as [<- | []]. cbn [DTI.commodity].
    unfold DTI.looks_like_header in G. cbn [existsb] in G.
    rewrite !orb_false_iff in G. destruct G as (G1 & G2 & G3 & G4 & _).
    apply Nat.ltb_ge in G1. split; [exact G1|]. repeat constructor; assumption.
  - intros lines region date r H.
    assert (F : Forall (fun r =>
                  2 <= String.length (DA.p_commodity r) /\
                  Forall (fun w => JS.includes (JS.toLowerCase (DA.p_commodity r)) w = false)
                         ["page"; "monitoring"; "price"; "date"; "region"; "province"])
                  (DA.results (DA.parseGenericFormat lines region date))).
    { unfold DA.parseGenericFormat.
      apply (fold_left_Forall _ DA.results); [|constructor].
      intros acc raw Hacc. unfold DA.generic_step.
      assert (L : Forall (fun r =>
                  2 <= String.length (DA.p_commodity r) /\
                  Forall (fun w => JS.includes (JS.toLowerCase (DA.p_commodity r)) w = false)
                         ["page"; "monitoring"; "price"; "date"; "region"; "province"])
                    (fst (DA.generic_line region date raw))).
      { unfold DA.generic_line.
        destruct (DA.skipped (JS.trim raw)); [constructor|].
        destruct (DA.first_match DA.PRICE_PATTERNS 0 (JS.trim raw)) as [[j mr]|];
          [|constructor].
        cbv zeta.
        match goal with |- context [if DA.looks_like_header ?c then _ else _] =>
          set (cm := c); destruct (DA.looks_like_header cm) eqn:G; [constructor|]
        end.
        cbn [fst]. unfold DA.generic_single.
        destruct (JS.truthy (DA.f_price _)); [|constructor].
        destruct (JS.parseFloat_opt _); [|constructor].
        destruct (_ && _)%bool; [|constructor].
        constructor; [|constructor]. cbn [DA.p_commodity].
        unfold DA.looks_like_header in G. cbn [existsb] in G.
        rewrite !orb_false_iff in G.
        destruct G as (G1 & G2 & G3 & G4 & G5 & G6 & G7 & _).
        apply Nat.ltb_ge in G1. split; [exact G1|]. repeat constructor; assumption. }
      destruct (DA.generic_line region date raw) as [rs rgs]. simpl in *.
      apply Forall_app. split; assumption. }
    rewrite Forall_forall in F. apply F, H.
Qed.

Lemma entries_have_no_header_commodity_witness :
  2 <= String.length "Argentina Sardines" /\
  Forall (fun w => JS.includes (JS.toLowerCase "Argentina Sardines") w = false)
         ["page"; "srp"; "bulletin"].
Proof.
  apply (proj1 entries_have_no_header_commodity "Argentina Sardines 150g 23.75"
               (DTI.mkPrice "Argentina Sardines" "150g" (Some (95 # 4)) "DTI"
                            "National" "2025-02-01")).
  vm_compute. left. reflexivity.
Defined.

(** ** What a match holds *)

Lemma keeps_refl c : keeps c c.
Proof. split; auto. Qed.

Lemma keeps_trans c1 c2 c3 : keeps c1 c2 -> keeps c2 c3 -> keeps c1 c3.
Proof. intros [L1 K1] [L2 K2]. split; [congruence | auto]. Qed.

Lemma nth_set_capture (v : string) : forall n c j,
  nth j (set_capture n v c) None =
  if ((j =? n) && (n <? List.length c))%bool then Some v else nth j c None.
Proof.
  induction n as [|n IH]; intros [|x c] j; cbn [set_capture List.length].
  - destruct j; simpl; rewrite ?andb_false_r; reflexivity.
  - destruct j; reflexivity.
  - destruct j; simpl; rewrite ?andb_false_r; reflexivity.
  - destruct j as [|j]; [reflexivity|]. cbn [nth]. rewrite IH. reflexivity.
Qed.

Lemma length_set_capture (v : string) : forall n c,
  List.length (set_capture n v c) = List.length c.
Proof.
  induction n as [|n IH]; intros [|x c]; cbn [set_capture List.length]; auto.
Qed.

Lemma caps_ok_set T n v c : caps_ok T c -> T n v -> caps_ok T (set_capture n v c).
Proof.
  intros H Hv j u. rewrite nth_set_capture.
  destruct ((j =? n) && (n <? List.length c))%bool eqn:E.
  - apply andb_true_iff in E. destruct E as [E _]. apply Nat.eqb_eq in E. subst j.
    intro X. inversion X; subst. exact Hv.
  - apply H.
Qed.

Lemma keeps_set n v c : keeps c (set_capture n v c).
Proof.
  split; [apply length_set_capture|].
  intros j H. rewrite nth_set_capture.
  destruct ((j =? n) && (n <? List.length c))%bool; [discriminate | exact H].
Qed.

Lemma substring_prefix (w s : string) : substring 0 (String.length w) (w ++ s) = w.
Proof.
  induction w as [|x w IH]; simpl.
  - destruct s; reflexivity.
  - rewrite IH. reflexivity.
Qed.

Lemma rep_loop_sound {A : Type} ci T r
      (body : string -> nat -> captures -> @cont A -> option A)
      (B : sound_body ci T r body) mn mx greedy (k : @cont A) (fuel : nat) :
  forall cnt s i c a,
    caps_ok T c ->
    rep_loop body mn mx greedy k fuel cnt s i c = Some a ->
    exists ws s' c',
      s = concat_strings ws ++ s' /\ Forall (lang ci r) ws /\
      mn <= cnt + List.length ws /\
      match mx with
      | Some b => cnt + List.length ws <= Nat.max cnt b
      | None => True
      end /\
      caps_ok T c' /\ keeps c c' /\
      (ws <> [] -> forall n, In n (sets r) -> n < List.length c ->
                             nth n c' None <> None) /\
      k s' (i + String.length (concat_strings ws)) c' = Some a.
Proof.
  induction fuel as [|fuel IH]; intros cnt s i c a OK; [discriminate|].
  cbn [rep_loop].
  set (goal := exists ws s' c',
      s = concat_strings ws ++ s' /\ Forall (lang ci r) ws /\
      mn <= cnt + List.length ws /\
      match mx with
      | Some b => cnt + List.length ws <= Nat.max cnt b
      | None => True
      end /\
      caps_ok T c' /\ keeps c c' /\
      (ws <> [] -> forall n, In n (sets r) -> n < List.length c ->
                             nth n c' None <> None) /\
      k s' (i + String.length (concat_strings ws)) c' = Some a).
  assert (Stop : (if mn <=? cnt then k s i c else None) = Some a -> goal).
  { destruct (mn <=? cnt) eqn:G; [|discriminate].
    apply Nat.leb_le in G. intro H.
    exists [], s, c. cbn [concat_strings List.length String.length].
    rewrite !Nat.add_0_r.
    split; [reflexivity|]. split; [constructor|]. split; [exact G|].
    split; [destruct mx; [lia | exact I]|].
    split; [exact OK|]. split; [apply keeps_refl|].
    split; [intro X; contradiction X; reflexivity | exact H]. }
  assert (More :
            (if below cnt mx
             then body s i c
                    (fun s' i' c' =>
                       if ((mn <=? cnt) && (i' =? i))%bool then None
                       else rep_loop body mn mx greedy k fuel (S cnt) s' i' c')
             else None) = Some a -> goal).
  { destruct (below cnt mx) eqn:Bl; [|discriminate]. intro H.
    apply B in H; [|exact OK].
    destruct H as (w & s1 & c1 & E1 & L1 & OK1 & K1 & D1 & H).
    destruct ((mn <=? cnt) && (i + String.length w =? i))%bool; [discriminate|].
    apply IH in H; [|exact OK1].
    destruct H as (ws & s2 & c2 & E2 & L2 & M2 & X2 & OK2 & K2 & D2 & H).
    exists (w :: ws), s2, c2. cbn [concat_strings List.length].
    split; [rewrite append_assoc; congruence|].
    split; [constructor; assumption|].
    split; [lia|].
    split.
    { destruct mx as [b|]; [|exact I]. unfold below in Bl.
      apply Nat.ltb_lt in Bl. lia. }
    split; [exact OK2|].
    split; [eapply keeps_trans; eassumption|].
    split.
    { intros _ n Hn Ln. apply K2. apply D1; assumption. }
    rewrite length_append, Nat.add_assoc. exact H. }
  destruct greedy.
  - destruct (if below cnt mx then body s i c _ else None) eqn:E1.
    + intro H. apply More. congruence.
    + exact Stop.
  - destruct (if mn <=? cnt then k s i c else None) eqn:E1.
    + intro H. apply Stop. congruence.
    + exact More.
Qed.

Ltac base_case H OK :=
  split; [reflexivity|]; split; [eauto|]; split; [exact OK|];
  split; [apply keeps_refl|]; split; [intros ? [] | exact H].

Lemma m_sound {A : Type} ci T (r : regex) :
  typed ci T r -> sound_body ci T r (@m A ci r).
Proof.
  induction r as [| ch | | neg items | r1 IH1 r2 IH2 | r1 IH1 r2 IH2
                  | n r1 IH1 | mn mx greedy r1 IH1 | | ];
    intros Ty s i c k a OK; cbn [m lang sets].
  - intro H. exists "", s, c. rewrite Nat.add_0_r. base_case H OK.
  - destruct s as [|x s']; [discriminate|].
    destruct (char_eq ci ch x) eqn:E; [|discriminate]. intro H.
    exists (String x ""), s', c. cbn [String.length]. rewrite Nat.add_1_r.
    base_case H OK.
  - destruct s as [|x s']; [discriminate|].
    destruct (JS.is_line_terminator x) eqn:E; [discriminate|]. intro H.
    exists (String x ""), s', c. cbn [String.length]. rewrite Nat.add_1_r.
    base_case H OK.
  - destruct s as [|x s']; [discriminate|].
    destruct (xorb neg (class_matches ci items x)) eqn:E; [|discriminate]. intro H.
    exists (String x ""), s', c. cbn [String.length]. rewrite Nat.add_1_r.
    base_case H OK.
  - destruct Ty as [Ty1 Ty2]. intro H.
    apply (IH1 Ty1) in H; [|exact OK].
    destruct H as (w1 & s1 & c1 & E1 & L1 & OK1 & K1 & D1 & H).
    apply (IH2 Ty2) in H; [|exact OK1].
    destruct H as (w2 & s2 & c2 & E2 & L2 & OK2 & K2 & D2 & H).
    exists (w1 ++ w2), s2, c2.
    split; [rewrite append_assoc; congruence|].
    split; [exists w1, w2; auto|].
    split; [exact OK2|].
    split; [eapply keeps_trans; eassumption|].
    split.
    { intros n Hn Ln. apply in_app_or in Hn. destruct Hn as [Hn | Hn].
      - apply K2. apply D1; assumption.
      - apply D2; [exact Hn|]. destruct K1 as [K1 _]. lia. }
    rewrite length_append, Nat.add_assoc. exact H.
  - destruct Ty as [Ty1 Ty2]. intro H.
    destruct (m ci r1 s i c k) eqn:E1.
    + inversion H; subst. apply (IH1 Ty1) in E1; [|exact OK].
      destruct E1 as (w1 & s1 & c1 & E1 & L1 & OK1 & K1 & D1 & E).
      exists w1, s1, c1. repeat split; auto; try apply K1.
      intros n Hn. apply filter_In in Hn. apply D1, Hn.
    + apply (IH2 Ty2) in H; [|exact OK].
      destruct H as (w1 & s1 & c1 & E2 & L1 & OK1 & K1 & D1 & E).
      exists w1, s1, c1. repeat split; auto; try apply K1.
      intros n Hn. apply filter_In in Hn. destruct Hn as [_ Hn].
      apply existsb_exists in Hn. destruct Hn as (j & Hj & Ej).
      apply Nat.eqb_eq in Ej. subst j. apply D1, Hj.
  - destruct Ty as [Ty0 Ty1]. intro H.
    apply (IH1 Ty1) in H; [|exact OK].
    destruct H as (w1 & s1 & c1 & E1 & L1 & OK1 & K1 & D1 & H).
    replace (i + String.length w1 - i) with (String.length w1) in H by lia.
    rewrite E1, substring_prefix in H.
    exists w1, s1, (set_capture n w1 c1).
    split; [exact E1|]. split; [exact L1|].
    split; [apply caps_ok_set; auto|].
    split; [eapply keeps_trans; [exact K1 | apply keeps_set]|].
    split; [|exact H].
    intros j [Hj | Hj] Lj.
    + subst j. rewrite nth_set_capture, Nat.eqb_refl.
      destruct K1 as [K1 _]. rewrite K1.
      apply Nat.ltb_lt in Lj. rewrite Lj. discriminate.
    + apply (keeps_set n w1 c1). apply D1; assumption.
  - intro H. cbn [typed] in Ty.
    apply (rep_loop_sound ci T r1 _ (IH1 Ty)) in H; [|exact OK].
    destruct H as (ws & s1 & c1 & E1 & L1 & M1 & X1 & OK1 & K1 & D1 & H).
    exists (concat_strings ws), s1, c1.
    split; [exact E1|].
    split.
    { exists ws. split; [reflexivity|]. split; [exact L1|]. split; [lia|].
      destruct mx; [lia | exact I]. }
    split; [exact OK1|]. split; [exact K1|]. split; [|exact H].
    intros n Hn Ln. destruct (0 <? mn) eqn:G; [|contradiction].
    apply Nat.ltb_lt in G. apply D1; auto.
    intro X. subst ws. simpl in M1. lia.
  - destruct (i =? 0); [|discriminate]. intro H.
    exists "", s, c. rewrite Nat.add_0_r. base_case H OK.
  - destruct s; [|discriminate]. intro H.
    exists "", "", c. rewrite Nat.add_0_r. base_case H OK.
Qed.

Lemma nth_repeat_none {X : Type} (k n : nat) : nth n (repeat (@None X) k) None = None.
Proof.
  revert n. induction k as [|k IH]; intros [|n]; simpl; auto.
Qed.

Lemma sets_bound (r : regex) : forall n, In n (sets r) -> n <= ngroups r.
Proof.
  induction r as [| ch | | neg items | r1 IH1 r2 IH2 | r1 IH1 r2 IH2
                  | g r1 IH1 | mn mx greedy r1 IH1 | | ];
    cbn [sets ngroups]; intros n Hn; try contradiction.
  - apply in_app_or in Hn. destruct Hn as [Hn | Hn];
      [apply IH1 in Hn | apply IH2 in Hn]; lia.
  - apply filter_In in Hn. destruct Hn as [Hn _]. apply IH1 in Hn. lia.
  - destruct Hn as [Hn | Hn]; [lia | apply IH1 in Hn; lia].
  - destruct (0 <? mn); [apply IH1, Hn | contradiction].
Qed.

Lemma found_sound (re : RegExp) (T : nat -> string -> Prop) s i e c :
  typed (ignoreCase re) T (pattern re) ->
  m (ignoreCase re) (pattern re) s i (repeat None (S (ngroups (pattern re)))) accept
    = Some (e, c) ->
  (exists w post,
      s = w ++ post /\ lang (ignoreCase re) (pattern re) w /\
      e = i + String.length w) /\
  (forall n v,
      nth (S n) (set_capture 0 (substring 0 (e - i) s) c) None = Some v -> T (S n) v) /\
  (forall n, In n (sets (pattern re)) ->
             nth n (set_capture 0 (substring 0 (e - i) s) c) None <> None).
Proof.
  intros Ty E.
  apply (m_sound _ T _ Ty) in E; [|intros n v; rewrite nth_repeat_none; discriminate].
  destruct E as (w & s1 & c1 & E1 & L1 & OK1 & K1 & D1 & E).
  unfold accept in E.
  assert (Ee : e = i + String.length w) by congruence.
  assert (Ec : c = c1) by congruence.
  subst e c1. clear E.
  split; [|split].
  - exists w, s1. auto.
  - intros n v. rewrite nth_set_capture. cbn [Nat.eqb andb]. apply OK1.
  - intros n Hn. rewrite nth_set_capture.
    destruct ((n =? 0) && _)%bool; [discriminate|].
    apply D1; [exact Hn|]. rewrite repeat_length.
    apply sets_bound in Hn. lia.
Qed.

(** What a successful search returns: the match is a text of the pattern,
    found in the subject; the numbered groups hold texts of their type, and
    the groups every match sets are set. *)
Lemma search_sound (re : RegExp) (T : nat -> string -> Prop) :
  typed (ignoreCase re) T (pattern re) ->
  forall s i mr,
    search re s i = Some mr ->
    (exists pre w post,
        s = pre ++ w ++ post /\ lang (ignoreCase re) (pattern re) w /\
        index mr = i + String.length pre /\
        lastIndex mr = index mr + String.length w) /\
    (forall n v, group mr (S n) = Some v -> T (S n) v) /\
    (forall n, In n (sets (pattern re)) -> group mr n <> None).
Proof.
  intros Ty.
  assert (Found : forall s i e c mr,
             m (ignoreCase re) (pattern re) s i
               (repeat None (S (ngroups (pattern re)))) accept = Some (e, c) ->
             Some (mkMatch i e (set_capture 0 (substring 0 (e - i) s) c)) = Some mr ->
             (exists pre w post,
                 s = pre ++ w ++ post /\ lang (ignoreCase re) (pattern re) w /\
                 index mr = i + String.length pre /\
                 lastIndex mr = index mr + String.length w) /\
             (forall n v, group mr (S n) = Some v -> T (S n) v) /\
             (forall n, In n (sets (pattern re)) -> group mr n <> None)).
  { intros s i e c mr E H.
    assert (M : mr = mkMatch i e (set_capture 0 (substring 0 (e - i) s) c))
      by congruence.
    subst mr. clear H. unfold group. cbn [index lastIndex groups].
    destruct (found_sound re T s i e c Ty E) as ((w & post & E1 & L1 & E2) & G1 & G2).
    split; [|split; assumption].
    exists "", w, post. cbn [String.length append]. rewrite Nat.add_0_r. auto. }
  induction s as [|x s IH]; intros i mr; cbn [search].
  - destruct (m (ignoreCase re) (pattern re) "" i _ accept) as [[e c]|] eqn:E;
      [|discriminate].
    apply Found, E.
  - destruct (m (ignoreCase re) (pattern re) (String x s) i _ accept)
      as [[e c]|] eqn:E.
    + apply Found, E.
    + intro H. apply IH in H.
      destruct H as ((pre & w & post & E1 & L1 & I1 & I2) & H2 & H3).
      split; [|split; assumption].
      exists (String x pre), w, post. cbn [String.length].
      split; [simpl; congruence|]. split; [exact L1|]. split; [lia | exact I2].
Qed.

Lemma match_sound (re : RegExp) (T : nat -> string -> Prop) (s : string) mr :
  typed (ignoreCase re) T (pattern re) ->
  match_ s re = Some mr ->
  (exists pre w post,
      s = pre ++ w ++ post /\ lang (ignoreCase re) (pattern re) w /\
      index mr = String.length pre /\
      lastIndex mr = index mr + String.length w) /\
  (forall n v, group mr (S n) = Some v -> T (S n) v) /\
  (forall n, In n (sets (pattern re)) -> group mr n <> None).
Proof.
  intros Ty H. unfold match_, exec_from in H. cbn [drop] in H.
  apply (search_sound re T Ty) in H. exact H.
Qed.

Lemma first_match_sound (ps : list RegExp) (line : string) :
  forall j0 j mr,
    DA.first_match ps j0 line = Some (j, mr) ->
    exists re, j0 <= j /\ nth_error ps (j - j0) = Some re /\ match_ line re = Some mr.
Proof.
  induction ps as [|p ps IH]; intros j0 j mr; cbn [DA.first_match]; [discriminate|].
  destruct (match_ line p) as [mr0|] eqn:E.
  - intro H. inversion H; subst. exists p. rewrite Nat.sub_diag. auto.
  - intro H. apply IH in H. destruct H as (re & L & N & M).
    exists re. split; [lia|]. split; [|exact M].
    replace (j - j0) with (S (j - S j0)) by lia. exact N.
Qed.

(** ** Tests on patterns *)

Lemma forall_ascii_spec (p : ascii -> bool) :
  forall_ascii p = true -> forall x, p x = true.
Proof.
  unfold forall_ascii, all_ascii. intros H x.
  rewrite forallb_forall in H. apply H.
  rewrite <- (ascii_nat_embedding x). apply in_map. apply in_seq.
  pose proof (nat_ascii_bounded x). lia.
Qed.

Lemma accepts_lang ci (r : regex) (w : string) :
  match r with Lit _ | Any | Class _ _ => True | _ => False end ->
  lang ci r w -> exists x, w = String x EmptyString /\ accepts ci r x = true.
Proof.
  destruct r; try contradiction; intros _; cbn [lang accepts];
    intros (x & E & H); exists x; split; auto.
  rewrite H. reflexivity.
Qed.

Lemma head_in_sound ci p (r : regex) :
  head_in ci p r = true ->
  forall w, lang ci r w -> exists x t, w = String x t /\ p x = true.
Proof.
  induction r as [| ch | | neg items | r1 IH1 r2 IH2 | r1 IH1 r2 IH2
                  | n r1 IH1 | mn mx greedy r1 IH1 | | ];
    cbn [head_in]; intros H w L; try discriminate.
  - apply accepts_lang in L; [|exact I]. destruct L as (x & -> & A).
    exists x, "". split; [reflexivity|].
    pose proof (forall_ascii_spec _ H x) as F. cbv beta in F. rewrite A in F. exact F.
  - apply accepts_lang in L; [|exact I]. destruct L as (x & -> & A).
    exists x, "". split; [reflexivity|].
    pose proof (forall_ascii_spec _ H x) as F. cbv beta in F. rewrite A in F. exact F.
  - apply accepts_lang in L; [|exact I]. destruct L as (x & -> & A).
    exists x, "". split; [reflexivity|].
    pose proof (forall_ascii_spec _ H x) as F. cbv beta in F. rewrite A in F. exact F.
  - destruct L as (w1 & w2 & -> & L1 & L2).
    destruct (IH1 H w1 L1) as (x & t & -> & P). exists x, (t ++ w2). auto.
  - apply andb_true_iff in H. destruct H as [H1 H2].
    destruct L as [L | L]; [apply (IH1 H1), L | apply (IH2 H2), L].
  - apply (IH1 H), L.
  - apply andb_true_iff in H. destruct H as [H1 H2]. apply Nat.ltb_lt in H1.
    destruct L as (ws & -> & F & M & _).
    destruct ws as [|w1 ws]; [simpl in M; lia|].
    inversion F as [|? ? F1 F2]; subst.
    destruct (IH1 H2 w1 F1) as (x & t & -> & P).
    exists x, (t ++ concat_strings ws). auto.
Qed.

Lemma chars_in_sound ci p (r : regex) :
  chars_in ci p r = true ->
  forall w, lang ci r w -> all_chars p w = true.
Proof.
  induction r as [| ch | | neg items | r1 IH1 r2 IH2 | r1 IH1 r2 IH2
                  | n r1 IH1 | mn mx greedy r1 IH1 | | ];
    cbn [chars_in]; intros H w L.
  - cbn [lang] in L. subst w. reflexivity.
  - apply accepts_lang in L; [|exact I]. destruct L as (x & -> & A).
    pose proof (forall_ascii_spec _ H x) as F. cbv beta in F. rewrite A in F.
    simpl. simpl in F. rewrite F. reflexivity.
  - apply accepts_lang in L; [|exact I]. destruct L as (x & -> & A).
    pose proof (forall_ascii_spec _ H x) as F. cbv beta in F. rewrite A in F.
    simpl. simpl in F. rewrite F. reflexivity.
  - apply accepts_lang in L; [|exact I]. destruct L as (x & -> & A).
    pose proof (forall_ascii_spec _ H x) as F. cbv beta in F. rewrite A in F.
    simpl. simpl in F. rewrite F. reflexivity.
  - apply andb_true_iff in H. destruct H as [H1 H2].
    destruct L as (w1 & w2 & -> & L1 & L2).
    rewrite all_chars_app, (IH1 H1 w1 L1), (IH2 H2 w2 L2). reflexivity.
  - apply andb_true_iff in H. destruct H as [H1 H2].
    destruct L as [L | L]; [apply (IH1 H1), L | apply (IH2 H2), L].
  - apply (IH1 H), L.
  - destruct L as (ws & -> & F & _).
    induction F as [|w1 ws F1 F2 IHF]; [reflexivity|].
    cbn [concat_strings]. rewrite all_chars_app, (IH1 H w1 F1), IHF. reflexivity.
  - cbn [lang] in L. subst w. reflexivity.
  - cbn [lang] in L. subst w. reflexivity.
Qed.

Lemma has_char_app p (a b : string) :
  has_char p (a ++ b) = (has_char p a || has_char p b)%bool.
Proof.
  induction a as [|c a IH]; simpl; [reflexivity|].
  rewrite IH, orb_assoc. reflexivity.
Qed.

Lemma needs_char_sound ci p (r : regex) :
  needs_char ci p r = true ->
  forall w, lang ci r w -> has_char p w = true.
Proof.
  induction r as [| ch | | neg items | r1 IH1 r2 IH2 | r1 IH1 r2 IH2
                  | n r1 IH1 | mn mx greedy r1 IH1 | | ];
    cbn [needs_char]; intros H w L; try discriminate.
  - apply accepts_lang in L; [|exact I]. destruct L as (x & -> & A).
    pose proof (forall_ascii_spec _ H x) as F. cbv beta in F. rewrite A in F.
    simpl. simpl in F. rewrite F. reflexivity.
  - apply accepts_lang in L; [|exact I]. destruct L as (x & -> & A).
    pose proof (forall_ascii_spec _ H x) as F. cbv beta in F. rewrite A in F.
    simpl. simpl in F. rewrite F. reflexivity.
  - apply accepts_lang in L; [|exact I]. destruct L as (x & -> & A).
    pose proof (forall_ascii_spec _ H x) as F. cbv beta in F. rewrite A in F.
    simpl. simpl in F. rewrite F. reflexivity.
  - destruct L as (w1 & w2 & -> & L1 & L2). rewrite has_char_app.
    apply orb_true_iff in H. destruct H as [H | H].
    + rewrite (IH1 H w1 L1). reflexivity.
    + rewrite (IH2 H w2 L2). apply orb_true_r.
  - apply andb_true_iff in H. destruct H as [H1 H2].
    destruct L as [L | L]; [apply (IH1 H1), L | apply (IH2 H2), L].
  - apply (IH1 H), L.
  - apply andb_true_iff in H. destruct H as [H1 H2]. apply Nat.ltb_lt in H1.
    destruct L as (ws & -> & F & M & _).
    destruct ws as [|w1 ws]; [simpl in M; lia|].
    inversion F as [|? ? F1 F2]; subst.
    cbn [concat_strings]. rewrite has_char_app, (IH1 H2 w1 F1). reflexivity.
Qed.

Lemma length_concat_bounds (lo : nat) (hi : option nat)
      (ws : list string) :
  Forall (fun w => lo <= String.length w /\
                   forall b, hi = Some b -> String.length w <= b) ws ->
  List.length ws * lo <= String.length (concat_strings ws) /\
  forall b, hi = Some b -> String.length (concat_strings ws) <= List.length ws * b.
Proof.
  induction 1 as [|w ws [H1 H2] F IH]; cbn [concat_strings List.length String.length].
  - split; [lia | intros; lia].
  - rewrite length_append. destruct IH as [I1 I2]. split.
    + lia.
    + intros b E. specialize (H2 b E). specialize (I2 b E). lia.
Qed.

Lemma len_sound ci (r : regex) :
  forall w, lang ci r w ->
    min_len r <= String.length w /\
    forall b, max_len r = Some b -> String.length w <= b.
Proof.
  induction r as [| ch | | neg items | r1 IH1 r2 IH2 | r1 IH1 r2 IH2
                  | n r1 IH1 | mn mx greedy r1 IH1 | | ];
    cbn [min_len max_len]; intros w L.
  - cbn [lang] in L. subst w. split; [simpl; lia | intros b E; simpl; lia].
  - apply accepts_lang in L; [|exact I]. destruct L as (x & -> & A).
    split; [simpl; lia | intros b E; inversion E; simpl; lia].
  - apply accepts_lang in L; [|exact I]. destruct L as (x & -> & A).
    split; [simpl; lia | intros b E; inversion E; simpl; lia].
  - apply accepts_lang in L; [|exact I]. destruct L as (x & -> & A).
    split; [simpl; lia | intros b E; inversion E; simpl; lia].
  - destruct L as (w1 & w2 & -> & L1 & L2). rewrite length_append.
    destruct (IH1 w1 L1) as [A1 B1]. destruct (IH2 w2 L2) as [A2 B2].
    split; [lia|]. intros b E.
    destruct (max_len r1) as [a1|]; [|discriminate].
    destruct (max_len r2) as [a2|]; [|discriminate].
    inversion E; subst. specialize (B1 _ eq_refl). specialize (B2 _ eq_refl). lia.
  - destruct L as [L | L].
    + destruct (IH1 w L) as [A1 B1]. split; [lia|]. intros b E.
      destruct (max_len r1) as [a1|]; [|discriminate].
      destruct (max_len r2) as [a2|]; [|discriminate].
      inversion E; subst. specialize (B1 _ eq_refl). lia.
    + destruct (IH2 w L) as [A1 B1]. split; [lia|]. intros b E.
      destruct (max_len r1) as [a1|]; [|discriminate].
      destruct (max_len r2) as [a2|]; [|discriminate].
      inversion E; subst. specialize (B1 _ eq_refl). lia.
  - apply (IH1 w L).
  - destruct L as (ws & -> & F & M & X).
    assert (F' : Forall (fun w => min_len r1 <= String.length w /\
                           forall b, max_len r1 = Some b -> String.length w <= b) ws).
    { apply Forall_forall. intros w Hw. rewrite Forall_forall in F. apply IH1, F, Hw. }
    apply length_concat_bounds in F'. destruct F' as [A B].
    split.
    + assert (mn * min_len r1 <= List.length ws * min_len r1)
        by (apply Nat.mul_le_mono_r; exact M). lia.
    + intros b E. destruct mx as [bx|]; [|discriminate].
      destruct (max_len r1) as [a1|]; [|discriminate].
      inversion E; subst. specialize (B _ eq_refl).
      assert (List.length ws * a1 <= bx * a1) by (apply Nat.mul_le_mono_r; exact X).
      lia.
  - cbn [lang] in L. subst w. split; [simpl; lia | intros b E; simpl; lia].
  - cbn [lang] in L. subst w. split; [simpl; lia | intros b E; simpl; lia].
Qed.

(** ** Numbers read by [parseFloat] *)

Lemma take_digits_count (s : string) :
  forall acc n v n' r, JS.take_digits s acc n = (v, n', r) -> n <= n'.
Proof.
  induction s as [|x s IH]; intros acc n v n' r; cbn [JS.take_digits].
  - intro H. inversion H. lia.
  - destruct (JS.is_digit x).
    + intro H. apply IH in H. lia.
    + intro H. inversion H. lia.
Qed.

Lemma exponent_factor_pos (s : string) : (0 < JS.exponent_factor s)%Q.
Proof.
  unfold JS.exponent_factor.
  destruct s as [|e s1]; [reflexivity|].
  destruct (Ascii.eqb e "e" || Ascii.eqb e "E")%bool; [|reflexivity].
  match goal with
  | |- context [match ?X with pair _ _ => _ end] => destruct X as [neg s2]
  end.
  destruct (JS.take_digits s2 0%N 0) as [[v n] r].
  destruct n; [reflexivity|].
  destruct neg; reflexivity.
Qed.

Lemma Qred_nonneg (x : Q) : (0 <= x)%Q -> (0 <= Qred x)%Q.
Proof.
  intro H. apply (Qle_trans _ x); [exact H|].
  apply Qle_lteq. right. symmetry. apply Qred_correct.
Qed.

Lemma round_half_even_nonneg (n d : Z) :
  (0 <= n)%Z -> (0 < d)%Z -> (0 <= JS.round_half_even n d)%Z.
Proof.
  intros Hn Hd. unfold JS.round_half_even. cbv zeta.
  assert (K : (0 <= n / d)%Z) by (apply Z.div_pos; lia).
  destruct (2 * (n mod d) ?= d)%Z; [destruct (Z.even (n / d))| |]; lia.
Qed.

Lemma scaled_pos (n d e : Z) :
  (0 < n)%Z -> (0 < d)%Z ->
  (0 < fst (JS.scaled n d e))%Z /\ (0 < snd (JS.scaled n d e))%Z.
Proof.
  intros Hn Hd. unfold JS.scaled.
  destruct (0 <=? e)%Z eqn:E; cbn [fst snd]; split; try assumption.
  - apply Z.leb_le in E. apply Z.mul_pos_pos; [exact Hd|].
    apply Z.pow_pos_nonneg; lia.
  - apply Z.leb_gt in E. apply Z.mul_pos_pos; [exact Hn|].
    apply Z.pow_pos_nonneg; lia.
Qed.

Lemma double_of_fraction_nonneg (n d : positive) :
  (0 <= JS.double_of_fraction n d)%Q.
Proof.
  unfold JS.double_of_fraction. cbv zeta.
  destruct (JS.scaled (Z.pos n) (Z.pos d) (Z.log2 (Z.pos n) - Z.log2 (Z.pos d)))
    as [n0 d0].
  set (u := Z.max ((if (n0 <? d0)%Z then _ else _) - 52) (-1074)).
  pose proof (scaled_pos (Z.pos n) (Z.pos d) u eq_refl eq_refl) as [P1 P2].
  destruct (JS.scaled (Z.pos n) (Z.pos d) u) as [n1 d1]. cbn [fst snd] in P1, P2.
  assert (M : (0 <= JS.round_half_even n1 d1)%Z)
    by (apply round_half_even_nonneg; lia).
  destruct (0 <=? u)%Z eqn:U.
  - apply Z.leb_le in U. unfold Qle, inject_Z. cbn [Qnum Qden].
    assert (0 <= 2 ^ u)%Z by (apply Z.pow_nonneg; lia). nia.
  - apply Qred_nonneg. unfold Qle. cbn [Qnum Qden]. lia.
Qed.

(** Rounding to a double keeps the sign. *)
Lemma double_nonneg (q : Q) : (0 <= q)%Q -> (0 <= JS.double q)%Q.
Proof.
  intro H. unfold JS.double.
  pose proof (Qred_nonneg q H) as R.
  destruct (Qred q) as [a b]. cbn [Qnum Qden].
  destruct a as [|a|a].
  - apply Qle_refl.
  - apply double_of_fraction_nonneg.
  - exfalso. unfold Qle in R. cbn [Qnum Qden] in R. lia.
Qed.

Lemma parse_unsigned_nonneg (s : string) q :
  JS.parse_unsigned s = Some q -> (0 <= q)%Q.
Proof.
  unfold JS.parse_unsigned.
  destruct (JS.take_digits s 0%N 0) as [[ip n1] r1].
  match goal with
  | |- context [match ?X with pair _ _ => _ end] => destruct X as [[fp n2] r2]
  end.
  destruct (n1 + n2); [discriminate|].
  intro H.
  match type of H with
  | Some (JS.double ?x) = _ => assert (N : (0 <= JS.double x)%Q)
  end.
  { apply double_nonneg, Qmult_le_0_compat.
    - unfold Qle. simpl. lia.
    - apply Qlt_le_weak, exponent_factor_pos. }
  congruence.
Qed.

Lemma parse_unsigned_digit (x : ascii) (t : string) :
  JS.is_digit x = true -> exists q, JS.parse_unsigned (String x t) = Some q.
Proof.
  intro D. unfold JS.parse_unsigned. cbn [JS.take_digits]. rewrite D.
  destruct (JS.take_digits t _ 1) as [[ip n1] r1] eqn:E.
  apply take_digits_count in E.
  match goal with
  | |- context [match ?X with pair _ _ => _ end] => destruct X as [[fp n2] r2]
  end.
  destruct (n1 + n2) eqn:N; [lia|]. eauto.
Qed.

(** A number read by [parseFloat] is negative only if the text, after its
    leading white space, starts with a minus sign. *)
Lemma parseFloat_nonneg (s : string) q :
  JS.startsWith "-" (JS.trimStart s) = false ->
  JS.parseFloat s = Some q -> (0 <= q)%Q.
Proof.
  unfold JS.parseFloat. destruct (JS.trimStart s) as [|x t].
  - intros _. apply parse_unsigned_nonneg.
  - destruct x as [b0 b1 b2 b3 b4 b5 b6 b7].
    destruct b0, b1, b2, b3, b4, b5, b6, b7; intro H;
      first [discriminate H | apply parse_unsigned_nonneg].
Qed.

Lemma digit_head (x : ascii) :
  JS.is_digit x = true ->
  JS.is_space x = false /\ Ascii.eqb "-" x = false /\ Ascii.eqb "+" x = false.
Proof.
  destruct x as [b0 b1 b2 b3 b4 b5 b6 b7].
  destruct b0, b1, b2, b3, b4, b5, b6, b7; intro H;
    first [discriminate H | repeat split; reflexivity].
Qed.

(** [parseFloat] of a text that starts with a digit is a number, not
    negative. *)
Lemma parseFloat_digit (x : ascii) (t : string) :
  JS.is_digit x = true ->
  exists q, JS.parseFloat (String x t) = Some q /\ (0 <= q)%Q.
Proof.
  intro D. destruct (parse_unsigned_digit x t D) as [q Hq].
  exists q. split; [|apply (parse_unsigned_nonneg _ _ Hq)].
  unfold JS.parseFloat. cbn [JS.trimStart].
  destruct (digit_head x D) as (Sp & Mi & Pl). rewrite Sp.
  destruct x as [b0 b1 b2 b3 b4 b5 b6 b7].
  destruct b0, b1, b2, b3, b4, b5, b6, b7;
    first [discriminate D | exact Hq].
Qed.

(** ** The fields of a DTI line *)

Lemma groups_pass_typed ci (T : nat -> string -> Prop) (chk : nat -> regex -> bool) :
  (forall n r1 w, chk n r1 = true -> lang ci r1 w -> T n w) ->
  forall r, groups_pass chk r = true -> typed ci T r.
Proof.
  intros C.
  induction r as [| ch | | neg items | r1 IH1 r2 IH2 | r1 IH1 r2 IH2
                  | n r1 IH1 | mn mx greedy r1 IH1 | | ];
    cbn [groups_pass typed]; intro H; try exact I.
  - apply andb_true_iff in H. destruct H. split; auto.
  - apply andb_true_iff in H. destruct H. split; auto.
  - apply andb_true_iff in H. destruct H as [H1 H2]. split; [|auto].
    intros w L. apply (C n r1 w H1 L).
  - auto.
Qed.

Lemma dti_patterns_typed (re : RegExp) :
  In re DTI.LINE_PATTERNS -> typed (ignoreCase re) dti_group (pattern re).
Proof.
  intro H.
  apply (groups_pass_typed _ _
           (fun n r1 => ((n =? 1) || head_in true JS.is_digit r1)%bool)).
  - intros n r1 w C L Hn. apply orb_true_iff in C. destruct C as [C | C].
    + apply Nat.eqb_eq in C. contradiction.
    + assert (E : ignoreCase re = true).
      { cbn in H. destruct H as [<- | [<- | [<- | [<- | []]]]]; reflexivity. }
      rewrite E in L. apply (head_in_sound true JS.is_digit r1 C w L).
  - cbn in H. destruct H as [<- | [<- | [<- | [<- | []]]]]; vm_compute; reflexivity.
Qed.

Lemma dti_digit_group (j g : nat) (re : RegExp) (line : string) (mr : MatchResult) :
  nth_error DTI.LINE_PATTERNS j = Some re ->
  match_ line re = Some mr ->
  g <> 1 -> g <> 0 -> In g (sets (pattern re)) ->
  exists x t, group mr g = Some (String x t) /\ JS.is_digit x = true.
Proof.
  intros N M G G0 S.
  assert (Ty : typed (ignoreCase re) dti_group (pattern re))
    by (apply dti_patterns_typed; eapply nth_error_In, N).
  destruct (match_sound re dti_group line mr Ty M) as (_ & T & D).
  specialize (D g S).
  destruct (group mr g) as [v|] eqn:E; [|contradiction D; reflexivity].
  destruct g as [|g]; [contradiction G0; reflexivity|].
  destruct (T g v E G) as (x & t & -> & Dx).
  exists x, t. auto.
Qed.

Lemma trim_digit_head (x : ascii) (t : string) :
  JS.is_digit x = true -> JS.trim (String x t) <> EmptyString.
Proof.
  intro D. destruct (digit_head x D) as (Sp & _).
  unfold JS.trim. cbn [JS.trimStart]. rewrite Sp. cbn [JS.trimEnd].
  destruct (JS.trimEnd t); [rewrite Sp|]; discriminate.
Qed.

(** What the fields of a DTI line hold: the price is a number, not negative,
    and the unit is not empty. *)
Lemma dti_fields_sound (j : nat) (re : RegExp) (line : string) (mr : MatchResult) :
  nth_error DTI.LINE_PATTERNS j = Some re ->
  match_ line re = Some mr ->
  (exists q, JS.parseFloat_opt (snd (DTI.fields j mr)) = Some q /\ (0 <= q)%Q) /\
  (if JS.truthy (snd (fst (DTI.fields j mr)))
   then JS.trim (DA.show (snd (fst (DTI.fields j mr))))
   else "unit") <> EmptyString.
Proof.
  intros N M.
  assert (G : forall g, g <> 1 -> g <> 0 -> In g (sets (pattern re)) ->
                        exists x t, group mr g = Some (String x t) /\
                                    JS.is_digit x = true)
    by (intros g; apply (dti_digit_group j g re line mr N M)).
  assert (P : forall g, (exists x t, group mr g = Some (String x t) /\
                                     JS.is_digit x = true) ->
                        exists q, JS.parseFloat_opt (group mr g) = Some q /\ (0 <= q)%Q).
  { intros g (x & t & E & D). rewrite E. apply (parseFloat_digit x t D). }
  assert (U : forall g, (exists x t, group mr g = Some (String x t) /\
                                     JS.is_digit x = true) ->
                        (if JS.truthy (group mr g) then JS.trim (DA.show (group mr g))
                         else "unit") <> EmptyString).
  { intros g (x & t & E & D). rewrite E. cbn [JS.truthy DA.show].
    apply (trim_digit_head x t D). }
  destruct j as [|[|[|[|j]]]]; cbn [DTI.fields fst snd];
    cbn in N; try (destruct j; discriminate N); injection N as <-.
  - split; [apply P | apply U]; apply G; try discriminate; vm_compute; tauto.
  - split; [apply P | apply U]; apply G; try discriminate; vm_compute; tauto.
  - split; [apply P | apply U]; apply G; try discriminate; vm_compute; tauto.
  - split; [apply P; apply G; try discriminate; vm_compute; tauto|].
    cbn [JS.truthy DA.show]. vm_compute. discriminate.
Qed.

(** X14.  Every entry of the DTI parser has a number as price, never [NaN]
    and never negative, and a unit that is not empty: the price group of each
    line pattern starts with a digit, and so does the size group when there
    is one.  Nothing bounds the price from above, and zero is a possible
    price. *)
Theorem dti_entries_have_number_and_unit (text : string) (r : DTI.PriceRecord) :
  In r (DTI.parseText text) ->
  (exists q, DTI.price r = Some q /\ (0 <= q)%Q) /\
  DTI.unit_ r <> EmptyString.
Proof.
  intro H. unfold DTI.parseText in H.
  apply in_flat_map in H. destruct H as (raw & _ & H).
  unfold DTI.parse_line in H.
  destruct (String.length (JS.trim raw) <? 5); [contradiction|].
  destruct (DA.first_match DTI.LINE_PATTERNS 0 (JS.trim raw)) as [[j mr]|] eqn:F;
    [|contradiction].
  apply first_match_sound in F. destruct F as (re & _ & N & M).
  rewrite Nat.sub_0_r in N.
  pose proof (dti_fields_sound j re _ mr N M) as S.
  destruct (DTI.fields j mr) as [[c0 u] pr]. cbn [fst snd] in S.
  destruct (DTI.looks_like_header _); [contradiction|].
  destruct H as [<- | []]. exact S.
Qed.

Lemma dti_entries_have_number_and_unit_witness :
  (exists q, Some (95 # 4)%Q = Some q /\ (0 <= q)%Q) /\ "150g" <> EmptyString.
Proof.
  apply (dti_entries_have_number_and_unit "Argentina Sardines 150g 23.75"
           (DTI.mkPrice "Argentina Sardines" "150g" (Some (95 # 4)%Q) "DTI"
                        "National" "2025-02-01")).
  vm_compute. left. reflexivity.
Defined.

(** ** [extractPrice] *)

Lemma has_char_false p (s : string) :
  has_char p s = false <-> all_chars (fun c => negb (p c)) s = true.
Proof.
  induction s as [|c s IH]; simpl; [tauto|].
  rewrite orb_false_iff, andb_true_iff, negb_true_iff, IH. tauto.
Qed.

(** A pattern of which every match holds a character of [p] finds nothing in
    a text without such a character. *)
Lemma needs_char_no_match (re : RegExp) (p : ascii -> bool) (s : string) :
  needs_char (ignoreCase re) p (pattern re) = true ->
  has_char p s = false ->
  match_ s re = None.
Proof.
  intros N H. destruct (match_ s re) as [mr|] eqn:M; [|reflexivity].
  apply (match_sound re (fun _ _ => True)) in M.
  - destruct M as ((pre & w & post & E & L & _) & _).
    apply (needs_char_sound _ _ _ N) in L.
    rewrite E, !has_char_app, L, orb_true_r in H. discriminate.
  - apply (groups_pass_typed _ _ (fun _ _ => true)); [auto|].
    clear. induction (pattern re); cbn [groups_pass]; auto.
    + rewrite IHr1, IHr2. reflexivity.
    + rewrite IHr1, IHr2. reflexivity.
Qed.

Lemma price_char_start (s : string) :
  all_chars price_char s = true -> JS.startsWith "-" (JS.trimStart s) = false.
Proof.
  intro H. apply (all_chars_trimStart price_char) in H.
  destruct (JS.trimStart s) as [|x t]; [reflexivity|].
  simpl in H. apply andb_true_iff in H. destruct H as [H _].
  destruct x as [b0 b1 b2 b3 b4 b5 b6 b7].
  destruct b0, b1, b2, b3, b4, b5, b6, b7; first [discriminate H | reflexivity].
Qed.

Lemma priceRegex_typed :
  typed false (fun _ v => all_chars price_char v = true)
        (pattern PriceNormalizer.priceRegex).
Proof.
  apply (groups_pass_typed _ _ (fun _ r1 => chars_in false price_char r1)).
  - intros n r1 w C L. apply (chars_in_sound false price_char r1 C w L).
  - vm_compute. reflexivity.
Qed.

(** X15.  [extractPrice] never returns a negative number: the pattern reads
    digits, commas and a dot, so a minus sign is skipped ([-5] gives 5).  A
    text without a digit and without a comma gives [null].  The number is
    read from the first run of digits and commas only: a comma that comes
    before the price hides it. *)
Theorem extractPrice_reads_no_sign :
  (forall text q, PriceNormalizer.extractPrice text = Some q -> (0 <= q)%Q) /\
  (forall text, has_char digit_or_comma text = false ->
                PriceNormalizer.extractPrice text = None) /\
  PriceNormalizer.extractPrice "-5" = Some 5%Q /\
  PriceNormalizer.extractPrice "1,234.50" = Some (2469 # 2)%Q /\
  PriceNormalizer.extractPrice "Rice, regular 45.00" = None.
Proof.
  split; [|split; [|repeat split; vm_compute; reflexivity]].
  - intros text q. unfold PriceNormalizer.extractPrice.
    destruct text as [|c t]; [discriminate|].
    destruct (match_ (String c t) PriceNormalizer.priceRegex) as [mr|] eqn:M;
      [|discriminate].
    cbv zeta.
    destruct (match_sound PriceNormalizer.priceRegex _ _ _ priceRegex_typed M)
      as (_ & T & _).
    destruct (group mr 1) as [v|] eqn:G.
    + specialize (T 0 v G). cbv beta in T.
      apply parseFloat_nonneg, price_char_start, all_chars_filter_keeps, T.
    + vm_compute. discriminate.
  - intros text H. unfold PriceNormalizer.extractPrice.
    destruct text as [|c t]; [reflexivity|].
    rewrite (needs_char_no_match PriceNormalizer.priceRegex digit_or_comma _
               ltac:(vm_compute; reflexivity) H).
    reflexivity.
Qed.

Lemma extractPrice_reads_no_sign_witness :
  (0 <= 5)%Q /\ PriceNormalizer.extractPrice "Rice and corn" = None.
Proof.
  destruct extractPrice_reads_no_sign as (N & E & _).
  split.
  - apply (N "-5"). vm_compute. reflexivity.
  - apply E. vm_compute. reflexivity.
Defined.

(** ** [containsPrice] *)

(** A quantifier that has done its minimum gives a result whenever what
    follows it does at the point reached. *)
Lemma rep_loop_stops {A : Type}
      (body : string -> nat -> captures -> @cont A -> option A)
      mn mx greedy (k : @cont A) fuel cnt s i c :
  mn <= cnt -> k s i c <> None ->
  rep_loop body mn mx greedy k (S fuel) cnt s i c <> None.
Proof.
  intros L K. cbn [rep_loop].
  apply Nat.leb_le in L. rewrite L.
  destruct greedy.
  - destruct (if below cnt mx then _ else None); [discriminate | exact K].
  - destruct (k s i c); [discriminate | contradiction K; reflexivity].
Qed.

Lemma m_optional_stops {A : Type} ci mx greedy (r : regex) s i c (k : @cont A) :
  k s i c <> None -> m ci (Rep 0 mx greedy r) s i c k <> None.
Proof. intro K. cbn [m]. apply rep_loop_stops; [lia | exact K]. Qed.

(** [X+] for a class [X], on a text that starts with a character of the
    class *)
Lemma m_plus_class {A : Type} ci neg items x rest i c (k : @cont A) :
  xorb neg (class_matches ci items x) = true ->
  k rest (S i) c <> None ->
  m ci (plus (Class neg items)) (String x rest) i c k <> None.
Proof.
  intros X K. unfold plus. cbn [m]. cbn [rep_loop below Nat.leb].
  cbn [m]. rewrite X. cbn [andb].
  cbn [String.length Nat.add].
  match goal with
  | |- context [rep_loop ?b 1 None true k (S ?f) 1 rest (S i) c] =>
      pose proof (rep_loop_stops b 1 None true k f 1 rest (S i) c (le_n 1) K) as R;
      destruct (rep_loop b 1 None true k (S f) 1 rest (S i) c)
  end; [discriminate | contradiction R; reflexivity].
Qed.

(** The search finds a match as soon as the pattern matches somewhere. *)
Lemma search_finds (re : RegExp) (pre : string) :
  forall s i,
    m (ignoreCase re) (pattern re) s (i + String.length pre)
      (repeat None (S (ngroups (pattern re)))) accept <> None ->
    search re (pre ++ s) i <> None.
Proof.
  induction pre as [|x pre IH]; intros s i H.
  - cbn [append String.length] in *. rewrite Nat.add_0_r in H.
    destruct s; cbn [search];
      destruct (m (ignoreCase re) (pattern re) _ i _ accept) as [[e c]|];
      first [discriminate | contradiction H; reflexivity].
  - cbn [append search].
    destruct (m (ignoreCase re) (pattern re) _ i _ accept) as [[e c]|];
      [discriminate|].
    apply IH. cbn [String.length] in H.
    replace (S i + String.length pre) with (i + S (String.length pre)) by lia.
    exact H.
Qed.

Lemma has_char_split p (s : string) :
  has_char p s = true -> exists pre x rest, s = pre ++ String x rest /\ p x = true.
Proof.
  induction s as [|c s IH]; simpl; [discriminate|].
  destruct (p c) eqn:E.
  - intros _. exists "", c, s. auto.
  - intro H. destruct (IH H) as (pre & x & rest & -> & P).
    exists (String c pre), x, rest. auto.
Qed.

Lemma class_digit_comma (x : ascii) :
  xorb false (class_matches false [CDigit; CChar ","] x) = digit_or_comma x.
Proof.
  destruct x as [b0 b1 b2 b3 b4 b5 b6 b7].
  destruct b0, b1, b2, b3, b4, b5, b6, b7; reflexivity.
Qed.

(** X16.  [containsPrice] is true exactly for the texts that hold a digit or
    a comma: a page number or a comma between two words counts as a price. *)
Theorem containsPrice_is_digit_or_comma :
  (forall text, DAScraper.containsPrice text = has_char digit_or_comma text) /\
  DAScraper.containsPrice "Page 2" = true /\
  DAScraper.containsPrice "Rice, well milled" = true.
Proof.
  split; [|split; vm_compute; reflexivity].
  intro text. unfold DAScraper.containsPrice.
  destruct (has_char digit_or_comma text) eqn:H.
  - apply has_char_split in H. destruct H as (pre & x & rest & -> & P).
    assert (F : match_ (pre ++ String x rest) DAScraper.pricePattern <> None).
    { unfold match_, exec_from. cbn [drop].
      apply search_finds.
      unfold DAScraper.pricePattern. cbn [pattern ignoreCase cat m].
      apply m_optional_stops. cbn [m].
      apply m_optional_stops. cbn [m].
      apply m_plus_class.
      - rewrite class_digit_comma. exact P.
      - cbn [m]. apply m_optional_stops. cbn [m].
        apply m_optional_stops. discriminate. }
    destruct (match_ _ _); [reflexivity | contradiction F; reflexivity].
  - rewrite (needs_char_no_match DAScraper.pricePattern digit_or_comma _
               ltac:(vm_compute; reflexivity) H).
    reflexivity.
Qed.

(** ** The layout of the date of a fuel bulletin *)

Lemma digit_group_sound lo hi (r : regex) (w : string) :
  digit_group lo hi r = true -> lang false r w -> digits_between lo hi w.
Proof.
  unfold digit_group. rewrite !andb_true_iff. intros [[C L] U] H.
  split; [apply (chars_in_sound false _ r C w H)|].
  destruct (len_sound false r w H) as [A B].
  apply Nat.leb_le in L.
  destruct (max_len r) as [b|]; [|discriminate].
  apply Nat.leb_le in U. specialize (B b eq_refl). lia.
Qed.

Lemma iso_layout_build (y mo dd : string) :
  digits_between 4 4 y -> digits_between 2 2 mo -> digits_between 2 2 dd ->
  iso_layout (y ++ "-" ++ mo ++ "-" ++ dd) = true.
Proof.
  intros [Dy Ly] [Dm Lm] [Dd Ld].
  destruct y as [|y1 [|y2 [|y3 [|y4 [|y5 y]]]]]; simpl in Ly; try lia.
  destruct mo as [|m1 [|m2 [|m3 mo]]]; simpl in Lm; try lia.
  destruct dd as [|d1 [|d2 [|d3 dd]]]; simpl in Ld; try lia.
  simpl in Dy, Dm, Dd.
  repeat match goal with
         | H : (_ && _)%bool = true |- _ =>
             apply andb_true_iff in H; destruct H as [? H]
         end.
  simpl.
  repeat match goal with
         | H : JS.is_digit _ = true |- _ => rewrite H; clear H
         end.
  reflexivity.
Qed.

Lemma padStart0_digits (v : string) :
  digits_between 1 2 v -> digits_between 2 2 (JS.padStart0 2 v).
Proof.
  intros [D L]. unfold JS.padStart0.
  destruct v as [|a [|b [|c v]]]; simpl in L; try lia.
  - split; [|simpl; lia]. simpl in *. exact D.
  - split; [exact D | simpl; lia].
Qed.

Lemma doe_date_layout (mr : MatchResult) g1 g2 g3 :
  group mr 1 = Some g1 -> group mr 2 = Some g2 -> group mr 3 = Some g3 ->
  (digits_between 4 4 g1 /\ digits_between 2 2 g2 /\ digits_between 2 2 g3) \/
  (digits_between 1 2 g1 /\ digits_between 1 2 g2 /\ digits_between 4 4 g3) ->
  iso_layout (DOE.date_of_match mr) = true.
Proof.
  intros G1 G2 G3 H. unfold DOE.date_of_match. rewrite G1, G2, G3.
  cbn [DA.show]. cbv zeta.
  destruct H as [(A & B & C) | (A & B & C)].
  - destruct A as [A1 A2]. replace (String.length g1 =? 4) with true
      by (symmetry; apply Nat.eqb_eq; lia).
    apply iso_layout_build; [split|..]; assumption.
  - destruct (String.length g1 =? 4) eqn:E.
    + apply Nat.eqb_eq in E. destruct A as [_ A]. lia.
    + apply iso_layout_build; [exact C | apply padStart0_digits, A
                               | apply padStart0_digits, B].
Qed.

Lemma doe_date_pattern (year_first : bool) (re : RegExp) (f : string) mr :
  ignoreCase re = false ->
  groups_pass (fun n r1 => digit_group (fst (date_groups year_first n))
                                       (snd (date_groups year_first n)) r1)
              (pattern re) = true ->
  incl [1; 2; 3] (sets (pattern re)) ->
  match_ f re = Some mr ->
  iso_layout (DOE.date_of_match mr) = true.
Proof.
  intros CI P S M.
  assert (Ty : typed (ignoreCase re)
                 (fun n v => digits_between (fst (date_groups year_first n))
                                            (snd (date_groups year_first n)) v)
                 (pattern re)).
  { rewrite CI.
    apply (groups_pass_typed false _ _ (fun n r1 w => digit_group_sound _ _ r1 w) _ P). }
  destruct (match_sound re _ f mr Ty M) as (_ & T & D).
  assert (D1 := D 1 (S 1 (or_introl eq_refl))).
  assert (D2 := D 2 (S 2 (or_intror (or_introl eq_refl)))).
  assert (D3 := D 3 (S 3 (or_intror (or_intror (or_introl eq_refl))))).
  destruct (group mr 1) as [g1|] eqn:G1; [|contradiction D1; reflexivity].
  destruct (group mr 2) as [g2|] eqn:G2; [|contradiction D2; reflexivity].
  destruct (group mr 3) as [g3|] eqn:G3; [|contradiction D3; reflexivity].
  apply (doe_date_layout mr g1 g2 g3 G1 G2 G3).
  pose proof (T 0 g1 G1) as T1. pose proof (T 1 g2 G2) as T2.
  pose proof (T 2 g3 G3) as T3.
  destruct year_first; cbn in T1, T2, T3; [left | right]; auto.
Qed.

(** X17.  The date the DOE parser resolves from a file name always has the
    layout [dddd-dd-dd] (ten characters, digits around two hyphens), whatever
    the file name; the resolver of the DA parser gives no such guarantee. *)
Theorem doe_date_layout_is_fixed :
  (forall f, iso_layout (DOE.extractDateFromFilename f) = true) /\
  DA.extractDateFromFilename "Report June 26, 2025.pdf" = "June-26-2025" /\
  iso_layout (DA.extractDateFromFilename "Report June 26, 2025.pdf") = false.
Proof.
  split; [|split; vm_compute; reflexivity].
  intro f. unfold DOE.extractDateFromFilename, DOE.datePatterns.
  cbn [map DOE.date_loop].
  repeat match goal with
         | |- iso_layout (match match_ f ?re with Some _ => _ | None => _ end) = true =>
             let M := fresh "M" in
             destruct (match_ f re) as [mr|] eqn:M;
             [ first [ apply (doe_date_pattern true re f mr eq_refl
                                ltac:(vm_compute; reflexivity)
                                ltac:(vm_compute; intros a H; tauto) M)
                     | apply (doe_date_pattern false re f mr eq_refl
                                ltac:(vm_compute; reflexivity)
                                ltac:(vm_compute; intros a H; tauto) M) ]
             | ]
         end.
  vm_compute. reflexivity.
Qed.

(** ** The latest bulletin *)

Lemma sort_newest_head (l : list DTI.FileStat) :
  match DTI.sort_newest_first l with
  | [] => l = []
  | f :: _ =>
      exists l1 l2,
        l = (l1 ++ f :: l2)%list /\
        Forall (fun g => (DTI.time g < DTI.time f)%Z) l1 /\
        Forall (fun g => (DTI.time g <= DTI.time f)%Z) l2
  end.
Proof.
  induction l as [|x l IH]; [reflexivity|].
  cbn [DTI.sort_newest_first fold_right].
  fold (DTI.sort_newest_first l).
  destruct (DTI.sort_newest_first l) as [|y rest].
  - subst l. cbn [DTI.insert_by_time]. exists [], []. auto.
  - destruct IH as (l1 & l2 & -> & B & A).
    cbn [DTI.insert_by_time].
    destruct (Z.ltb (DTI.time x) (DTI.time y)) eqn:E.
    + apply Z.ltb_lt in E. exists (x :: l1), l2. auto.
    + apply Z.ltb_ge in E. exists [], (l1 ++ y :: l2)%list.
      split; [reflexivity|]. split; [constructor|].
      apply Forall_app. split.
      * eapply Forall_impl; [|exact B]. cbv beta. intros g Hg. lia.
      * constructor; [exact E|].
        eapply Forall_impl; [|exact A]. cbv beta. intros g Hg. lia.
Qed.

(** X18.  [getLatestPDF] returns [null] exactly when the directory is
    missing or lists no name that ends in [.pdf] (in any letter case);
    otherwise it returns the path of a listed PDF that no other listed PDF is
    newer than, the first such in the order of the listing. *)
Theorem getLatestPDF_is_newest
        (path_join : string -> string -> string) (dir : string)
        (listing : list DTI.FileStat) :
  DTI.getLatestPDF path_join dir false listing = None /\
  (DTI.getLatestPDF path_join dir true listing = None <->
   Forall (fun f => DTI.is_pdf f = false) listing) /\
  (forall p, DTI.getLatestPDF path_join dir true listing = Some p ->
     exists l1 f l2,
       p = path_join dir (DTI.file f) /\
       filter DTI.is_pdf listing = (l1 ++ f :: l2)%list /\
       Forall (fun g => (DTI.time g < DTI.time f)%Z) l1 /\
       Forall (fun g => (DTI.time g <= DTI.time f)%Z) l2).
Proof.
  split; [reflexivity|]. unfold DTI.getLatestPDF. cbn [negb].
  pose proof (sort_newest_head (filter DTI.is_pdf listing)) as H.
  destruct (DTI.sort_newest_first (filter DTI.is_pdf listing)) as [|f rest].
  - split; [|intros p X; discriminate X].
    split; [|reflexivity]. intros _.
    apply Forall_forall. intros g Hg.
    destruct (DTI.is_pdf g) eqn:E; [|reflexivity].
    assert (I : In g (filter DTI.is_pdf listing)) by (apply filter_In; auto).
    rewrite H in I. destruct I.
  - destruct H as (l1 & l2 & E & B & A). split.
    + split; [discriminate|]. intro F. exfalso.
      assert (I : In f (filter DTI.is_pdf listing))
        by (rewrite E; apply in_or_app; right; left; reflexivity).
      apply filter_In in I. destruct I as [I P].
      rewrite Forall_forall in F. rewrite (F f I) in P. discriminate.
    + intros p X. exists l1, f, l2.
      split; [congruence|]. auto.
Qed.

Lemma getLatestPDF_is_newest_witness :
  exists l1 f l2,
    "dir/b.PDF" = ("dir" ++ "/" ++ DTI.file f) /\
    filter DTI.is_pdf
      [DTI.mkStat "a.pdf" 10; DTI.mkStat "notes.txt" 99; DTI.mkStat "b.PDF" 30;
       DTI.mkStat "c.pdf" 30] = (l1 ++ f :: l2)%list /\
    Forall (fun g => (DTI.time g < DTI.time f)%Z) l1 /\
    Forall (fun g => (DTI.time g <= DTI.time f)%Z) l2.
Proof.
  apply (getLatestPDF_is_newest (fun d f => d ++ "/" ++ f) "dir"
           [DTI.mkStat "a.pdf" 10; DTI.mkStat "notes.txt" 99; DTI.mkStat "b.PDF" 30;
            DTI.mkStat "c.pdf" 30]).
  vm_compute. reflexivity.
Defined.

(** ** The lookups of the DA scraper *)

Lemma startsWith_includes (p s : string) :
  JS.startsWith p s = true -> JS.includes s p = true.
Proof. intro H. destruct s; simpl; rewrite H; reflexivity. Qed.

Lemma startsWith_prefix (p q s : string) :
  JS.startsWith (p ++ q) s = true -> JS.startsWith p s = true.
Proof.
  revert s. induction p as [|a p IH]; intros s; [reflexivity|].
  destruct s as [|b s]; [discriminate|]. cbn [append JS.startsWith].
  rewrite !andb_true_iff. intros [E H]. split; [exact E | apply IH, H].
Qed.

(** A text that includes a word includes every prefix and every suffix of
    the word. *)
Lemma includes_prefix (p q s : string) :
  JS.includes s (p ++ q) = true -> JS.includes s p = true.
Proof.
  induction s as [|b s IH]; cbn [JS.includes]; rewrite !orb_true_iff.
  - intros [H | H]; [|discriminate]. left. apply (startsWith_prefix p q), H.
  - intros [H | H]; [left; apply (startsWith_prefix p q), H | right; apply IH, H].
Qed.

Lemma includes_tail (a : ascii) (q s : string) :
  JS.includes s (String a q) = true -> JS.includes s q = true.
Proof.
  induction s as [|b s IH]; cbn [JS.includes JS.startsWith]; [discriminate|].
  rewrite !orb_true_iff, andb_true_iff.
  intros [[_ H] | H]; right; [apply startsWith_includes, H | apply IH, H].
Qed.

Lemma first_included_range (t : string) (table : list (string * string)) v :
  DAScraper.first_included t table = Some v -> In v (map snd table).
Proof.
  induction table as [|[k w] rest IH]; simpl; [discriminate|].
  destruct (JS.includes t k).
  - intro H. inversion H. left. reflexivity.
  - intro H. right. apply IH, H.
Qed.

(** X19.  [extractRegion] of the DA scraper returns one of four regions
    ([NCR] when nothing is recognised), whatever the letter case; the keys
    are looked for anywhere in the text and in the order of the table, so a
    text that names Region VIII is filed under Region VII (or NCR), and any
    text with the letters [ncr] is filed under NCR. *)
Theorem scraper_region_lookup (text : string) :
  In (DAScraper.extractRegion text) scraper_regions /\
  DAScraper.extractRegion (JS.toUpperCase text) = DAScraper.extractRegion text /\
  (JS.includes (JS.toLowerCase text) "region viii" = true ->
   In (DAScraper.extractRegion text) ["NCR"; "Region VII"]) /\
  (JS.includes (JS.toLowerCase text) "ncr" = true ->
   DAScraper.extractRegion text = "NCR").
Proof.
  split; [|split; [|split]].
  - unfold DAScraper.extractRegion.
    destruct (DAScraper.first_included _ _) as [v|] eqn:E; [|simpl; tauto].
    apply first_included_range in E. simpl in E. simpl.
    repeat (destruct E as [<- | E]; [tauto|]). destruct E.
  - unfold DAScraper.extractRegion. rewrite toLowerCase_toUpperCase. reflexivity.
  - intro H. apply (includes_prefix "region vii" "i") in H.
    unfold DAScraper.extractRegion, DAScraper.regionMap.
    cbn [DAScraper.first_included].
    destruct (JS.includes _ "ncr"); [simpl; tauto|].
    destruct (JS.includes _ "metro manila"); [simpl; tauto|].
    destruct (JS.includes _ "national capital region"); [simpl; tauto|].
    rewrite H. simpl. tauto.
  - intro H. unfold DAScraper.extractRegion, DAScraper.regionMap.
    cbn [DAScraper.first_included]. rewrite H. reflexivity.
Qed.

Lemma scraper_region_lookup_witness :
  In (DAScraper.extractRegion "Region VIII - Eastern Visayas") ["NCR"; "Region VII"] /\
  DAScraper.extractRegion "Concrete hollow blocks, Region III" = "NCR".
Proof.
  split.
  - apply (scraper_region_lookup "Region VIII - Eastern Visayas"). reflexivity.
  - apply (scraper_region_lookup "Concrete hollow blocks, Region III"). reflexivity.
Defined.

(** X20.  [extractCommodity] of the DA scraper does not depend on letter
    case; every text that holds the word [price] is read as Well-Milled Rice,
    since [rice] is the first key looked for; and each of the seven
    commodities it can return gets, after [normalizeCommodityName], a
    category other than [Other] and a slug without hyphens at its ends. *)
Theorem scraper_commodity_lookup (text : string) :
  DAScraper.extractCommodity (JS.toUpperCase text) = DAScraper.extractCommodity text /\
  (JS.includes (JS.toLowerCase text) "price" = true ->
   DAScraper.extractCommodity text = Some "Well-Milled Rice") /\
  (forall c, DAScraper.extractCommodity text = Some c ->
     In (c, DAScraper.getCommodityCategory (PriceNormalizer.normalizeCommodityName c),
         DAScraper.generateSlug (PriceNormalizer.normalizeCommodityName c))
        [ ("Well-Milled Rice", "Grains", "well-milled-rice");
          ("Red Onion", "Vegetables", "red-onion");
          ("Tomato", "Vegetables", "tomato");
          ("Pork", "Meat", "pork");
          ("Chicken", "Meat", "chicken");
          ("Diesel", "Fuel", "diesel");
          ("Gasoline", "Fuel", "gasoline") ]).
Proof.
  split; [|split].
  - unfold DAScraper.extractCommodity. rewrite toLowerCase_toUpperCase. reflexivity.
  - intro H. apply includes_tail in H.
    unfold DAScraper.extractCommodity, DAScraper.commodityMap.
    cbn [DAScraper.first_included]. rewrite H. reflexivity.
  - intros c H. unfold DAScraper.extractCommodity in H.
    apply first_included_range in H. simpl in H.
    repeat (destruct H as [<- | H]; [vm_compute; tauto|]). destruct H.
Qed.

Lemma scraper_commodity_lookup_witness :
  DAScraper.extractCommodity "Pork price per kg 250.00" = Some "Well-Milled Rice".
Proof.
  apply (scraper_commodity_lookup "Pork price per kg 250.00"). reflexivity.
Defined.

(** ** The directory of a DA bulletin *)

Lemma da_regions_keys (key v : string) :
  JS.assoc key DA.REGIONS = Some v ->
  v <> EmptyString /\
  String.eqb v "NCR" = String.eqb key "ncr" /\
  String.eqb v "RX" = String.eqb key "rx".
Proof.
  unfold DA.REGIONS. cbn [JS.assoc].
  repeat match goal with
         | |- context [if String.eqb ?k key then _ else _] =>
             let E := fresh "E" in
             destruct (String.eqb k key) eqn:E;
             [ apply String.eqb_eq in E; subst key; intro H; injection H as <-;
               repeat split; discriminate || reflexivity
             | ]
         end.
  discriminate.
Qed.

Lemma toLowerCase_of_upper (s t : string) :
  JS.toUpperCase s = t -> JS.toLowerCase s = JS.toLowerCase t.
Proof. intros <-. symmetry. apply toLowerCase_toUpperCase. Qed.

(** X21.  The format a DA bulletin is read with follows from the name of
    its directory alone: the region given to the parser is [NCR] exactly when
    the directory is named [ncr] in any letter case, [RX] exactly when it is
    named [rx], and the generic format is used for every other directory
    ([NCR-old] gives the region [NCR-OLD]).  Every file listed by
    [getAllPDFs] is a [.pdf] of a directory of [bantaypresyo] and carries the
    region of that directory.  A directory named [constructor] gets no
    region name at all but the member every object inherits. *)
Theorem da_format_follows_directory :
  (forall dir region,
      DA.regionName dir = JS.VString region ->
      String.eqb region "NCR" = String.eqb (JS.toLowerCase dir) "ncr" /\
      String.eqb region "RX" = String.eqb (JS.toLowerCase dir) "rx") /\
  (forall dir region text date,
      DA.regionName dir = JS.VString region ->
      DA.extractPricesFromText text region date =
      if String.eqb (JS.toLowerCase dir) "ncr"
      then DA.parseNCRFormat (JS.split JS.newline text) region date
      else if String.eqb (JS.toLowerCase dir) "rx"
           then DA.parseRXFormat (JS.split JS.newline text) region date
           else DA.parseGenericFormat (JS.split JS.newline text) region date) /\
  (forall path_join root existsSync dirents p,
      In p (DA.getAllPDFs path_join root existsSync dirents) ->
      existsSync = true /\
      exists d, In d dirents /\ DA.isDirectory d = true /\
                In (DA.found_filename p) (DA.files d) /\
                JS.endsWith (JS.toLowerCase (DA.found_filename p)) ".pdf" = true /\
                DA.found_region p = DA.regionName (DA.name d)) /\
  DA.regionName "Ncr" = JS.VString "NCR" /\
  DA.regionName "NCR-old" = JS.VString "NCR-OLD" /\
  DA.regionName "Constructor" = JS.VInherited "constructor".
Proof.
  assert (A : forall dir region,
             DA.regionName dir = JS.VString region ->
             String.eqb region "NCR" = String.eqb (JS.toLowerCase dir) "ncr" /\
             String.eqb region "RX" = String.eqb (JS.toLowerCase dir) "rx").
  { intros dir region. unfold DA.regionName, JS.lookup_or.
    destruct (JS.assoc (JS.toLowerCase dir) DA.REGIONS) as [v|] eqn:E.
    - apply da_regions_keys in E. destruct E as (V & E1 & E2).
      destruct v as [|c v]; [contradiction V; reflexivity|].
      intro H. injection H as <-. auto.
    - destruct (existsb _ JS.object_prototype_keys); [discriminate|].
      intro H. injection H as <-.
      assert (L : forall u, JS.toUpperCase dir = u ->
                            JS.assoc (JS.toLowerCase u) DA.REGIONS <> None -> False).
      { intros u U X. apply toLowerCase_of_upper in U. rewrite <- U in X.
        contradiction. }
      split.
      + destruct (String.eqb (JS.toUpperCase dir) "NCR") eqn:U.
        * apply String.eqb_eq in U. exfalso. apply (L _ U). vm_compute. discriminate.
        * destruct (String.eqb (JS.toLowerCase dir) "ncr") eqn:W; [|reflexivity].
          apply String.eqb_eq in W. rewrite W in E. vm_compute in E. discriminate.
      + destruct (String.eqb (JS.toUpperCase dir) "RX") eqn:U.
        * apply String.eqb_eq in U. exfalso. apply (L _ U). vm_compute. discriminate.
        * destruct (String.eqb (JS.toLowerCase dir) "rx") eqn:W; [|reflexivity].
          apply String.eqb_eq in W. rewrite W in E. vm_compute in E. discriminate. }
  split; [exact A|].
  split.
  { intros dir region text date H. destruct (A dir region H) as [E1 E2].
    unfold DA.extractPricesFromText. cbv zeta. rewrite E1, E2. reflexivity. }
  split; [|repeat split; vm_compute; reflexivity].
  intros path_join root existsSync dirents p H.
  unfold DA.getAllPDFs in H. destruct existsSync; [|contradiction].
  split; [reflexivity|]. cbn [negb] in H.
  apply in_flat_map in H. destruct H as (d & Hd & H).
  apply filter_In in Hd. destruct Hd as [Hd Dir].
  unfold DA.region_pdfs in H. apply in_map_iff in H.
  destruct H as (f & <- & Hf). apply filter_In in Hf. destruct Hf as [Hf Pdf].
  exists d. cbn [DA.found_filename DA.found_region]. auto.
Qed.

Lemma da_format_follows_directory_witness :
  DA.extractPricesFromText "Balintawak" "NCR" DA.DATE =
  if String.eqb (JS.toLowerCase "Ncr") "ncr"
  then DA.parseNCRFormat (JS.split JS.newline "Balintawak") "NCR" DA.DATE
  else if String.eqb (JS.toLowerCase "Ncr") "rx"
       then DA.parseRXFormat (JS.split JS.newline "Balintawak") "NCR" DA.DATE
       else DA.parseGenericFormat (JS.split JS.newline "Balintawak") "NCR" DA.DATE.
Proof.
  apply (proj1 (proj2 da_format_follows_directory) "Ncr" "NCR").
  vm_compute. reflexivity.
Defined.

(** ** The entry point of the DOE parser *)



















(** ** Completeness of the matcher *)

Lemma eqb_add_same (i n : nat) : (i + n =? i) = (n =? 0).
Proof.
  destruct n as [|n].
  - rewrite Nat.add_0_r. apply Nat.eqb_refl.
  - apply Nat.eqb_neq. lia.
Qed.

Lemma rep_loop_complete {A : Type} ci (r : regex)
      (body : string -> nat -> captures -> @cont A -> option A)
      (B : complete_body ci r body) mn mx greedy (k : @cont A) (ws : list string) :
  Forall (lang ci r) ws ->
  forall fuel cnt s' i c,
    mn <= cnt + List.length ws ->
    match mx with Some b => cnt + List.length ws <= b | None => True end ->
    (mn - cnt) + String.length (concat_strings ws) < fuel ->
    (forall c', k s' (i + String.length (concat_strings ws)) c' <> None) ->
    rep_loop body mn mx greedy k fuel cnt (concat_strings ws ++ s') i c <> None.
Proof.
  induction 1 as [|w ws Hw Hws IH]; intros fuel cnt s' i c Mn Mx F K.
  - destruct fuel as [|fuel]; [lia|].
    cbn [concat_strings List.length String.length append] in *.
    rewrite Nat.add_0_r in *.
    apply rep_loop_stops; [exact Mn | apply K].
  - cbn [concat_strings List.length] in *.
    destruct (((mn <=? cnt) && (String.length w =? 0))%bool) eqn:G.
    + (* an empty iteration past the minimum: it is not needed *)
      apply andb_true_iff in G. destruct G as [G1 G2].
      apply Nat.leb_le in G1. apply Nat.eqb_eq in G2.
      destruct w; [|discriminate]. cbn [append String.length] in *.
      apply IH; try lia; [destruct mx; [lia | exact I] | exact K].
    + destruct fuel as [|fuel]; [lia|]. cbn [rep_loop].
      assert (Bl : below cnt mx = true).
      { unfold below. destruct mx as [b|]; [|reflexivity]. apply Nat.ltb_lt. lia. }
      rewrite Bl.
      assert (M : body ((w ++ concat_strings ws) ++ s') i c
                    (fun s1 i1 c1 =>
                       if ((mn <=? cnt) && (i1 =? i))%bool then None
                       else rep_loop body mn mx greedy k fuel (S cnt) s1 i1 c1)
                  <> None).
      { rewrite append_assoc. apply (B w Hw). intro c'.
        rewrite eqb_add_same, G. apply IH.
        - lia.
        - destruct mx; [lia | exact I].
        - rewrite length_append in F.
          apply andb_false_iff in G. destruct G as [G | G].
          + apply Nat.leb_gt in G. lia.
          + apply Nat.eqb_neq in G. lia.
        - intro c1. rewrite length_append, Nat.add_assoc in K. apply K. }
      destruct greedy.
      * destruct (body _ i c _); [discriminate | contradiction M; reflexivity].
      * destruct (if mn <=? cnt then _ else None); [discriminate|].
        exact M.
Qed.

(** The matcher finds a match wherever the pattern has one: if the text
    starts with a text of the pattern and what follows the pattern gives a
    result there, whatever the captures, the matcher gives a result. *)
Lemma m_complete {A : Type} ci (r : regex) :
  anchor_free r = true -> complete_body ci r (@m A ci r).
Proof.
  induction r as [| ch | | neg items | r1 IH1 r2 IH2 | r1 IH1 r2 IH2
                  | n r1 IH1 | mn mx greedy r1 IH1 | | ];
    cbn [anchor_free]; intros AF w L s' i c k K; try discriminate;
    cbn [lang] in L; cbn [m].
  - subst w. rewrite Nat.add_0_r in K. apply K.
  - destruct L as (x & -> & E). cbn [append]. rewrite E.
    cbn [String.length] in K. rewrite Nat.add_1_r in K. apply K.
  - destruct L as (x & -> & E). cbn [append]. rewrite E.
    cbn [String.length] in K. rewrite Nat.add_1_r in K. apply K.
  - destruct L as (x & -> & E). cbn [append]. rewrite E.
    cbn [String.length] in K. rewrite Nat.add_1_r in K. apply K.
  - apply andb_true_iff in AF. destruct AF as [A1 A2].
    destruct L as (w1 & w2 & -> & L1 & L2). rewrite append_assoc.
    apply (IH1 A1 w1 L1). intro c1.
    apply (IH2 A2 w2 L2). intro c2.
    rewrite length_append, Nat.add_assoc in K. apply K.
  - apply andb_true_iff in AF. destruct AF as [A1 A2].
    destruct L as [L | L].
    + pose proof (IH1 A1 w L s' i c k K) as M.
      destruct (m ci r1 (w ++ s') i c k); [discriminate | contradiction M; reflexivity].
    + destruct (m ci r1 (w ++ s') i c k); [discriminate|].
      apply (IH2 A2 w L), K.
  - apply (IH1 AF w L). intro c1. apply K.
  - destruct L as (ws & -> & F & Mn & Mx).
    apply (rep_loop_complete ci r1 _ (IH1 AF)).
    + exact F.
    + exact Mn.
    + destruct mx; [exact Mx | exact I].
    + rewrite length_append. lia.
    + exact K.
Qed.

(** ** The unit shape of the generic parser *)

Lemma search_bol_later (r : regex) ci g (s : string) :
  forall i, i <> 0 -> search (mkRegExp (Cat Bol r) ci g) s i = None.
Proof.
  induction s as [|x s IH]; intros i Hi; cbn [search pattern ignoreCase m].
  - apply Nat.eqb_neq in Hi. rewrite Hi. reflexivity.
  - apply Nat.eqb_neq in Hi. rewrite Hi. apply IH. lia.
Qed.

(** A pattern that starts with [^] matches a text exactly when its body
    matches at the start of the text. *)
Lemma match_bol (r : regex) ci g (s : string) :
  match_ s (mkRegExp (Cat Bol r) ci g) <> None <->
  m ci r s 0 (repeat None (S (ngroups (Cat Bol r)))) accept <> None.
Proof.
  unfold match_, exec_from. cbn [drop].
  destruct s as [|x s]; cbn [search pattern ignoreCase m Nat.eqb].
  - destruct (m ci r "" 0 _ accept) as [[e c]|]; split; intro H;
      first [discriminate | exfalso; apply H; reflexivity].
  - destruct (m ci r (String x s) 0 _ accept) as [[e c]|]; [split; discriminate|].
    rewrite search_bol_later by lia. tauto.
Qed.

Lemma lang_plus_class ci neg items (w : string) :
  all_chars (accepts ci (Class neg items)) w = true ->
  w <> EmptyString ->
  lang ci (plus (Class neg items)) w.
Proof.
  intros H N. unfold plus. cbn [lang].
  exists (map (fun x => String x EmptyString) (list_ascii_of_string w)).
  split; [|split; [|split]].
  - clear. induction w as [|x w IH]; [reflexivity|].
    cbn [list_ascii_of_string map concat_strings append]. rewrite <- IH. reflexivity.
  - clear N. induction w as [|x w IH]; [constructor|].
    cbn [all_chars] in H. apply andb_true_iff in H. destruct H as [H1 H2].
    cbn [list_ascii_of_string map]. constructor; [|apply IH, H2].
    exists x. split; [reflexivity | exact H1].
  - destruct w; [contradiction N; reflexivity|].
    cbn [list_ascii_of_string map List.length]. lia.
  - exact I.
Qed.

(** Every line the unit shape of the generic parser matches is matched by
    its first shape: the name of the first shape takes the unit with it. *)
Lemma unit_shape_hidden (line : string) :
  match_ line (nth 0 DA.PRICE_PATTERNS (mkRegExp Eps true false)) = None ->
  match_ line (nth 1 DA.PRICE_PATTERNS (mkRegExp Eps true false)) = None.
Proof.
  intro H0.
  destruct (match_ line (nth 1 DA.PRICE_PATTERNS (mkRegExp Eps true false)))
    as [mr|] eqn:H1; [|reflexivity].
  exfalso.
  assert (M1 : match_ line (nth 1 DA.PRICE_PATTERNS (mkRegExp Eps true false)) <> None)
    by (rewrite H1; discriminate).
  cbn [DA.PRICE_PATTERNS map nth cat] in M1, H0.
  apply match_bol in M1.
  destruct (m true _ line 0 _ accept) as [[e c]|] eqn:E; [|contradiction M1; reflexivity].
  apply (m_sound true (fun _ _ => True)) in E;
    [|apply (groups_pass_typed _ _ (fun _ _ => true)); [auto | reflexivity]
     |intros n v _; exact I].
  destruct E as (w & post & c1 & -> & L & _).
  cbn [lang] in L.
  destruct L as (a & w1 & -> & La & b & w2 & -> & Lb & o & w3 & -> & Lo &
                 u & w4 & -> & Lu & b2 & n & -> & Lb2 & Ln).
  assert (Q : lang true
                (Cat DA.name_chars
                   (Cat (plus space)
                      (Cat (opt (cat [lit "per"; plus space]))
                           (alt [lit "kg"; lit "g"; lit "liter"; lit "l";
                                 lit "piece"; lit "pc"; lit "pcs"]))))
                (a ++ b ++ o ++ u)).
  { cbn [lang]. exists a, (b ++ o ++ u). split; [reflexivity|]. split; [exact La|].
    exists b, (o ++ u). split; [reflexivity|]. split; [exact Lb|].
    exists o, u. auto. }
  assert (N : lang true DA.name_chars (a ++ b ++ o ++ u)).
  { apply lang_plus_class.
    - refine (chars_in_sound true
                (accepts true (Class false [CRange "a" "z"; CRange "A" "Z"; CSpace]))
                _ _ _ Q).
      vm_compute. reflexivity.
    - apply len_sound in Q. destruct Q as [Q _].
      match type of Q with
      | ?n <= _ => let v := eval vm_compute in n in change n with v in Q
      end.
      destruct (a ++ b ++ o ++ u); [simpl in Q; lia | discriminate]. }
  assert (W : m true (Cat (Grp 1 DA.name_chars) (Cat (plus space) (Grp 2 DA.num)))
                ((a ++ b ++ o ++ u) ++ (b2 ++ n) ++ post) 0
                (repeat None 3) accept <> None).
  { rewrite <- append_assoc.
    apply (m_complete true
             (Cat (Grp 1 DA.name_chars) (Cat (plus space) (Grp 2 DA.num)))
             eq_refl ((a ++ b ++ o ++ u) ++ b2 ++ n)).
    - cbn [lang]. exists (a ++ b ++ o ++ u), (b2 ++ n).
      split; [reflexivity|]. split; [exact N|].
      exists b2, n. auto.
    - intro c'. discriminate. }
  assert (M0 : match_ ((a ++ b ++ o ++ u) ++ (b2 ++ n) ++ post)
                 (mkRegExp (Cat Bol (Cat (Grp 1 DA.name_chars)
                                         (Cat (plus space) (Grp 2 DA.num))))
                           true false) <> None).
  { apply match_bol. exact W. }
  apply M0. rewrite <- H0. f_equal.
  rewrite !append_assoc. reflexivity.
Qed.

Lemma first_match_shape (line : string) j mr :
  DA.first_match DA.PRICE_PATTERNS 0 line = Some (j, mr) ->
  (j = 0 \/ j = 2) /\
  match_ line (nth j DA.PRICE_PATTERNS (mkRegExp Eps true false)) = Some mr.
Proof.
  change DA.PRICE_PATTERNS with
    [nth 0 DA.PRICE_PATTERNS (mkRegExp Eps true false);
     nth 1 DA.PRICE_PATTERNS (mkRegExp Eps true false);
     nth 2 DA.PRICE_PATTERNS (mkRegExp Eps true false);
     nth 3 DA.PRICE_PATTERNS (mkRegExp Eps true false);
     nth 4 DA.PRICE_PATTERNS (mkRegExp Eps true false)] at 1.
  cbn [DA.first_match].
  destruct (match_ line (nth 0 _ _)) eqn:E0.
  { intro H. injection H as <- <-. auto. }
  destruct (range_shapes_hidden line E0) as [E3 E4].
  rewrite (unit_shape_hidden line E0).
  destruct (match_ line (nth 2 _ _)) eqn:E2.
  { intro H. injection H as <- <-. auto. }
  rewrite E3, E4. discriminate.
Qed.

Lemma letter_group_chars (re : RegExp) (cg : nat) (line : string) mr v :
  ignoreCase re = true ->
  groups_pass (fun n r1 => (negb (n =? S cg) ||
                            chars_in true letter_or_space r1)%bool)
              (pattern re) = true ->
  match_ line re = Some mr ->
  group mr (S cg) = Some v ->
  all_chars letter_or_space v = true.
Proof.
  intros CI P M G.
  assert (Ty : typed (ignoreCase re)
                 (fun n w => n = S cg -> all_chars letter_or_space w = true)
                 (pattern re)).
  { rewrite CI. revert P. apply groups_pass_typed.
    intros n r1 w C L N. apply orb_true_iff in C. destruct C as [C | C].
    - apply negb_true_iff, Nat.eqb_neq in C. contradiction.
    - apply (chars_in_sound true letter_or_space r1 C w L). }
  destruct (match_sound re _ line mr Ty M) as (_ & T & _).
  apply (T cg v G). reflexivity.
Qed.

Lemma generic_commodity_chars (line : string) (j : nat) (mr : MatchResult) v :
  j = 0 \/ j = 2 ->
  match_ line (nth j DA.PRICE_PATTERNS (mkRegExp Eps true false)) = Some mr ->
  DA.f_commodity (DA.generic_fields j mr) = Some v ->
  all_chars letter_or_space v = true.
Proof.
  intros [-> | ->] M F; cbn [DA.generic_fields DA.f_commodity] in F.
  - refine (letter_group_chars
              (nth 0 DA.PRICE_PATTERNS (mkRegExp Eps true false))
              0 line mr v eq_refl _ M F).
    vm_compute. reflexivity.
  - refine (letter_group_chars
              (nth 2 DA.PRICE_PATTERNS (mkRegExp Eps true false))
              1 line mr v eq_refl _ M F).
    vm_compute. reflexivity.
Qed.

Lemma collapse_spaces_blank (s : string) :
  forall in_run, all_chars letter_or_space s = true ->
                 all_chars letter_or_blank (JS.collapse_spaces in_run s) = true.
Proof.
  induction s as [|c s IH]; intros in_run; cbn [all_chars JS.collapse_spaces];
    [reflexivity|].
  rewrite andb_true_iff. intros [H1 H2].
  destruct (JS.is_space c) eqn:E.
  - destruct in_run; [apply IH, H2|]. cbn [all_chars]. rewrite (IH true H2). reflexivity.
  - cbn [all_chars]. rewrite (IH false H2), andb_true_r.
    unfold letter_or_space in H1. rewrite E, orb_false_r in H1.
    unfold letter_or_blank. rewrite H1. reflexivity.
Qed.

(** X23.  Every single-price entry of the generic DA parser has the unit
    [per kg], and its commodity is made of letters and single spaces only:
    the shape with a unit is never reached, because the first shape matches
    every line it matches and takes the unit words into the name
    ([Eggs per pc 9.00] gives the commodity [Eggs per pc], unit [per kg]). *)
Theorem generic_entries_have_default_unit :
  (forall lines region date r,
      In r (DA.results (DA.parseGenericFormat lines region date)) ->
      DA.p_unit r = "per kg" /\
      all_chars letter_or_blank (DA.p_commodity r) = true) /\
  DA.results (DA.parseGenericFormat ["Eggs per pc 9.00"] "Region III" DA.DATE)
    = [eggs_record].
Proof.
  split; [|vm_compute; reflexivity].
  intros lines region date r H.
  assert (F : Forall (fun r => DA.p_unit r = "per kg" /\
                               all_chars letter_or_blank (DA.p_commodity r) = true)
                (DA.results (DA.parseGenericFormat lines region date))).
  { unfold DA.parseGenericFormat.
    apply (fold_left_Forall _ DA.results); [|constructor].
    intros acc raw Hacc. unfold DA.generic_step.
    assert (L : Forall (fun r => DA.p_unit r = "per kg" /\
                                 all_chars letter_or_blank (DA.p_commodity r) = true)
                  (fst (DA.generic_line region date raw))).
    { unfold DA.generic_line.
      destruct (DA.skipped (JS.trim raw)); [constructor|].
      destruct (DA.first_match DA.PRICE_PATTERNS 0 (JS.trim raw)) as [[j mr]|] eqn:E;
        [|constructor].
      apply first_match_shape in E. destruct E as [J M].
      cbv zeta.
      match goal with |- context [if DA.looks_like_header ?c then _ else _] =>
        set (cm := c); destruct (DA.looks_like_header cm); [constructor|]
      end.
      cbn [fst]. unfold DA.generic_single.
      destruct (JS.truthy (DA.f_price _)); [|constructor].
      destruct (JS.parseFloat_opt _); [|constructor].
      destruct (_ && _)%bool; [|constructor].
      constructor; [|constructor]. cbn [DA.p_commodity DA.p_unit]. split.
      - destruct J as [-> | ->]; reflexivity.
      - subst cm.
        destruct (DA.f_commodity (DA.generic_fields j mr)) as [v|] eqn:Fc;
          [|reflexivity].
        destruct v as [|x v]; [reflexivity|]. cbn [JS.truthy DA.show].
        apply collapse_spaces_blank, all_chars_trim.
        apply (generic_commodity_chars _ j mr _ J M Fc). }
    destruct (DA.generic_line region date raw) as [rs rgs]. simpl in *.
    apply Forall_app. split; assumption. }
  rewrite Forall_forall in F. apply F, H.
Qed.

Lemma generic_entries_have_default_unit_witness :
  DA.p_unit eggs_record = "per kg" /\
  all_chars letter_or_blank (DA.p_commodity eggs_record) = true.
Proof.
  apply (proj1 generic_entries_have_default_unit
               ["Rice  per kilo 45.50"; "Eggs per pc 9.00"] "Region III" DA.DATE).
  vm_compute. right. left. reflexivity.
Defined.

(** ** The unit lexicon as a decision list *)

Lemma startsWith_spec (p s : string) :
  JS.startsWith p s = true <-> exists b, s = p ++ b.
Proof.
  revert s. induction p as [|a p IH]; intro s.
  - split; [intros _; exists s; reflexivity | reflexivity].
  - destruct s as [|c s]; cbn [JS.startsWith append].
    + split; [discriminate | intros [b H]; discriminate].
    + rewrite andb_true_iff, Ascii.eqb_eq, IH. split.
      * intros [-> [b ->]]. exists b. reflexivity.
      * intros [b H]. injection H as -> ->. split; [reflexivity | exists b; reflexivity].
Qed.

Lemma includes_spec (s sub : string) :
  JS.includes s sub = true <-> exists a b, s = a ++ sub ++ b.
Proof.
  induction s as [|c s IH].
  - cbn [JS.includes]. rewrite orb_false_r, startsWith_spec. split.
    + intros [b H]. exists "", b. exact H.
    + intros (a & b & H). destruct a; [exists b; exact H | discriminate].
  - cbn [JS.includes]. rewrite orb_true_iff, startsWith_spec, IH. split.
    + intros [[b H] | (a & b & H)].
      * exists "", b. exact H.
      * exists (String c a), b. cbn [append]. rewrite H. reflexivity.
    + intros (a & b & H). destruct a as [|x a].
      * left. exists b. exact H.
      * right. cbn [append] in H. injection H as -> ->. exists a, b. reflexivity.
Qed.

(** A text that includes a word includes every part of the word. *)
Lemma includes_trans (s w sub : string) :
  JS.includes w sub = true -> JS.includes s w = true -> JS.includes s sub = true.
Proof.
  rewrite !includes_spec. intros (a & b & ->) (a' & b' & ->).
  exists (a' ++ a), (b ++ b'). rewrite !append_assoc. reflexivity.
Qed.

Lemma includes_absorb (t w sub : string) :
  JS.includes w sub = true ->
  (JS.includes t w || JS.includes t sub)%bool = JS.includes t sub.
Proof.
  intro H. destruct (JS.includes t w) eqn:E; [|reflexivity].
  rewrite (includes_trans t w sub H E). reflexivity.
Qed.

Lemma variant_other (t v : string) :
  String.eqb v "l" = false ->
  PriceNormalizer.variant_matches t v = JS.includes t v.
Proof. intro H. unfold PriceNormalizer.variant_matches. rewrite H. reflexivity. Qed.

Lemma variant_l (t : string) :
  PriceNormalizer.variant_matches t "l" =
  (String.eqb t "l" || String.eqb t "per l")%bool.
Proof. reflexivity. Qed.

Ltac part_of t w sub :=
  let I := fresh "I" in
  assert (I : JS.includes t w = true -> JS.includes t sub = true)
    by (apply includes_trans; reflexivity).

Ltac by_cases :=
  repeat match goal with
         | |- context [JS.includes ?t ?w] => destruct (JS.includes t w)
         | |- context [String.eqb ?t ?w] => destruct (String.eqb t w)
         end;
  try reflexivity;
  repeat match goal with
         | H : true = true -> _ |- _ => specialize (H eq_refl)
         end;
  discriminate.

Lemma lookup_unit_of (t : string) :
  PriceNormalizer.lookup_unit t PriceNormalizer.unitMap = unit_of t.
Proof.
  unfold PriceNormalizer.unitMap, unit_of.
  cbn [PriceNormalizer.lookup_unit existsb].
  rewrite !variant_l, !variant_other by reflexivity.
  part_of t "per kg" "kg". part_of t "per kilogram" "kilo". part_of t "kilogram" "kilo".
  replace (JS.includes t "per kg" || (JS.includes t "per kilogram" ||
            (JS.includes t "kg" || (JS.includes t "kilogram" ||
              (JS.includes t "kilo" || false)))))%bool
    with (JS.includes t "kg" || JS.includes t "kilo")%bool by by_cases.
  clear I I0 I1.
  part_of t "per liter" "per l".
  assert (I0 : String.eqb t "per l" = true -> JS.includes t "per l" = true)
    by (intro E; apply String.eqb_eq in E; subst t; reflexivity).
  replace (JS.includes t "per liter" || (JS.includes t "per l" ||
            (JS.includes t "liter" || (JS.includes t "litro" ||
              (String.eqb t "l" || String.eqb t "per l" || false)))))%bool
    with (JS.includes t "per l" || JS.includes t "liter" || JS.includes t "litro" ||
          String.eqb t "l")%bool by by_cases.
  clear I I0.
  part_of t "per piece" "piece". part_of t "per pc" "pc". part_of t "pcs" "pc".
  replace (JS.includes t "per piece" || (JS.includes t "per pc" ||
            (JS.includes t "piece" || (JS.includes t "pc" ||
              (JS.includes t "pcs" || false)))))%bool
    with (JS.includes t "piece" || JS.includes t "pc")%bool by by_cases.
  clear I I0 I1.
  part_of t "per dozen" "dozen". part_of t "per dz" "dz".
  replace (JS.includes t "per dozen" || (JS.includes t "per dz" ||
            (JS.includes t "dozen" || (JS.includes t "dz" || false))))%bool
    with (JS.includes t "dozen" || JS.includes t "dz")%bool by by_cases.
  clear I I0.
  part_of t "per sack" "sack". part_of t "sacks" "sack".
  replace (JS.includes t "per sack" || (JS.includes t "sack" ||
            (JS.includes t "sacks" || false)))%bool
    with (JS.includes t "sack") by by_cases.
  clear I I0.
  part_of t "per bundle" "bundle". part_of t "bundles" "bundle".
  replace (JS.includes t "per bundle" || (JS.includes t "bundle" ||
            (JS.includes t "bundles" || false)))%bool
    with (JS.includes t "bundle") by by_cases.
  reflexivity.
Qed.

(** X24.  [extractUnit] is a decision list over eleven words, tried in this
    order on the trimmed, lower-cased text: [kg] or [kilo] give [per kg];
    then [per l], [liter], [litro], or the text [l] alone, give [per liter];
    then [piece] or [pc]; [dozen] or [dz]; [sack]; [bundle]; anything else
    gives [per unit].  So a text that holds [kg] anywhere is [per kg]
    ([1 sack (50 kg)]), and [per lb] is read as [per liter]. *)
Theorem extractUnit_decision_list :
  (forall text,
      text <> EmptyString ->
      PriceNormalizer.extractUnit text = unit_of (JS.trim (JS.toLowerCase text))) /\
  (forall text,
      JS.includes (JS.trim (JS.toLowerCase text)) "kg" = true ->
      PriceNormalizer.extractUnit text = "per kg") /\
  PriceNormalizer.extractUnit "per lb" = "per liter" /\
  PriceNormalizer.extractUnit "1 sack (50 kg)" = "per kg".
Proof.
  split; [|split; [|split; vm_compute; reflexivity]].
  - intros text H. destruct text as [|c t]; [contradiction H; reflexivity|].
    rewrite extractUnit_nonempty. apply lookup_unit_of.
  - intros text H. destruct text as [|c t]; [discriminate H|].
    rewrite extractUnit_nonempty, lookup_unit_of. unfold unit_of. rewrite H. reflexivity.
Qed.

Lemma extractUnit_decision_list_witness :
  PriceNormalizer.extractUnit "Per Bundle" = unit_of (JS.trim (JS.toLowerCase "Per Bundle")) /\
  PriceNormalizer.extractUnit "5 KG bag" = "per kg".
Proof.
  destruct extractUnit_decision_list as (A & B & _).
  split.
  - apply A. discriminate.
  - apply B. vm_compute. reflexivity.
Defined.

(** ** Fuel headers and fuel types *)

Lemma map_chars_app f (a b : string) :
  JS.map_chars f (a ++ b) = JS.map_chars f a ++ JS.map_chars f b.
Proof. induction a as [|c a IH]; simpl; [reflexivity | rewrite IH; reflexivity]. Qed.

Lemma upper_upper_char (c : ascii) : JS.upper_char (JS.upper_char c) = JS.upper_char c.
Proof.
  destruct c as [b0 b1 b2 b3 b4 b5 b6 b7].
  destruct b0, b1, b2, b3, b4, b5, b6, b7; reflexivity.
Qed.

(** With the flag [i], a text of a literal word is the word up to letter
    case. *)
Lemma lit_upper (s w : string) :
  lang true (lit s) w -> JS.toUpperCase w = JS.toUpperCase s.
Proof.
  revert w. induction s as [|c s IH]; intros w L.
  - cbn [lit lang] in L. subst w. reflexivity.
  - assert (One : forall v, lang true (Lit c) v ->
                            JS.toUpperCase v = String (JS.upper_char c) EmptyString).
    { intros v (x & -> & E). unfold char_eq in E. apply Ascii.eqb_eq in E.
      unfold JS.toUpperCase. cbn [JS.map_chars]. rewrite E. reflexivity. }
    destruct s as [|d s].
    + cbn [lit] in L. apply One, L.
    + change (lit (String c (String d s))) with (Cat (Lit c) (lit (String d s))) in L.
      destruct L as (w1 & w2 & -> & L1 & L2).
      unfold JS.toUpperCase in *. rewrite map_chars_app, (One w1 L1), (IH w2 L2).
      reflexivity.
Qed.

Lemma includes_without_head (a : ascii) (q s : string) :
  all_chars (fun x => negb (Ascii.eqb a x)) s = true ->
  JS.includes s (String a q) = false.
Proof.
  induction s as [|x s IH]; cbn [all_chars JS.includes JS.startsWith]; [reflexivity|].
  rewrite andb_true_iff, negb_true_iff. intros [H1 H2].
  rewrite H1, (IH H2). reflexivity.
Qed.

Lemma header_kind (f : string) :
  header_text f -> f <> EmptyString /\ fuel_kind f (DOE.fuelCategory f).
Proof.
  intros (g & L & ->). unfold DOE.fuel_names in L. cbn [alt lang] in L.
  destruct L as [L | [L | L]].
  - (* RON n *)
    assert (C : all_chars not_d_or_k g = true).
    { refine (chars_in_sound true not_d_or_k
                (cat [lit "RON"; plus space; plus digit]) _ g L).
      vm_compute. reflexivity. }
    assert (U : forall a, a = "D"%char \/ a = "K"%char ->
                all_chars (fun x => negb (Ascii.eqb a x)) (JS.toUpperCase g) = true).
    { intros a Ha. clear L. unfold JS.toUpperCase.
      induction g as [|x g IH]; [reflexivity|].
      cbn [all_chars JS.map_chars] in *. apply andb_true_iff in C. destruct C as [C1 C2].
      rewrite (IH C2), andb_true_r. unfold not_d_or_k in C1.
      apply negb_true_iff, orb_false_iff in C1. destruct C1 as [D K].
      rewrite Ascii.eqb_sym. destruct Ha as [-> | ->]; [rewrite D | rewrite K];
        reflexivity. }
    cbn [cat] in L. destruct L as (w1 & w2 & -> & L1 & L2).
    apply lit_upper in L1.
    assert (S : JS.startsWith "RON" (JS.toUpperCase (w1 ++ w2)) = true).
    { unfold JS.toUpperCase in *. rewrite map_chars_app, L1. reflexivity. }
    split.
    + intro E. rewrite E in S. discriminate.
    + left. split; [exact S|]. unfold DOE.fuelCategory.
      rewrite (includes_without_head "D" "IESEL" _ (U "D"%char (or_introl eq_refl))).
      rewrite (includes_without_head "K" "EROSENE" _ (U "K"%char (or_intror eq_refl))).
      reflexivity.
  - (* DIESEL, DIESEL PLUS *)
    cbn [cat] in L. destruct L as (w1 & w2 & -> & L1 & L2).
    apply lit_upper in L1.
    assert (S : JS.startsWith "DIESEL" (JS.toUpperCase (w1 ++ w2)) = true).
    { unfold JS.toUpperCase in *. rewrite map_chars_app, L1. reflexivity. }
    split.
    + intro E. rewrite E in S. discriminate.
    + right. left. split; [exact S|]. unfold DOE.fuelCategory.
      rewrite (startsWith_includes _ _ S). reflexivity.
  - (* KEROSENE *)
    apply lit_upper in L. rewrite L. split; [discriminate|].
    right. right. split; reflexivity.
Qed.

Lemma no_groups_typed ci (T : nat -> string -> Prop) (r : regex) :
  groups_pass (fun _ _ => false) r = true -> typed ci T r.
Proof. apply groups_pass_typed. discriminate. Qed.

Lemma header_group (line : string) (mr : MatchResult) :
  match_ line DOE.fuelTypeHeader = Some mr ->
  header_text (JS.toUpperCase (DA.show (group mr 1))).
Proof.
  intro M.
  assert (Ty : typed (ignoreCase DOE.fuelTypeHeader)
                 (fun n w => n = 1 -> lang true (alt DOE.fuel_names) w)
                 (pattern DOE.fuelTypeHeader)).
  { unfold DOE.fuelTypeHeader. cbn [pattern ignoreCase cat typed].
    split; [exact I|]. split; [|split; exact I].
    split; [intros w L _; exact L|].
    apply no_groups_typed. reflexivity. }
  destruct (match_sound _ _ line mr Ty M) as (_ & T & D).
  assert (D1 : group mr 1 <> None) by (apply D; vm_compute; tauto).
  destruct (group mr 1) as [g|] eqn:G; [|contradiction D1; reflexivity].
  exists g. split; [apply (T 0 g G eq_refl) | reflexivity].
Qed.

(** X25.  Every entry of a fuel bulletin is filed under a header of the
    bulletin in capitals, and its fuel type goes with that name: a commodity
    that starts with [RON] is [gasoline], one that starts with [DIESEL] is
    [diesel], [KEROSENE] is [kerosene]; nothing else occurs.  Each entry has
    the unit [per liter], the source [DOE], and the region and date the
    parser was given. *)
Theorem doe_entries_follow_their_header
        (lines : list string) (region date : string) (r : DOE.PriceRecord) :
  In r (DOE.parseLines lines region date) ->
  fuel_kind (DOE.commodity r) (DOE.fuelType r) /\
  DOE.unit_ r = "per liter" /\ DOE.source r = "DOE" /\
  DOE.region r = region /\ DOE.date r = date.
Proof.
  intro H.
  set (P := fun r => fuel_kind (DOE.commodity r) (DOE.fuelType r) /\
                     DOE.unit_ r = "per liter" /\ DOE.source r = "DOE" /\
                     DOE.region r = region /\ DOE.date r = date).
  assert (Inv : forall ls st,
             (forall f, fst st = Some f -> f <> EmptyString -> header_text f) ->
             Forall P (snd st) ->
             Forall P (snd (fold_left (DOE.step region date) ls st))).
  { induction ls as [|raw ls IH]; intros [cur acc] Hc Ha; [exact Ha|].
    cbn [fold_left]. apply IH; unfold DOE.step.
    - destruct (String.length (JS.trim raw) <? 2); [exact Hc|].
      destruct (match_ (JS.trim raw) DOE.fuelTypeHeader) as [mr|] eqn:M.
      + cbn [fst]. intros f E _. injection E as <-. apply (header_group _ _ M).
      + destruct (JS.truthy cur); [|exact Hc]. cbv zeta.
        destruct (match_ (JS.trim raw) DOE.sectionEnd); [discriminate | exact Hc].
    - destruct (String.length (JS.trim raw) <? 2); [exact Ha|].
      destruct (match_ (JS.trim raw) DOE.fuelTypeHeader) as [mr|] eqn:M; [exact Ha|].
      destruct cur as [[|c f]|]; cbn [JS.truthy]; try exact Ha.
      cbv zeta. cbn [DA.show fst snd] in *.
      assert (K : fuel_kind (String c f) (DOE.fuelCategory (String c f))).
      { apply header_kind. apply Hc; [reflexivity | discriminate]. }
      assert (E : Forall P (DOE.line_entries region date (String c f) (JS.trim raw))).
      { unfold DOE.line_entries. apply Forall_forall. intros x Hx.
        apply in_flat_map in Hx. destruct Hx as (w & _ & Hx).
        unfold DOE.price_entry in Hx.
        destruct (JS.parseFloat w); [|destruct Hx].
        destruct (_ || _)%bool; [destruct Hx|].
        destruct (DOE.not_price_line _); [destruct Hx|].
        destruct Hx as [<- | []]. unfold P. cbn. auto. }
      destruct (match_ (JS.trim raw) DOE.sectionEnd); cbn [snd];
        apply Forall_app; auto. }
  unfold DOE.parseLines in H.
  assert (F : Forall P (snd (fold_left (DOE.step region date) lines (None, [])))).
  { apply Inv; [intros f E; discriminate | constructor]. }
  rewrite Forall_forall in F. apply F, H.
Qed.

Lemma doe_entries_follow_their_header_witness :
  fuel_kind "DIESEL PLUS" "diesel" /\
  "per liter" = "per liter" /\ "DOE" = "DOE" /\
  JS.VString "Luzon" = "Luzon" /\ "2025-06-17" = "2025-06-17".
Proof.
  apply (doe_entries_follow_their_header ["Diesel Plus"; "61.00"] "Luzon" "2025-06-17"
           (fuel_entry "Luzon" "2025-06-17" "DIESEL PLUS" 61)).
  vm_compute. left. reflexivity.
Defined.

(** ** The markets of the NCR format *)

(** On ASCII text the Latin-1 folding is the plain one. *)
Lemma lower_latin1_ascii (s : string) :
  all_chars (fun c => N.ltb (JS.code c) 128) s = true ->
  JS.toLowerCaseLatin1 s = JS.toLowerCase s.
Proof.
  unfold JS.toLowerCaseLatin1, JS.toLowerCase.
  induction s as [|c s IH]; cbn [all_chars JS.lower_latin1 JS.map_chars];
    [reflexivity|].
  rewrite andb_true_iff. intros [H1 H2]. cbn [andb].
  replace (N.eqb (JS.code c) 195) with false.
  - rewrite (IH H2). reflexivity.
  - symmetry. apply N.eqb_neq. apply N.ltb_lt in H1. lia.
Qed.

(** X26.  Every range entry of the NCR format is filed as rice, whatever
    the line says: category [rice], unit [per kg], source [DA], the region
    and date given; its market is either empty, with the commodity [Rice],
    or a trimmed line of the bulletin that holds one of the market names in
    any letter case, with the commodity [Rice at] that line.  The letter
    case is folded for the letters of Latin-1 too: the line
    [NEW LAS PIÑAS CITY PUBLIC MARKET] is the market of the ranges that
    follow it. *)
Theorem ncr_entries_are_rice_at_a_market :
  (forall lines region date r,
      In r (DA.priceRanges (DA.parseNCRFormat lines region date)) ->
      rice_at_market lines region date r) /\
  DA.isMarketName "NEW LAS PIÑAS CITY PUBLIC MARKET" = true /\
  JS.toLowerCaseLatin1 "NEW LAS PIÑAS CITY PUBLIC MARKET" =
    "new las piñas city public market" /\
  map (fun r => (DA.commodity r, DA.market r))
      (DA.priceRanges
         (DA.parseNCRFormat ["NEW LAS PIÑAS CITY PUBLIC MARKET"; "45.00-48.00"]
                            "NCR" DA.DATE)) =
    [ ("Rice at NEW LAS PIÑAS CITY PUBLIC MARKET",
       Some "NEW LAS PIÑAS CITY PUBLIC MARKET") ].
Proof.
  split; [|repeat split; vm_compute; reflexivity].
  intros lines region date r H.
  assert (Inv : forall ls st,
             incl ls lines ->
             (fst st = EmptyString \/
              exists raw, In raw lines /\ DA.isMarketName (JS.trim raw) = true /\
                          DA.skipped (JS.trim raw) = false /\ fst st = JS.trim raw) ->
             Forall (rice_at_market lines region date) (snd st) ->
             Forall (rice_at_market lines region date)
                    (snd (fold_left (DA.ncr_step region date) ls st))).
  { induction ls as [|raw ls IH]; intros [cur acc] Hi Hc Ha; [exact Ha|].
    cbn [fold_left].
    assert (Hraw : In raw lines) by (apply Hi; left; reflexivity).
    assert (Hi' : incl ls lines) by (intros x Hx; apply Hi; right; exact Hx).
    apply (IH _ Hi'); unfold DA.ncr_step.
    - destruct (DA.skipped (JS.trim raw)) eqn:Sk; [exact Hc|].
      destruct (DA.isMarketName (JS.trim raw)) eqn:Mk; [|exact Hc].
      right. exists raw. cbn [fst]. auto.
    - destruct (DA.skipped (JS.trim raw)) eqn:Sk; [exact Ha|].
      destruct (DA.isMarketName (JS.trim raw)) eqn:Mk; [exact Ha|].
      cbn [fst snd] in *. apply Forall_app. split; [exact Ha|].
      apply Forall_forall. intros x Hx. unfold DA.ncr_line_entries in Hx.
      apply in_flat_map in Hx. destruct Hx as (p & _ & Hx).
      apply in_flat_map in Hx. destruct Hx as (mr & _ & Hx).
      unfold DA.ncr_entry in Hx.
      destruct (3 <=? match_length mr); [|destruct Hx].
      destruct (JS.parseFloat_opt (group mr 1)); [|destruct Hx].
      destruct (JS.parseFloat_opt (group mr 2)); [|destruct Hx].
      destruct (_ && _)%bool; [|destruct Hx].
      destruct Hx as [<- | []]. unfold rice_at_market. cbn.
      repeat (split; [reflexivity|]).
      destruct Hc as [-> | (raw' & I' & M' & S' & ->)].
      + left. split; reflexivity.
      + right. exists raw'. repeat split; try assumption.
        destruct (JS.trim raw'); [discriminate S' | reflexivity]. }
  unfold DA.parseNCRFormat in H. cbn [DA.priceRanges] in H.
  assert (F : Forall (rice_at_market lines region date)
                     (snd (fold_left (DA.ncr_step region date) lines (EmptyString, [])))).
  { apply Inv; [apply incl_refl | left; reflexivity | constructor]. }
  rewrite Forall_forall in F. apply F, H.
Qed.

Lemma ncr_entries_are_rice_at_a_market_witness :
  rice_at_market balintawak_lines "NCR" "2025-06-26" balintawak_record.
Proof.
  apply (proj1 ncr_entries_are_rice_at_a_market balintawak_lines "NCR" "2025-06-26"
               balintawak_record).
  vm_compute. left. reflexivity.
Defined.

(* ================================================================== *)
(** * The claims on the batches, the fuel headers and the dates *)
(* ================================================================== *)

(** ** C9 *)

(** C9.  In both batch drivers a file whose reading or decoding raises is
    caught in its own round of the loop: whatever the list of files, the
    aggregates are the entries of the files that could be parsed, in the
    order of the files and each tagged with its file name, and the log has
    one line [❌ Error processing <file>: <message>] for every file that
    could not, in the same order; no failure ends the loop.  For three files
    of which only the second fails, the aggregate is the entries of the
    first file followed by those of the third, and the log has the one line
    of the second file.  A failure of the read or of the decoder reaches the
    loop as an error whose message starts with [Could not read PDF file: ] or
    [Could not parse PDF: ]. *)
Theorem batch_skips_failed_file :
  (forall readFileSync pdf (l : list DA.PdfFile),
      DA.parseAllDAPDFs readFileSync pdf l =
        {| DA.allResults := flat_map (da_file_results readFileSync pdf) l;
           DA.allPriceRanges := flat_map (da_file_ranges readFileSync pdf) l;
           DA.errors :=
             flat_map (fun f =>
                         file_error (DA.pdf_filename f)
                           (DA.parseDAPDF readFileSync pdf (DA.path f) (DA.pdf_region f)))
                      l |}) /\
  (forall readFileSync pdf (l : list DOE.PdfFile),
      DOE.parseAllDOEPDFs readFileSync pdf l =
        {| DOE.allResults := flat_map (doe_file_results readFileSync pdf) l;
           DOE.errors :=
             flat_map (fun f =>
                         file_error (DOE.pdf_filename f)
                           (DOE.parseDOEPDF readFileSync pdf (DOE.path f)
                                            (DOE.pdf_region f)))
                      l |}) /\
  (forall readFileSync pdf f1 f2 f3 p1 p3 msg,
      DA.parseDAPDF readFileSync pdf (DA.path f1) (DA.pdf_region f1) = JS.Ok p1 ->
      DA.parseDAPDF readFileSync pdf (DA.path f2) (DA.pdf_region f2) = JS.Throw msg ->
      DA.parseDAPDF readFileSync pdf (DA.path f3) (DA.pdf_region f3) = JS.Ok p3 ->
      DA.parseAllDAPDFs readFileSync pdf [f1; f2; f3] =
        {| DA.allResults :=
             (map (DA.set_price_filename (DA.pdf_filename f1)) (DA.results p1) ++
              map (DA.set_price_filename (DA.pdf_filename f3)) (DA.results p3))%list;
           DA.allPriceRanges :=
             (map (DA.set_range_filename (DA.pdf_filename f1)) (DA.priceRanges p1) ++
              map (DA.set_range_filename (DA.pdf_filename f3)) (DA.priceRanges p3))%list;
           DA.errors :=
             ["❌ Error processing " ++ DA.pdf_filename f2 ++ ": " ++ msg] |}) /\
  (forall readFileSync pdf f1 f2 f3 r1 r3 msg,
      DOE.parseDOEPDF readFileSync pdf (DOE.path f1) (DOE.pdf_region f1) = JS.Ok r1 ->
      DOE.parseDOEPDF readFileSync pdf (DOE.path f2) (DOE.pdf_region f2) = JS.Throw msg ->
      DOE.parseDOEPDF readFileSync pdf (DOE.path f3) (DOE.pdf_region f3) = JS.Ok r3 ->
      DOE.parseAllDOEPDFs readFileSync pdf [f1; f2; f3] =
        {| DOE.allResults :=
             (map (DOE.set_filename (DOE.pdf_filename f1)) r1 ++
              map (DOE.set_filename (DOE.pdf_filename f3)) r3)%list;
           DOE.errors :=
             ["❌ Error processing " ++ DOE.pdf_filename f2 ++ ": " ++ msg] |}) /\
  (forall readFileSync pdf pdfPath region msg,
      readFileSync pdfPath = JS.Throw msg ->
      DA.parseDAPDF readFileSync pdf pdfPath region =
        JS.Throw ("Could not read PDF file: " ++ msg) /\
      DOE.parseDOEPDF readFileSync pdf pdfPath region =
        JS.Throw ("Could not read PDF file: " ++ msg)) /\
  (forall readFileSync pdf pdfPath region buffer msg,
      readFileSync pdfPath = JS.Ok buffer -> pdf buffer = JS.Throw msg ->
      DA.parseDAPDF readFileSync pdf pdfPath region =
        JS.Throw ("Could not parse PDF: " ++ msg) /\
      DOE.parseDOEPDF readFileSync pdf pdfPath region =
        JS.Throw ("Could not parse PDF: " ++ msg)).
Proof.
  assert (GDA : forall readFileSync pdf (l : list DA.PdfFile),
      DA.parseAllDAPDFs readFileSync pdf l =
        {| DA.allResults := flat_map (da_file_results readFileSync pdf) l;
           DA.allPriceRanges := flat_map (da_file_ranges readFileSync pdf) l;
           DA.errors :=
             flat_map (fun f =>
                         file_error (DA.pdf_filename f)
                           (DA.parseDAPDF readFileSync pdf (DA.path f) (DA.pdf_region f)))
                      l |}).
  { intros readFileSync pdf l. unfold DA.parseAllDAPDFs.
    destruct (da_batch_from readFileSync pdf (DA.mkBatch [] [] []) l _ eq_refl)
      as (A1 & A2 & A3).
    destruct (fold_left (DA.batch_step readFileSync pdf) l (DA.mkBatch [] [] []))
      as [rs rgs es].
    cbn [DA.allResults DA.allPriceRanges DA.errors app] in A1, A2, A3.
    rewrite A1, A2, A3. f_equal; apply flat_map_ext; intro f;
      unfold DA.batch_step, da_file_results, da_file_ranges, file_error;
      destruct (DA.parseDAPDF readFileSync pdf (DA.path f) (DA.pdf_region f));
      reflexivity. }
  assert (GDOE : forall readFileSync pdf (l : list DOE.PdfFile),
      DOE.parseAllDOEPDFs readFileSync pdf l =
        {| DOE.allResults := flat_map (doe_file_results readFileSync pdf) l;
           DOE.errors :=
             flat_map (fun f =>
                         file_error (DOE.pdf_filename f)
                           (DOE.parseDOEPDF readFileSync pdf (DOE.path f)
                                            (DOE.pdf_region f)))
                      l |}).
  { intros readFileSync pdf l. unfold DOE.parseAllDOEPDFs.
    destruct (doe_batch_from readFileSync pdf (DOE.mkBatch [] []) l _ eq_refl)
      as (A1 & A2).
    destruct (fold_left (DOE.batch_step readFileSync pdf) l (DOE.mkBatch [] []))
      as [rs es].
    cbn [DOE.allResults DOE.errors app] in A1, A2.
    rewrite A1, A2. f_equal; apply flat_map_ext; intro f;
      unfold DOE.batch_step, doe_file_results, file_error;
      destruct (DOE.parseDOEPDF readFileSync pdf (DOE.path f) (DOE.pdf_region f));
      reflexivity. }
  split; [exact GDA|]. split; [exact GDOE|].
  split; [|split; [|split]].
  - intros readFileSync pdf f1 f2 f3 p1 p3 msg E1 E2 E3.
    rewrite GDA. cbn [flat_map].
    unfold da_file_results, da_file_ranges. rewrite E1, E2, E3.
    cbn [file_error app]. rewrite !app_nil_r. reflexivity.
  - intros readFileSync pdf f1 f2 f3 r1 r3 msg E1 E2 E3.
    rewrite GDOE. cbn [flat_map].
    unfold doe_file_results. rewrite E1, E2, E3.
    cbn [file_error app]. rewrite !app_nil_r. reflexivity.
  - intros readFileSync pdf pdfPath region msg E.
    unfold DA.parseDAPDF, DOE.parseDOEPDF. rewrite E. split; reflexivity.
  - intros readFileSync pdf pdfPath region buffer msg E1 E2.
    unfold DA.parseDAPDF, DOE.parseDOEPDF. rewrite E1, E2. split; reflexivity.
Qed.

Lemma batch_skips_failed_file_witness :
  DA.allResults
    (DA.parseAllDAPDFs sample_read sample_da_pdf
       [da_file "one.pdf"; da_file "two.pdf"; da_file "three.pdf"]) =
    [ DA.mkPrice "Rice" "per kg" (91 # 2) "DA" "Region III" "2025-06-26" "rice"
                 false (Some "one.pdf");
      DA.mkPrice "Tomato" "per kg" 60 "DA" "Region III" "2025-06-26" "vegetables"
                 false (Some "three.pdf") ] /\
  DA.errors
    (DA.parseAllDAPDFs sample_read sample_da_pdf
       [da_file "one.pdf"; da_file "two.pdf"; da_file "three.pdf"]) =
    ["❌ Error processing two.pdf: Could not parse PDF: Invalid PDF structure"] /\
  DOE.parseAllDOEPDFs sample_read sample_doe_pdf
       [doe_file "one.pdf"; doe_file "two.pdf"; doe_file "three.pdf"] =
    {| DOE.allResults :=
         [ DOE.mkPrice "RON 95" "per liter" (JS.double (5649 # 100)) "DOE" "Luzon"
                       "2025-06-17" "gasoline" None (Some "one.pdf");
           DOE.mkPrice "DIESEL" "per liter" 61 "DOE" "Luzon" "2025-06-17"
                       "diesel" None (Some "three.pdf") ];
       DOE.errors :=
         ["❌ Error processing two.pdf: Could not parse PDF: Invalid PDF structure"] |}.
Proof.
  destruct batch_skips_failed_file as (_ & _ & TDA & TDOE & _).
  pose proof (TDA sample_read sample_da_pdf
                  (da_file "one.pdf") (da_file "two.pdf") (da_file "three.pdf")
                  (DA.extractPricesFromText "Rice 45.50" "Region III" DA.DATE)
                  (DA.extractPricesFromText "Tomato 60" "Region III" DA.DATE)
                  "Could not parse PDF: Invalid PDF structure") as HDA.
  pose proof (TDOE sample_read sample_doe_pdf
                   (doe_file "one.pdf") (doe_file "two.pdf") (doe_file "three.pdf")
                   (DOE.parseLines ["RON 95"; "56.49"] "Luzon" DOE.DATE)
                   (DOE.parseLines ["DIESEL"; "61.00"] "Luzon" DOE.DATE)
                   "Could not parse PDF: Invalid PDF structure") as HDOE.
  split; [|split].
  - rewrite HDA; vm_compute; reflexivity.
  - rewrite HDA; vm_compute; reflexivity.
  - rewrite HDOE; vm_compute; reflexivity.
Defined.

(** ** Fuel headers *)

Lemma append_empty (s : string) : s ++ "" = s.
Proof. induction s as [|x s IH]; simpl; [reflexivity | rewrite IH; reflexivity]. Qed.

Lemma trimEnd_spaces (b : string) :
  all_chars JS.is_space b = true -> JS.trimEnd b = "".
Proof.
  induction b as [|x b IH]; cbn [all_chars JS.trimEnd]; [reflexivity|].
  rewrite andb_true_iff. intros [H1 H2]. rewrite (IH H2), H1. reflexivity.
Qed.

Lemma trimEnd_app_spaces (a b : string) :
  all_chars JS.is_space b = true -> JS.trimEnd (a ++ b) = JS.trimEnd a.
Proof.
  intro H. induction a as [|x a IH]; cbn [append JS.trimEnd].
  - apply trimEnd_spaces, H.
  - rewrite IH. reflexivity.
Qed.

Lemma trimEnd_length (s : string) : String.length (JS.trimEnd s) <= String.length s.
Proof.
  induction s as [|x s IH]; cbn [JS.trimEnd String.length]; [lia|].
  destruct (JS.trimEnd s) as [|y t].
  - destruct (JS.is_space x); cbn [String.length]; lia.
  - cbn [String.length] in *. lia.
Qed.

(** A trimmed text does not end with white space. *)
Lemma trim_no_trailing_space (raw a b : string) :
  JS.trim raw = a ++ b -> all_chars JS.is_space b = true -> b = "".
Proof.
  intros E H.
  assert (T : JS.trimEnd (JS.trim raw) = JS.trim raw) by (unfold JS.trim; apply trimEnd_idem).
  rewrite E, (trimEnd_app_spaces a b H) in T.
  pose proof (trimEnd_length a) as L. rewrite T, length_append in L.
  destruct b; [reflexivity | cbn [String.length] in L; lia].
Qed.

(** What the header pattern matches, on a text that does not end with white
    space, is the whole text, and group 1 holds it. *)
Lemma header_match_whole (t : string) (mr : MatchResult) :
  (forall a b, t = a ++ b -> all_chars JS.is_space b = true -> b = "") ->
  match_ t DOE.fuelTypeHeader = Some mr ->
  fuel_header t /\ group mr 1 = Some t.
Proof.
  intros NT H. unfold match_, exec_from in H. cbn [drop] in H.
  change DOE.fuelTypeHeader
    with (mkRegExp (Cat Bol (cat [Grp 1 (alt DOE.fuel_names); star space; Eol]))
                   true false) in H.
  assert (E : exists e c,
             m true (Cat Bol (cat [Grp 1 (alt DOE.fuel_names); star space; Eol])) t 0
               [None; None] accept = Some (e, c) /\
             mr = mkMatch 0 e (set_capture 0 (substring 0 (e - 0) t) c)).
  { destruct t as [|x s]; cbn [search pattern ignoreCase] in H;
      change (repeat None (S (ngroups _))) with [@None string; None] in H;
      match type of H with
      | match ?M with _ => _ end = _ => destruct M as [[e c]|] eqn:E
      end.
    - exists e, c. split; [reflexivity | congruence].
    - discriminate.
    - exists e, c. split; [reflexivity | congruence].
    - rewrite search_bol_later in H by lia. discriminate. }
  clear H. destruct E as (e & c & E & ->).
  cbn [cat m Nat.eqb] in E.
  apply (m_sound true (fun _ _ => False) (alt DOE.fuel_names)) in E;
    [| apply no_groups_typed; reflexivity
     | intros n v; destruct n as [|[|[|n]]]; discriminate].
  destruct E as (w & s1 & c1 & E1 & L1 & OK1 & K1 & _ & E).
  cbn [Nat.add] in E. rewrite Nat.sub_0_r, E1, substring_prefix in E.
  apply (m_sound true (fun _ v => v = w) (star space)) in E;
    [| exact I
     | apply caps_ok_set; [intros n v Hn; destruct (OK1 n v Hn) | reflexivity]].
  destruct E as (w2 & s2 & c2 & E2 & L2 & OK2 & K2 & _ & E).
  destruct s2 as [|y s2]; [|discriminate E].
  unfold accept in E. assert (Ec : c = c2) by congruence. subst c. clear E.
  rewrite append_empty in E2. subst s1.
  assert (W2 : w2 = "").
  { apply (NT w w2 E1).
    apply (chars_in_sound true JS.is_space (star space)); [reflexivity | exact L2]. }
  subst w2. rewrite append_empty in E1. subst w.
  split; [exact L1|].
  unfold group. cbn [groups]. rewrite nth_set_capture. cbn [Nat.eqb andb].
  destruct K1 as [Len1 _]. cbn [List.length] in Len1.
  destruct K2 as [_ K2]. specialize (K2 1).
  rewrite nth_set_capture, Len1 in K2. cbn [Nat.eqb Nat.ltb Nat.leb andb] in K2.
  destruct (nth 1 c2 None) as [v|] eqn:N; [|contradiction K2; [discriminate | reflexivity]].
  rewrite (OK2 1 v N). reflexivity.
Qed.

(** The header pattern matches every fuel header. *)
Lemma header_matches (t : string) :
  fuel_header t -> match_ t DOE.fuelTypeHeader <> None.
Proof.
  intro L.
  change DOE.fuelTypeHeader
    with (mkRegExp (Cat Bol (cat [Grp 1 (alt DOE.fuel_names); star space; Eol]))
                   true false).
  apply match_bol. cbn [cat m].
  rewrite <- (append_empty t) at 1.
  apply (m_complete true (alt DOE.fuel_names) eq_refl t L).
  intro c'. cbn. discriminate.
Qed.

Lemma header_iff (raw : string) :
  match_ (JS.trim raw) DOE.fuelTypeHeader <> None <-> fuel_header (JS.trim raw).
Proof.
  split.
  - intro H. destruct (match_ (JS.trim raw) DOE.fuelTypeHeader) as [mr|] eqn:M;
      [|contradiction H; reflexivity].
    apply (header_match_whole _ mr (trim_no_trailing_space raw) M).
  - apply header_matches.
Qed.

Lemma header_step region date cur acc raw :
  fuel_header (JS.trim raw) ->
  DOE.step region date (cur, acc) raw = (Some (JS.toUpperCase (JS.trim raw)), acc).
Proof.
  intro L. unfold DOE.step.
  assert (Len : 5 <= String.length (JS.trim raw)).
  { apply (len_sound true (alt DOE.fuel_names) _ L). }
  destruct (String.length (JS.trim raw) <? 2) eqn:S; [apply Nat.ltb_lt in S; lia|].
  destruct (match_ (JS.trim raw) DOE.fuelTypeHeader) as [mr|] eqn:M.
  - destruct (header_match_whole _ mr (trim_no_trailing_space raw) M) as [_ G].
    rewrite G. reflexivity.
  - contradiction (header_matches _ L M).
Qed.

(** ** C7 *)

(** C7, amended.  The fuel parser sets the current fuel type, to the text in
    capitals, at every line that, trimmed, is a fuel header ([RON] and a
    number, [DIESEL], [DIESEL PLUS] or [KEROSENE], in any letter case), and
    such a line pushes nothing; no other line sets it (a line that is not a
    header leaves it as it is or clears it).  While a fuel type is current,
    a line that is not a fuel header and contains none of [page], [none],
    [monitoring] pushes, in order, one entry for every token [\d+\.\d{2}]
    of the line whose value lies in (0, 200], with unit [per liter] and the
    current fuel type as commodity, and nothing else; the lines [RON 95],
    [56.49], [58.49] give exactly the two entries of 56.49 and 58.49 under
    [RON 95]. *)
Theorem doe_prices_under_current_fuel :
  (forall region date cur acc raw,
      fuel_header (JS.trim raw) ->
      DOE.step region date (cur, acc) raw =
        (Some (JS.toUpperCase (JS.trim raw)), acc)) /\
  (forall region date cur acc raw,
      ~ fuel_header (JS.trim raw) ->
      fst (DOE.step region date (cur, acc) raw) = cur \/
      fst (DOE.step region date (cur, acc) raw) = None) /\
  (forall region date fuel acc raw,
      fuel <> EmptyString ->
      2 <= String.length (JS.trim raw) ->
      ~ fuel_header (JS.trim raw) ->
      DOE.not_price_line (JS.trim raw) = false ->
      snd (DOE.step region date (Some fuel, acc) raw) =
        (acc ++ map (fuel_entry region date fuel)
                    (fuel_prices (match_all (JS.trim raw) DOE.priceToken)))%list) /\
  (fuel_header "RON 95" /\ fuel_header "ron  100" /\ fuel_header "Diesel" /\
   fuel_header "DIESEL PLUS" /\ fuel_header "Kerosene") /\
  (~ fuel_header "RON95" /\ ~ fuel_header "RON 95 octane" /\
   ~ fuel_header "DIESEL PLUS 2" /\ ~ fuel_header "Premium") /\
  (forall region date,
      DOE.parseLines ron95_lines region date =
        [fuel_entry region date "RON 95" (JS.double (5649 # 100));
         fuel_entry region date "RON 95" (JS.double (5849 # 100))]).
Proof.
  assert (Yes : forall t, JS.trim t = t -> match_ t DOE.fuelTypeHeader <> None ->
                          fuel_header t).
  { intros t E H. rewrite <- E. apply header_iff. rewrite E. exact H. }
  assert (No : forall t, match_ t DOE.fuelTypeHeader = None -> ~ fuel_header t).
  { intros t E L. exact (header_matches t L E). }
  split; [exact header_step|].
  split; [|split; [|split; [|split]]].
  - intros region date cur acc raw N. unfold DOE.step.
    destruct (String.length (JS.trim raw) <? 2); [left; reflexivity|].
    destruct (match_ (JS.trim raw) DOE.fuelTypeHeader) as [mr|] eqn:M.
    { contradiction N. apply header_iff. rewrite M. discriminate. }
    destruct (JS.truthy cur); [|left; reflexivity].
    cbv zeta. destruct (match_ (JS.trim raw) DOE.sectionEnd);
      [right | left]; reflexivity.
  - intros region date fuel acc raw Hf Hlen Hhead Hnp.
    unfold DOE.step.
    destruct (String.length (JS.trim raw) <? 2) eqn:L.
    { apply Nat.ltb_lt in L. lia. }
    destruct (match_ (JS.trim raw) DOE.fuelTypeHeader) as [mr|] eqn:M.
    { contradiction Hhead. apply header_iff. rewrite M. discriminate. }
    destruct fuel as [|c fuel]; [congruence|].
    cbn [JS.truthy DA.show]. cbv zeta.
    rewrite (doe_line_entries_spec _ _ _ _ Hnp).
    destruct (match_ (JS.trim raw) DOE.sectionEnd); reflexivity.
  - repeat split; apply Yes; vm_compute; first [reflexivity | discriminate].
  - repeat split; apply No; vm_compute; reflexivity.
  - intros region date. vm_compute. reflexivity.
Qed.

Lemma doe_prices_under_current_fuel_witness :
  DOE.step "Luzon" "2025-06-17" (None, []) " Diesel Plus " = (Some "DIESEL PLUS", []) /\
  snd (DOE.step "Luzon" "2025-06-17" (Some "RON 95", []) " 56.49 58.49 250.00 ") =
    [fuel_entry "Luzon" "2025-06-17" "RON 95" (JS.double (5649 # 100));
     fuel_entry "Luzon" "2025-06-17" "RON 95" (JS.double (5849 # 100))].
Proof.
  destruct doe_prices_under_current_fuel as (T1 & _ & T3 & _).
  split.
  - rewrite T1; [reflexivity|].
    change (JS.trim " Diesel Plus ") with (JS.trim "Diesel Plus").
    apply header_iff. vm_compute. discriminate.
  - rewrite T3.
    + vm_compute. reflexivity.
    + discriminate.
    + vm_compute. lia.
    + intro L. apply header_matches in L. apply L. vm_compute. reflexivity.
    + vm_compute. reflexivity.
Defined.

(** ** Dates of a plain file name *)






(** ** C6 *)


